(** * Layer Property Flow package (flopy/modflow/mflpf.py)

    A shallow embedding of [ModflowLpf]: the constructor [__init__], the
    encoder [write_file], the decoder [load] and the validator [check],
    together with the properties of the package record and of its text
    file.

    Conventions of the embedding.
    - Python numbers: an [int] is a [Z]; a finite [float] (float32 or
      float64) is the rational it denotes, a [Q].  The package compares
      floats and never computes with them, and comparisons are exact.  A
      NumPy array of [np.int] holds 64-bit integers, whose sum wraps
      around, and an array of [np.float32] holds numbers rounded to that
      precision ([float32] of the collaborators).
    - Text is [string]; a file is the list of its lines.
    - Statements with effects (opening, reading, writing and closing file
      handles, raising, calling into other modules) live in the monad [M]
      of worlds with exceptions.  Writes carry a label saying which item of
      the file they belong to and calls into collaborating modules are
      logged; both are ghost data that the code never inspects.
    - Code of other modules (the array containers [Util2d]/[Util3d], the
      1-D reader [read1d], the parameter loader [mfpar], [Package]), the
      float conversions of the language and what the operating system
      decides (which paths can be opened for writing) are the fields of
      the class [Collaborators]. *)

From Stdlib Require Import ZArith QArith String Ascii List Bool Lia.
From Stdlib Require Import DecimalString DecimalPos DecimalZ.
From stdpp Require Import base list strings gmap.

Open Scope string_scope.
Open Scope Z_scope.

(** ** Python builtins on strings and integers *)

Module Py.

Definition is_space (c : ascii) : bool :=
  let n := nat_of_ascii c in
  ((n =? 32) || ((9 <=? n) && (n <=? 13)))%nat.

Definition upper_char (c : ascii) : ascii :=
  let n := nat_of_ascii c in
  if ((97 <=? n) && (n <=? 122))%nat then ascii_of_nat (n - 32) else c.

(** [s.upper()] *)
Fixpoint upper (s : string) : string :=
  match s with
  | EmptyString => EmptyString
  | String c r => String (upper_char c) (upper r)
  end.

(** [needle in hay] on strings *)
Fixpoint contains (needle hay : string) : bool :=
  String.prefix needle hay ||
  match hay with
  | EmptyString => false
  | String _ r => contains needle r
  end.

Fixpoint lstrip (s : string) : string :=
  match s with
  | String c r => if is_space c then lstrip r else s
  | EmptyString => EmptyString
  end.

Fixpoint rstrip (s : string) : string :=
  match s with
  | EmptyString => EmptyString
  | String c r =>
      match rstrip r with
      | EmptyString => if is_space c then EmptyString else String c EmptyString
      | r' => String c r'
      end
  end.

(** [s.strip()] *)
Definition strip (s : string) : string := rstrip (lstrip s).

(** [s.split()]: the maximal runs of non-blank characters.  [cur] is the
    run being read, reversed. *)
Fixpoint split_aux (cur : list ascii) (s : string) : list string :=
  let flush := match cur with
               | [] => []
               | _ => [string_of_list_ascii (rev cur)]
               end in
  match s with
  | EmptyString => flush
  | String c r =>
      if is_space c then flush ++ split_aux [] r
      else split_aux (c :: cur) r
  end.

Definition split (s : string) : list string := split_aux [] s.

(** [int(s)] for a token without blanks: an optional sign and at least
    one decimal digit; anything else is a [ValueError] ([None]). *)
Definition int (s : string) : option Z :=
  match s with
  | String "+" r => option_map Z.of_uint (NilZero.uint_of_string r)
  | _ => option_map Z.of_int (NilZero.int_of_string s)
  end.

Definition str_of_int (z : Z) : string := NilZero.string_of_int (Z.to_int z).

Fixpoint spaces (n : nat) : string :=
  match n with
  | O => EmptyString
  | S n => String " " (spaces n)
  end.

(** ['{:wd}'.format(z)]: decimal, right-justified in [w] columns, never
    truncated. *)
Definition format_d (w : nat) (z : Z) : string :=
  let s := str_of_int z in
  spaces (w - String.length s) ++ s.

(** [text.splitlines(keepends=True)] for the newline character, which is
    how [readline] cuts a text file. *)
Fixpoint lines_aux (cur : list ascii) (s : string) : list string :=
  match s with
  | EmptyString =>
      match cur with
      | [] => []
      | _ => [string_of_list_ascii (rev cur)]
      end
  | String c r =>
      if Ascii.eqb c "010" then string_of_list_ascii (rev (c :: cur)) :: lines_aux [] r
      else lines_aux (c :: cur) r
  end.

Definition lines (s : string) : list string := lines_aux [] s.

End Py.

(** Numbers as NumPy sees them. *)
Module Np.

(** [astype(int)]: truncation towards zero. *)
Definition int (q : Q) : Z := Z.quot (Qnum q) (Zpos (Qden q)).

(** [np.int] is the signed integer of 64 bits: [fits64] are the numbers
    that it can hold, and arithmetic on it wraps around. *)
Definition fits64 (z : Z) : bool := (- 2 ^ 63 <=? z) && (z <? 2 ^ 63).

Definition wrap64 (z : Z) : Z := (z + 2 ^ 63) mod 2 ^ 64 - 2 ^ 63.

(** [a.sum()] on an array of [np.int] *)
Definition sum (l : list Z) : Z := fold_right (fun x acc => wrap64 (x + acc)) 0 l.

Definition lt (x y : Q) : bool := negb (Qle_bool y x).
Definition gt (x y : Q) : bool := lt y x.
Definition le (x y : Q) : bool := Qle_bool x y.
Definition ne (x y : Q) : bool := negb (Qeq_bool x y).

End Np.

(** ** Exceptions, worlds and the monad of effects *)

Inductive exn : Type :=
| IndexError | ValueError | TypeError | NameError | IOError | OverflowError.

Inductive outcome (A : Type) : Type :=
| Ok (a : A)
| Raise (e : exn).
Arguments Ok {A} a.
Arguments Raise {A} e.

Definition obind {A B : Type} (o : outcome A) (f : A -> outcome B) : outcome B :=
  match o with
  | Ok a => f a
  | Raise e => Raise e
  end.

(** [l[k]] on a Python list or a 1-D array, for [k >= 0]. *)
Definition index {A : Type} (l : list A) (k : nat) : outcome A :=
  match l !! k with
  | Some a => Ok a
  | None => Raise IndexError
  end.

(** The seven 3-D fields of the package and the items of its file. *)
Inductive field : Type :=
| Fhk | Fhani | Fvka | Fss | Fsy | Fvkcb | Fwetdry.

Inductive item : Type :=
| ItHeading | ItHeader
| ItLaytyp | ItLayavg | ItChani | ItLayvka | ItLaywet
| ItWetting
| ItField (f : field) (k : nat).

(** Calls that [load] makes, in the order it makes them: its own
    [f.readline()], and the calls into [read1d], [mfpar], [Util2d], the
    model and the constructed package.  These are the calls that read the
    file, change the model or hand over to the validator; a query of a
    value (the dimensions and the DIS arrays of the model, the text of a
    [Util2d]) is not logged. *)
Inductive event : Type :=
| EvReadline
| EvRead1d
| EvMfparLoad (nplpf : Z)
| EvUtil2dLoad (name : string) (k : nat)
| EvParameterFill (name : string) (k : nat)
| EvAddPopKey (unit : Z)
| EvAddPackage
| EvCheck (level : nat).

Record handle : Type := Handle {
  h_path : string;
  h_closed : bool;
  h_out : list (item * string);   (* what was written, oldest first *)
  h_in : list string              (* the lines not read yet *)
}.

Record world : Type := World {
  fs : gmap string string;        (* the text of every file *)
  handles : list handle;          (* every handle ever opened *)
  events : list event
}.

(** The monad of a state [S] with exceptions; [M] is the one of worlds. *)
Definition ST (S A : Type) : Type := S -> outcome A * S.

Definition M (A : Type) : Type := ST world A.

Definition ret {S A : Type} (a : A) : ST S A := fun w => (Ok a, w).

Definition raise {S A : Type} (e : exn) : ST S A := fun w => (Raise e, w).

Definition bind {S A B : Type} (m : ST S A) (f : A -> ST S B) : ST S B :=
  fun w =>
    match m w with
    | (Ok a, w') => f a w'
    | (Raise e, w') => (Raise e, w')
    end.

Definition lift {S A : Type} (o : outcome A) : ST S A := fun w => (o, w).

Declare Scope eff_scope.
Delimit Scope eff_scope with eff.
Notation "x <- c1 ;; c2" := (bind c1 (fun x => c2))
  (at level 100, c1 at next level, right associativity) : eff_scope.
Notation "c1 ;; c2" := (bind c1 (fun _ => c2))
  (at level 100, right associativity) : eff_scope.
Open Scope eff_scope.

(** [for k in range(n): body(k, acc)] with the loop-carried locals [acc]. *)
Fixpoint for_each {S A : Type} (ks : list nat) (body : nat -> A -> ST S A) (acc : A)
    : ST S A :=
  match ks with
  | [] => ret acc
  | k :: ks => acc' <- body k acc ;; for_each ks body acc'
  end.

Definition for_range {S A : Type} (n : nat) (body : nat -> A -> ST S A) (acc : A)
    : ST S A :=
  for_each (seq 0 n) body acc.

Definition log (e : event) : M unit :=
  fun w => (Ok tt, World (fs w) (handles w) (events w ++ [e])).

Definition set_handle (h : nat) (hd : handle) (w : world) : world :=
  World (fs w) (<[h := hd]> (handles w)) (events w).

Definition text_of (out : list (item * string)) : string :=
  fold_right (fun p acc => snd p ++ acc) "" out.

(** [open(path, 'r')] *)
Definition open_r (path : string) : M nat :=
  fun w =>
    match fs w !! path with
    | Some txt => (Ok (length (handles w)),
                   World (fs w) (handles w ++ [Handle path false [] (Py.lines txt)])
                         (events w))
    | None => (Raise IOError, w)
    end.

(** [f.write(s)]; [lbl] names the item of the file that [s] belongs to. *)
Definition f_write (h : nat) (lbl : item) (s : string) : M unit :=
  fun w =>
    match handles w !! h with
    | Some hd =>
        if h_closed hd then (Raise ValueError, w)
        else (Ok tt, set_handle h (Handle (h_path hd) false (h_out hd ++ [(lbl, s)]) (h_in hd)) w)
    | None => (Raise ValueError, w)
    end.

(** [f.close()]: the buffered text reaches the file; a handle that wrote
    nothing (a reader, say) leaves the file as it is. *)
Definition f_close (h : nat) : M unit :=
  fun w =>
    match handles w !! h with
    | Some hd =>
        (Ok tt,
         World (match h_out hd with
                | [] => fs w
                | _ => <[h_path hd := text_of (h_out hd)]> (fs w)
                end)
               (<[h := Handle (h_path hd) true (h_out hd) (h_in hd)]> (handles w))
               (events w))
    | None => (Raise ValueError, w)
    end.

(** A reader that consumes some of the remaining lines of handle [h]. *)
Definition with_lines {A : Type} (h : nat)
    (rd : list string -> outcome (A * list string)) : M A :=
  fun w =>
    match handles w !! h with
    | Some hd =>
        if h_closed hd then (Raise ValueError, w)
        else match rd (h_in hd) with
             | Ok (a, rest) =>
                 (Ok a, set_handle h (Handle (h_path hd) false (h_out hd) rest) w)
             | Raise e => (Raise e, w)
             end
    | None => (Raise ValueError, w)
    end.

(** [f.readline()]: the next line with its newline, or the empty string at
    the end of the file. *)
Definition readline_pure (ls : list string) : outcome (string * list string) :=
  match ls with
  | [] => Ok ("", [])
  | l :: rest => Ok (l, rest)
  end.

Definition f_readline (h : nat) : M string :=
  log EvReadline ;; with_lines h readline_pure.

(** Is handle [h] open in [w]? *)
Definition is_open (w : world) (h : nat) : Prop :=
  exists hd, handles w !! h = Some hd /\ h_closed hd = false.

Definition is_closed (w : world) (h : nat) : Prop :=
  exists hd, handles w !! h = Some hd /\ h_closed hd = true.

(** ** Data model *)

Definition nl : string := String "010" EmptyString.

(** Modelled from the spec: the 2-D array container [Util2d] (flopy/utils)
    is a named layer slice that is a broadcast scalar, a full grid or a
    reference to an external file. *)
Inductive u2d_value : Type :=
| UConstant (c : Q)
| UArray (a : list (list Q))
| UExternal (ref : string).

Record Util2d : Type := mkUtil2d {
  u2d_name : string;
  u2d_val : u2d_value
}.

(** What a caller may pass for a per-layer array and for a 3-D field: a bare
    number, or one entry per layer (a grid, an already built [Util2d], or a
    number as in the [[0] * nlay] lists of [load]). *)
Inductive bcast : Type :=
| BScalar (c : Q)
| BArray (l : list Q).

Inductive layer_in : Type :=
| LScalar (c : Q)
| LArray (a : list (list Q))
| LUtil2d (u : Util2d).

Inductive field_in : Type :=
| FScalar (c : Q)
| FLayers (l : list layer_in).

Inductive name_in : Type :=
| NameStr (s : string)
| NameList (l : list string).

Fixpoint omap_list {A B : Type} (f : A -> outcome B) (l : list A) : outcome (list B) :=
  match l with
  | [] => Ok []
  | a :: l => obind (f a) (fun b => obind (omap_list f l) (fun bs => Ok (b :: bs)))
  end.

(** Modelled from the spec: [Util2d(model, (nlay,), np.int, value, name)],
    a shape-checked per-layer array; a bare scalar fills all layers, an
    array must have [nlay] entries.  The entries are converted to [np.int]:
    truncated, and a number that does not fit 64 bits cannot be stored. *)
Definition to_int64 (c : Q) : outcome Z :=
  let z := Np.int c in
  if Np.fits64 z then Ok z else Raise OverflowError.

Definition Util2d_int (nlay : nat) (v : bcast) : outcome (list Z) :=
  match v with
  | BScalar c => obind (to_int64 c) (fun z => Ok (repeat z nlay))
  | BArray l => if (length l =? nlay)%nat then omap_list to_int64 l else Raise ValueError
  end.

Definition layer_name (name : name_in) (k : nat) : outcome string :=
  match name with
  | NameStr s => Ok s
  | NameList l => index l k
  end.

(** The owning model, as far as the package queries it: the grid, and the
    [steady] and [laycbd] arrays of its DIS package. *)
Record Modflow : Type := mkModflow {
  nrow : nat;
  ncol : nat;
  nlay : nat;
  nper : nat;
  steady : list bool;
  laycbd : list Z;
  verbose : bool
}.

Definition nrow_ncol_nlay_nper (m : Modflow) : nat * nat * nat * nat :=
  (nrow m, ncol m, nlay m, nper m).

(** The package record: the attributes [__init__] sets. *)
Record ModflowLpf : Type := mkModflowLpf {
  parent : Modflow;
  extension : string;
  name : list string;
  unit_number : list Z;
  fn_path : string;
  heading : string;
  url : string;
  ipakcb : Z;
  hdry : Q;
  nplpf : Z;
  laytyp : list Z;
  layavg : list Z;
  chani : list Q;
  layvka : list Z;
  laywet : list Z;
  wetfct : option Q;
  iwetit : option Z;
  ihdwet : option Z;
  options : string;
  hk : list Util2d;
  hani : list Util2d;
  vka : list Util2d;
  ss : list Util2d;
  sy : list Util2d;
  vkcb : list Util2d;
  wetdry : list Util2d
}.

(** The keyword arguments of [__init__]. *)
Record lpf_args : Type := mkArgs {
  a_laytyp : bcast;
  a_layavg : bcast;
  a_chani : bcast;
  a_layvka : bcast;
  a_laywet : bcast;
  a_ipakcb : Z;
  a_hdry : Q;
  a_iwdflg : Z;
  a_wetfct : option Q;
  a_iwetit : option Z;
  a_ihdwet : option Z;
  a_hk : field_in;
  a_hani : field_in;
  a_vka : field_in;
  a_ss : field_in;
  a_sy : field_in;
  a_vkcb : field_in;
  a_wetdry : field_in;
  a_storagecoefficient : bool;
  a_constantcv : bool;
  a_thickstrt : bool;
  a_nocvcorrection : bool;
  a_novfc : bool;
  a_extension : string;
  a_unitnumber : Z
}.

(** The defaults of the signature of [__init__]. *)
Definition default_args : lpf_args :=
  {| a_laytyp := BScalar 0; a_layavg := BScalar 0; a_chani := BScalar 1;
     a_layvka := BScalar 0; a_laywet := BScalar 0;
     a_ipakcb := 53; a_hdry := (-1000000000000000000000000000000 # 1)%Q;
     a_iwdflg := 0;
     a_wetfct := Some (1 # 10)%Q; a_iwetit := Some 1; a_ihdwet := Some 0;
     a_hk := FScalar 1; a_hani := FScalar 1; a_vka := FScalar 1;
     a_ss := FScalar (1 # 100000)%Q; a_sy := FScalar (15 # 100)%Q;
     a_vkcb := FScalar 0; a_wetdry := FScalar (-1 # 100)%Q;
     a_storagecoefficient := false; a_constantcv := false;
     a_thickstrt := false; a_nocvcorrection := false; a_novfc := false;
     a_extension := "lpf"; a_unitnumber := 15 |}.

(** The option flags that [load] collects from the header line. *)
Record opts : Type := mkOpts {
  o_storagecoefficient : bool;
  o_constantcv : bool;
  o_thickstrt : bool;
  o_nocvcorrection : bool;
  o_novfc : bool
}.

(** The per-layer lists [hk], [hani], ... that [load] fills in its loop. *)
Record layers : Type := mkLayers {
  l_hk : list layer_in;
  l_hani : list layer_in;
  l_vka : list layer_in;
  l_ss : list layer_in;
  l_sy : list layer_in;
  l_vkcb : list layer_in;
  l_wetdry : list layer_in
}.

(** ** Collaborators

    What the package calls and this file does not define. *)
Class Collaborators : Type := {
  (** The float conversions of the language. *)
  format_G : Q -> string;          (* '{:10.6G}'.format(x) *)
  format_f : Q -> string;          (* '{:10f}'.format(x) *)
  float : string -> option Q;      (* float(s) *)
  (** [np.float32(x)]: the number of that precision nearest to [x]; such a
      number is its own rounding, and 0 is one. *)
  float32 : Q -> Q;
  float32_idem : forall x, float32 (float32 x) = float32 x;
  float32_0 : float32 0 = 0%Q;
  (** The operating system: the paths that [open(path, 'w')] can open; it
      raises [IOError] for the others. *)
  writable : string -> bool;
  (** [Package]: the path of the package file, and the validator that the
      record inherits; the validator may write its summary file and may
      raise. *)
  Package_fn_path : Modflow -> string -> string;
  Package_check :
    ModflowLpf -> string -> bool -> nat ->
    gmap string string -> outcome unit * gmap string string;
  (** [Package.level1_arraylist(idx, v, name, txt)]: the text [txt] followed
      by the cells [idx] of the array [v] and their values. *)
  level1_arraylist :
    list (nat * nat * nat) -> list (list (list Q)) -> list string -> string -> string;
  (** [Util2d]: the text of a per-layer array ([.string]) and of a layer of
      a 3-D field ([get_file_entry]), and the readers of both. *)
  Util2d_string_int : list Z -> string;
  Util2d_string_float : list Q -> string;
  get_file_entry : Util2d -> string;
  ext_unit_dict_t : Type;
  Util2d_load :
    nat * nat -> string -> option ext_unit_dict_t ->
    list string -> outcome (Util2d * list string);
  read1d_int : nat -> list string -> outcome (list Z * list string);
  read1d_float : nat -> list string -> outcome (list Q * list string);
  (** [mfpar]: the parameter loader and the parameter fill. *)
  parm_dict_t : Type;
  mfpar_load :
    Z -> bool -> list string -> outcome ((list string * parm_dict_t) * list string);
  parameter_fill :
    Modflow -> nat * nat -> string -> parm_dict_t -> nat -> outcome (list (list Q))
}.

Section Lpf.

Context {C : Collaborators}.

(** Modelled from the spec: [Util2d(model, (nlay,), np.float32, value,
    name)]; the entries are converted to [np.float32]. *)
Definition Util2d_float (nlay : nat) (v : bcast) : outcome (list Q) :=
  match v with
  | BScalar c => Ok (repeat (float32 c) nlay)
  | BArray l => if (length l =? nlay)%nat then Ok (map float32 l) else Raise ValueError
  end.

Definition Util2d_of_layer (nm : string) (v : layer_in) : Util2d :=
  match v with
  | LScalar c => mkUtil2d nm (UConstant (float32 c))
  | LArray a => mkUtil2d nm (UArray (map (map float32) a))
  | LUtil2d u => u
  end.

(** Modelled from the spec: [Util3d(model, (nlay, nrow, ncol), np.float32,
    value, name, locat)], one named [Util2d] per layer, of [np.float32].  A
    bare scalar fills all layers; a sequence must have [nlay] entries, and
    an entry that already is a [Util2d] is kept as it is.  (The shape of
    each grid is the business of [Util2d] and is not checked here.) *)
Definition Util3d (nlay : nat) (v : field_in) (name : name_in) : outcome (list Util2d) :=
  match v with
  | FScalar c =>
      omap_list (fun k => obind (layer_name name k)
                            (fun nm => Ok (mkUtil2d nm (UConstant (float32 c)))))
                (seq 0 nlay)
  | FLayers l =>
      if (length l =? nlay)%nat then
        omap_list (fun k => obind (layer_name name k)
                              (fun nm => obind (index l k)
                                 (fun v => Ok (Util2d_of_layer nm v))))
                  (seq 0 nlay)
      else Raise ValueError
  end.

(** [open(path, 'w')]: the file is created or truncated, when the path can
    be opened for writing. *)
Definition open_w (path : string) : M nat :=
  fun w =>
    if writable path then
      (Ok (length (handles w)),
       World (<[path := ""]> (fs w))
             (handles w ++ [Handle path false [] []])
             (events w))
    else (Raise IOError, w).

(** [self.check(f=..., verbose=..., level=...)] *)
Definition check (self : ModflowLpf) (f : string) (verb : bool) (level : nat) : M unit :=
  log (EvCheck level) ;;
  (fun w =>
     let '(r, fs') := Package_check self f verb level (fs w) in
     (r, World fs' (handles w) (events w))).

(** *** The constructor, [__init__] (lines 153-210) *)

Definition __init__ (model : Modflow) (a : lpf_args) : M ModflowLpf :=
  (* Package.__init__(self, model, extension, 'LPF', unitnumber) *)
  let heading := "# LPF for MODFLOW, generated by Flopy." in
  let url := "lpf.htm" in
  let '(nrow, ncol, nlay, nper) := nrow_ncol_nlay_nper model in
  (* item 1 *)
  let ipakcb := if negb (a_ipakcb a =? 0) then 53 else 0 in
  let hdry := a_hdry a in
  let nplpf := 0 in
  laytyp <- lift (Util2d_int nlay (a_laytyp a)) ;;
  layavg <- lift (Util2d_int nlay (a_layavg a)) ;;
  chani <- lift (Util2d_float nlay (a_chani a)) ;;
  layvka <- lift (Util2d_int nlay (a_layvka a)) ;;
  laywet <- lift (Util2d_int nlay (a_laywet a)) ;;
  let wetfct := a_wetfct a in
  let iwetit := a_iwetit a in
  let ihdwet := a_ihdwet a in
  let options := " " in
  let options := if a_storagecoefficient a then options ++ "STORAGECOEFFICIENT " else options in
  let options := if a_constantcv a then options ++ "CONSTANTCV " else options in
  let options := if a_thickstrt a then options ++ "THICKSTRT " else options in
  let options := if a_nocvcorrection a then options ++ "NOCVCORRECTION " else options in
  let options := if a_novfc a then options ++ "NOVFC " else options in
  hk <- lift (Util3d nlay (a_hk a) (NameStr "hk")) ;;
  hani <- lift (Util3d nlay (a_hani a) (NameStr "hani")) ;;
  keys <- for_range nlay
            (fun k keys =>
               v <- lift (index layvka k) ;;
               let key := "vka" in
               let key := if negb (v =? 0) then "vani" else key in
               ret (keys ++ [key])%list)
            [] ;;
  vka <- lift (Util3d nlay (a_vka a) (NameList keys)) ;;
  let tag := "ss" in
  let tag := if a_storagecoefficient a then "storage" else tag in
  ss <- lift (Util3d nlay (a_ss a) (NameStr tag)) ;;
  sy <- lift (Util3d nlay (a_sy a) (NameStr "sy")) ;;
  vkcb <- lift (Util3d nlay (a_vkcb a) (NameStr "vkcb")) ;;
  wetdry <- lift (Util3d nlay (a_wetdry a) (NameStr "wetdry")) ;;
  (* the first five attributes are those that Package.__init__ sets *)
  let self :=
    {| parent := model; extension := a_extension a; name := ["LPF"];
       unit_number := [a_unitnumber a];
       fn_path := Package_fn_path model (a_extension a);
       heading := heading; url := url;
       ipakcb := ipakcb; hdry := hdry; nplpf := nplpf;
       laytyp := laytyp; layavg := layavg; chani := chani;
       layvka := layvka; laywet := laywet;
       wetfct := wetfct; iwetit := iwetit; ihdwet := ihdwet;
       options := options;
       hk := hk; hani := hani; vka := vka; ss := ss; sy := sy;
       vkcb := vkcb; wetdry := wetdry |} in
  (* self.parent.add_package(self) *)
  log EvAddPackage ;;
  ret self.

(** *** The encoder, [write_file] (lines 212-269) *)

(** ['{0:10d}{1:10.6G}{2:10d} {3:s}\n'.format(ipakcb, hdry, nplpf, options)] *)
Definition format_header (self : ModflowLpf) : string :=
  Py.format_d 10 (ipakcb self) ++ format_G (hdry self) ++
  Py.format_d 10 (nplpf self) ++ " " ++ options self ++ nl.

(** ['{0:10f}{1:10d}{2:10d}\n'.format(wetfct, iwetit, ihdwet)]; formatting
    [None] with a number format raises [TypeError]. *)
Definition format_wetting (self : ModflowLpf) : outcome string :=
  match wetfct self with
  | Some x =>
      match iwetit self with
      | Some i =>
          match ihdwet self with
          | Some j => Ok (format_f x ++ Py.format_d 10 i ++ Py.format_d 10 j ++ nl)
          | None => Raise TypeError
          end
      | None => Raise TypeError
      end
  | None => Raise TypeError
  end.

(** [f.write(self.<fld>[k].get_file_entry())] *)
Definition write_entry (f : nat) (fld : field) (l : list Util2d) (k : nat) : M unit :=
  u <- lift (index l k) ;;
  f_write f (ItField fld k) (get_file_entry u).

(** The body of the loop over the layers (lines 255-267). *)
Definition write_layer (self : ModflowLpf) (f : nat) (transient : bool)
    (k : nat) (_ : unit) : M unit :=
  write_entry f Fhk (hk self) k ;;
  c <- lift (index (chani self) k) ;;
  (if Np.lt c 1 then write_entry f Fhani (hani self) k else ret tt) ;;
  write_entry f Fvka (vka self) k ;;
  (if transient then
     write_entry f Fss (ss self) k ;;
     t <- lift (index (laytyp self) k) ;;
     (if negb (t =? 0) then write_entry f Fsy (sy self) k else ret tt)
   else ret tt) ;;
  cbd <- lift (index (laycbd (parent self)) k) ;;
  (if 0 <? cbd then write_entry f Fvkcb (vkcb self) k else ret tt) ;;
  w <- lift (index (laywet self) k) ;;
  t <- (if negb (w =? 0) then lift (index (laytyp self) k) else ret 0) ;;
  (if negb (w =? 0) && negb (t =? 0) then write_entry f Fwetdry (wetdry self) k
   else ret tt).

Definition write_file (self : ModflowLpf) (chk : bool) : M unit :=
  (if chk then
     check self (hd "" (name self) ++ ".chk") (verbose (parent self)) 1
   else ret tt) ;;
  let '(nrow, ncol, nlay, nper) := nrow_ncol_nlay_nper (parent self) in
  (* Open file for writing *)
  f <- open_w (fn_path self) ;;
  (* Item 0: text *)
  f_write f ItHeading (heading self ++ nl) ;;
  (* Item 1: IBCFCB, HDRY, NPLPF *)
  f_write f ItHeader (format_header self) ;;
  f_write f ItLaytyp (Util2d_string_int (laytyp self)) ;;
  f_write f ItLayavg (Util2d_string_int (layavg self)) ;;
  f_write f ItChani (Util2d_string_float (chani self)) ;;
  f_write f ItLayvka (Util2d_string_int (layvka self)) ;;
  f_write f ItLaywet (Util2d_string_int (laywet self)) ;;
  (* Item 7: WETFCT, IWETIT, IHDWET *)
  let iwetdry := Np.sum (laywet self) in
  (if 0 <? iwetdry then
     s <- lift (format_wetting self) ;;
     f_write f ItWetting s
   else ret tt) ;;
  let transient := negb (forallb id (steady (parent self))) in
  for_range nlay (write_layer self f transient) tt ;;
  f_close f.

(** *** The decoder, [load] (lines 424-630) *)

(** [while True: line = f.readline(); if line[0] != '#': break].  At the
    end of the file [readline] returns the empty string, whose [line[0]]
    raises, so the loop reads at most one line more than the file has;
    [fuel] counts the lines left and never runs out before that. *)
Fixpoint read_header_line (fuel : nat) (f : nat) : M string :=
  line <- f_readline f ;;
  match line with
  | EmptyString => raise IndexError
  | String c _ =>
      if negb (Ascii.eqb c "#") then ret line
      else match fuel with
           | O => raise IndexError
           | S fuel => read_header_line fuel f
           end
  end.

Definition lines_left (f : nat) : M nat :=
  fun w => (Ok (match handles w !! f with
                | Some hd => length (h_in hd)
                | None => O
                end), w).

(** [int(t[i])] and [float(t[i])] *)
Definition int_at (t : list string) (i : nat) : M Z :=
  s <- lift (index t i) ;;
  match Py.int s with
  | Some z => ret z
  | None => raise ValueError
  end.

Definition float_at (t : list string) (i : nat) : M Q :=
  s <- lift (index t i) ;;
  match float s with
  | Some q => ret q
  | None => raise ValueError
  end.

(** The body of [for k in range(3, len(t))] (lines 488-497). *)
Definition parse_option (o : opts) (tk : string) : opts :=
  let u := Py.upper tk in
  if Py.contains "STORAGECOEFFICIENT" u then
    mkOpts true (o_constantcv o) (o_thickstrt o) (o_nocvcorrection o) (o_novfc o)
  else if Py.contains "CONSTANTCV" u then
    mkOpts (o_storagecoefficient o) true (o_thickstrt o) (o_nocvcorrection o) (o_novfc o)
  else if Py.contains "THICKSTRT" u then
    mkOpts (o_storagecoefficient o) (o_constantcv o) true (o_nocvcorrection o) (o_novfc o)
  else if Py.contains "NOCVCORRECTION" u then
    mkOpts (o_storagecoefficient o) (o_constantcv o) (o_thickstrt o) true (o_novfc o)
  else if Py.contains "NOVFC" u then
    mkOpts (o_storagecoefficient o) (o_constantcv o) (o_thickstrt o) (o_nocvcorrection o) true
  else o.

Definition parse_options (t : list string) : opts :=
  fold_left parse_option (drop 3 t) (mkOpts false false false false false).

(** [Util2d.load(f, model, (nrow, ncol), np.float32, name, ext_unit_dict)] *)
Definition load_array (f : nat) (model : Modflow) (nm : string)
    (ext_unit_dict : option ext_unit_dict_t) (k : nat) : M layer_in :=
  log (EvUtil2dLoad nm k) ;;
  u <- with_lines f (Util2d_load (nrow model, ncol model) nm ext_unit_dict) ;;
  ret (LUtil2d u).

(** [line = f.readline()] and then
    [mfpar.parameter_fill(model, (nrow, ncol), name, parm_dict, findlayer=k)];
    [parm_dict] is bound only when [mfpar.load] was called. *)
Definition fill_array (f : nat) (model : Modflow) (nm : string)
    (parm_dict : option parm_dict_t) (k : nat) : M layer_in :=
  line <- f_readline f ;;
  pd <- match parm_dict with
        | Some pd => ret pd
        | None => raise NameError
        end ;;
  log (EvParameterFill nm k) ;;
  a <- lift (parameter_fill model (nrow model, ncol model) nm pd k) ;;
  ret (LArray a).

Definition mem (s : string) (l : list string) : bool :=
  existsb (String.eqb s) l.

(** The body of the loop over the layers (lines 548-619). *)
Definition load_layer (f : nat) (model : Modflow)
    (ext_unit_dict : option ext_unit_dict_t)
    (par_types : list string) (parm_dict : option parm_dict_t)
    (transient : bool)
    (laytyp : list Z) (chani layvka : list Q) (laywet : list Z)
    (k : nat) (acc : layers) : M layers :=
  t <- (if negb (mem "hk" par_types) then load_array f model "hk" ext_unit_dict k
        else fill_array f model "hk" parm_dict k) ;;
  let hk := <[k := t]> (l_hk acc) in
  c <- lift (index chani k) ;;
  hani <- (if Np.lt c 1 then
             t <- (if negb (mem "hani" par_types) then
                     load_array f model "hani" ext_unit_dict k
                   else fill_array f model "hani" parm_dict k) ;;
             ret (<[k := t]> (l_hani acc))
           else ret (l_hani acc)) ;;
  let key := "vka" in
  v <- lift (index layvka k) ;;
  let key := if Np.ne v 0 then "vani" else key in
  t <- (if negb (mem "vka" par_types) && negb (mem "vani" par_types) then
          load_array f model key ext_unit_dict k
        else
          let key := "vka" in
          let key := if mem "vani" par_types then "vani" else key in
          fill_array f model key parm_dict k) ;;
  let vka := <[k := t]> (l_vka acc) in
  ssy <- (if transient then
            t <- (if negb (mem "ss" par_types) then
                    load_array f model "ss" ext_unit_dict k
                  else fill_array f model "ss" parm_dict k) ;;
            let ss := <[k := t]> (l_ss acc) in
            lt <- lift (index laytyp k) ;;
            sy <- (if negb (lt =? 0) then
                     t <- (if negb (mem "sy" par_types) then
                             load_array f model "sy" ext_unit_dict k
                           else fill_array f model "sy" parm_dict k) ;;
                     ret (<[k := t]> (l_sy acc))
                   else ret (l_sy acc)) ;;
            ret (ss, sy)
          else ret (l_ss acc, l_sy acc)) ;;
  cbd <- lift (index (laycbd model) k) ;;
  vkcb <- (if 0 <? cbd then
             t <- (if negb (mem "vkcb" par_types) then
                     load_array f model "vkcb" ext_unit_dict k
                   else fill_array f model "vkcb" parm_dict k) ;;
             ret (<[k := t]> (l_vkcb acc))
           else ret (l_vkcb acc)) ;;
  lw <- lift (index laywet k) ;;
  lt <- (if negb (lw =? 0) then lift (index laytyp k) else ret 0) ;;
  wetdry <- (if negb (lw =? 0) && negb (lt =? 0) then
               t <- load_array f model "wetdry" ext_unit_dict k ;;
               ret (<[k := t]> (l_wetdry acc))
             else ret (l_wetdry acc)) ;;
  ret (mkLayers hk hani vka (fst ssy) (snd ssy) vkcb wetdry).

(** What [load] has parsed when it reaches the loop over the layers. *)
Record parsed : Type := mkParsed {
  p_ipakcb : Z;
  p_hdry : Q;
  p_nplpf : Z;
  p_opts : opts;
  p_laytyp : list Z;
  p_layavg : list Z;
  p_chani : list Q;
  p_layvka : list Q;
  p_laywet : list Z;
  p_iwetdry : Z;
  p_wetfct : option Q;
  p_iwetit : option Z;
  p_ihdwet : option Z;
  p_par_types : list string;
  p_parm_dict : option parm_dict_t
}.

(** Lines 465-469: the first line that is not a comment. *)
Definition load_header_line (f : nat) : M string :=
  n <- lines_left f ;;
  read_header_line n f.

(** Lines 470-479: Item 1, [IBCFCB, HDRY, NPLPF]. *)
Definition load_item1 (f : nat) (model : Modflow) : M (Z * Q * Z * list string) :=
  line <- load_header_line f ;;
  let t := Py.split (Py.strip line) in
  ipakcb <- int_at t 0 ;;
  hdry <- float_at t 1 ;;
  nplpf <- int_at t 2 ;;
  ipakcb <- (if negb (ipakcb =? 0) then
               log (EvAddPopKey ipakcb) ;; ret 53
             else ret ipakcb) ;;
  ret (ipakcb, hdry, nplpf, t).

(** [read1d(f, a)] stores what it reads in the array [a] that [load] has
    made for it: an array of [np.int] cannot store a number that does not
    fit 64 bits, and an array of [np.float32] stores the numbers
    rounded. *)
Definition read1d_int64 (nlay : nat) (ls : list string) : outcome (list Z * list string) :=
  obind (read1d_int nlay ls) (fun r =>
    if forallb Np.fits64 (fst r) then Ok r else Raise OverflowError).

Definition read1d_float32 (nlay : nat) (ls : list string) : outcome (list Q * list string) :=
  obind (read1d_float nlay ls) (fun r => Ok (map float32 (fst r), snd r)).

(** Lines 480-536: the options, the five per-layer arrays, Item 7 and the
    parameters. *)
Definition load_items (f : nat) (model : Modflow)
    (hdr : Z * Q * Z * list string) : M parsed :=
  let '(ipakcb, hdry, nplpf, t) := hdr in
  let o := if (3 <? length t)%nat then parse_options t
           else mkOpts false false false false false in
  let nlay := nlay model in
  laytyp <- (log EvRead1d ;; with_lines f (read1d_int64 nlay)) ;;
  layavg <- (log EvRead1d ;; with_lines f (read1d_int64 nlay)) ;;
  chani <- (log EvRead1d ;; with_lines f (read1d_float32 nlay)) ;;
  layvka <- (log EvRead1d ;; with_lines f (read1d_float32 nlay)) ;;
  laywet <- (log EvRead1d ;; with_lines f (read1d_int64 nlay)) ;;
  (* Item 7: WETFCT, IWETIT, IHDWET *)
  let iwetdry := Np.sum laywet in
  wet <- (if 0 <? iwetdry then
            line <- f_readline f ;;
            let t := Py.split (Py.strip line) in
            wetfct <- float_at t 0 ;;
            iwetit <- int_at t 1 ;;
            ihdwet <- int_at t 2 ;;
            ret (Some wetfct, Some iwetit, Some ihdwet)
          else ret (None, None, None)) ;;
  (* parameters data *)
  par <- (if 0 <? nplpf then
            log (EvMfparLoad nplpf) ;;
            r <- with_lines f (mfpar_load nplpf (verbose model)) ;;
            ret (fst r, Some (snd r))
          else ret ([], None)) ;;
  ret (mkParsed ipakcb hdry nplpf o laytyp layavg chani layvka laywet iwetdry
         (fst (fst wet)) (snd (fst wet)) (snd wet) (fst par) (snd par)).

(** Lines 539-619: the non-parameter data. *)
Definition load_layers (f : nat) (model : Modflow)
    (ext_unit_dict : option ext_unit_dict_t) (p : parsed) : M layers :=
  let transient := negb (forallb id (steady model)) in
  let nlay := nlay model in
  let zeros := repeat (LScalar 0) nlay in
  for_range nlay
    (load_layer f model ext_unit_dict (p_par_types p) (p_parm_dict p) transient
       (p_laytyp p) (p_chani p) (p_layvka p) (p_laywet p))
    (mkLayers zeros zeros zeros zeros zeros zeros zeros).

(** The keyword arguments of the call of the constructor at lines 622-627;
    [nocvcorrection], [extension] and [unitnumber] are not passed and take
    their defaults. *)
Definition load_args (p : parsed) (l : layers) : lpf_args :=
  {| a_ipakcb := p_ipakcb p;
     a_laytyp := BArray (map inject_Z (p_laytyp p));
     a_layavg := BArray (map inject_Z (p_layavg p));
     a_chani := BArray (p_chani p);
     a_layvka := BArray (p_layvka p);
     a_laywet := BArray (map inject_Z (p_laywet p));
     a_hdry := p_hdry p;
     a_iwdflg := p_iwetdry p;
     a_wetfct := p_wetfct p;
     a_iwetit := p_iwetit p;
     a_ihdwet := p_ihdwet p;
     a_hk := FLayers (l_hk l);
     a_hani := FLayers (l_hani l);
     a_vka := FLayers (l_vka l);
     a_ss := FLayers (l_ss l);
     a_sy := FLayers (l_sy l);
     a_vkcb := FLayers (l_vkcb l);
     a_wetdry := FLayers (l_wetdry l);
     a_storagecoefficient := o_storagecoefficient (p_opts p);
     a_constantcv := o_constantcv (p_opts p);
     a_thickstrt := o_thickstrt (p_opts p);
     a_novfc := o_novfc (p_opts p);
     a_nocvcorrection := a_nocvcorrection default_args;
     a_extension := a_extension default_args;
     a_unitnumber := a_unitnumber default_args |}.

(** Lines 621-630: the record is built and, on request, validated. *)
Definition load_finish (model : Modflow) (chk : bool) (p : parsed) (l : layers)
    : M ModflowLpf :=
  lpf <- __init__ model (load_args p l) ;;
  (if chk then
     check lpf (hd "" (name lpf) ++ ".chk") (verbose (parent lpf)) 0
   else ret tt) ;;
  ret lpf.

(** Lines 462-464: [f] is a file name or a file handle. *)
Definition load_open (f : string + nat) : M nat :=
  match f with
  | inl filename => open_r filename
  | inr h => ret h
  end.

Definition load (f : string + nat) (model : Modflow)
    (ext_unit_dict : option ext_unit_dict_t) (chk : bool) : M ModflowLpf :=
  f <- load_open f ;;
  hdr <- load_item1 f model ;;
  p <- load_items f model hdr ;;
  l <- load_layers f model ext_unit_dict p ;;
  load_finish model chk p l.

(** ** The output of the encoder and the calls of the decoder, as values

    [write_file] and [load] are compared below with these plain functions:
    [file_items] is the list of labelled texts that [write_file] hands to
    [f.write], in order, and [layer_events] is the list of calls that one
    round of the loop of [load] makes. *)

#[global] Instance Q_inhabited : Inhabited Q := populate 0%Q.

Definition W (A : Type) : Type := outcome (A * list (item * string)).

Definition wret {A : Type} (a : A) : W A := Ok (a, []).

Definition wbind {A B : Type} (m : W A) (f : A -> W B) : W B :=
  match m with
  | Ok (a, o1) =>
      match f a with
      | Ok (b, o2) => Ok (b, (o1 ++ o2)%list)
      | Raise e => Raise e
      end
  | Raise e => Raise e
  end.

Definition wlift {A : Type} (o : outcome A) : W A :=
  match o with
  | Ok a => Ok (a, [])
  | Raise e => Raise e
  end.

Definition wwrite (lbl : item) (s : string) : W unit := Ok (tt, [(lbl, s)]).

Fixpoint wfor_each {A : Type} (ks : list nat) (body : nat -> A -> W A) (acc : A) : W A :=
  match ks with
  | [] => wret acc
  | k :: ks => wbind (body k acc) (fun acc' => wfor_each ks body acc')
  end.

Definition entry_items (fld : field) (l : list Util2d) (k : nat) : W unit :=
  wbind (wlift (index l k)) (fun u => wwrite (ItField fld k) (get_file_entry u)).

Definition layer_items (self : ModflowLpf) (transient : bool) (k : nat) (_ : unit) : W unit :=
  wbind (entry_items Fhk (hk self) k) (fun _ =>
  wbind (wlift (index (chani self) k)) (fun c =>
  wbind (if Np.lt c 1 then entry_items Fhani (hani self) k else wret tt) (fun _ =>
  wbind (entry_items Fvka (vka self) k) (fun _ =>
  wbind (if transient then
           wbind (entry_items Fss (ss self) k) (fun _ =>
           wbind (wlift (index (laytyp self) k)) (fun t =>
           if negb (t =? 0) then entry_items Fsy (sy self) k else wret tt))
         else wret tt) (fun _ =>
  wbind (wlift (index (laycbd (parent self)) k)) (fun cbd =>
  wbind (if 0 <? cbd then entry_items Fvkcb (vkcb self) k else wret tt) (fun _ =>
  wbind (wlift (index (laywet self) k)) (fun w =>
  wbind (if negb (w =? 0) then wlift (index (laytyp self) k) else wret 0) (fun t =>
  if negb (w =? 0) && negb (t =? 0) then entry_items Fwetdry (wetdry self) k
  else wret tt))))))))).

(** Everything between [open] and [close]. *)
Definition file_items (self : ModflowLpf) : W unit :=
  wbind (wwrite ItHeading (heading self ++ nl)) (fun _ =>
  wbind (wwrite ItHeader (format_header self)) (fun _ =>
  wbind (wwrite ItLaytyp (Util2d_string_int (laytyp self))) (fun _ =>
  wbind (wwrite ItLayavg (Util2d_string_int (layavg self))) (fun _ =>
  wbind (wwrite ItChani (Util2d_string_float (chani self))) (fun _ =>
  wbind (wwrite ItLayvka (Util2d_string_int (layvka self))) (fun _ =>
  wbind (wwrite ItLaywet (Util2d_string_int (laywet self))) (fun _ =>
  wbind (if 0 <? Np.sum (laywet self) then
           wbind (wlift (format_wetting self)) (fun s => wwrite ItWetting s)
         else wret tt) (fun _ =>
  wfor_each (seq 0 (nlay (parent self)))
    (layer_items self (negb (forallb id (steady (parent self))))) tt)))))))).

(** Is the block of field [fld] written for layer [k]?  The conditions of
    lines 256-267. *)
Definition emitted (self : ModflowLpf) (k : nat) (fld : field) : bool :=
  let transient := negb (forallb id (steady (parent self))) in
  match fld with
  | Fhk => true
  | Fhani => Np.lt (chani self !!! k) 1
  | Fvka => true
  | Fss => transient
  | Fsy => transient && negb (laytyp self !!! k =? 0)
  | Fvkcb => 0 <? laycbd (parent self) !!! k
  | Fwetdry => negb (laywet self !!! k =? 0) && negb (laytyp self !!! k =? 0)
  end.

Definition all_fields : list field := [Fhk; Fhani; Fvka; Fss; Fsy; Fvkcb; Fwetdry].

(** The labels of a file: the seven leading items, the wetting line when
    [sum(laywet) > 0], and for each layer the blocks of the fields that are
    [emitted]. *)
Definition file_labels (self : ModflowLpf) : list item :=
  ([ItHeading; ItHeader; ItLaytyp; ItLayavg; ItChani; ItLayvka; ItLaywet] ++
   (if 0 <? Np.sum (laywet self) then [ItWetting] else []) ++
   flat_map (fun k => map (fun fld => ItField fld k) (List.filter (emitted self k) all_fields))
            (seq 0 (nlay (parent self))))%list.

(** The text handed to the handle that the operation opened in world [w],
    seen in the later world [w']. *)
Definition written (w w' : world) : list (item * string) :=
  match handles w' !! length (handles w) with
  | Some hd => h_out hd
  | None => []
  end.

(** The calls of one round of the loop of [load] (lines 548-619), for the
    parsed values [p]. *)
Definition one_field (par_types : list string) (nm : string) (k : nat) : list event :=
  if mem nm par_types then [EvReadline; EvParameterFill nm k]
  else [EvUtil2dLoad nm k].

Definition layer_events (model : Modflow) (p : parsed) (k : nat) : list event :=
  let pt := p_par_types p in
  let transient := negb (forallb id (steady model)) in
  (one_field pt "hk" k ++
   (if Np.lt (p_chani p !!! k) 1 then one_field pt "hani" k else []) ++
   (if negb (mem "vka" pt) && negb (mem "vani" pt) then
      [EvUtil2dLoad (if Np.ne (p_layvka p !!! k) 0 then "vani" else "vka") k]
    else [EvReadline; EvParameterFill (if mem "vani" pt then "vani" else "vka") k]) ++
   (if transient then
      one_field pt "ss" k ++
      (if negb (p_laytyp p !!! k =? 0) then one_field pt "sy" k else [])
    else []) ++
   (if 0 <? laycbd model !!! k then one_field pt "vkcb" k else []) ++
   (if negb (p_laywet p !!! k =? 0) && negb (p_laytyp p !!! k =? 0) then
      [EvUtil2dLoad "wetdry" k]
    else []))%list.

End Lpf.

(** ** The validator, [check] (lines 272-422)

    Modelled from the spec: the text of [check] in this file sits in a
    string literal after the [return] of [write_file], and the array
    property [Util3d.array] that it starts every test with is defined with
    the array containers.  The model follows that text statement by
    statement, over a store of arrays in which the 3-D fields of the record
    live, so that an assignment through [d] can be seen to reach, or not to
    reach, the stored field; and it takes [Util3d.array] to build a new
    array from the layers, as the spec has it (the overrides are scoped to
    the check).  The summary file and the echo to standard output receive
    the text that [check] returns here. *)

Module Validator.

Abbreviation array3 := (list (list (list Q))).
Abbreviation store := (list array3).

(** The record as the validator sees it: where each 3-D field lives in the
    store, the names of its layers, the per-layer flags, and what the check
    asks of the owning model. *)
Record stored : Type := mkStored {
  s_name : list string;
  s_loc : field -> nat;
  s_names : field -> list string;
  s_chani : list Q;
  s_laytyp : list Z;
  s_ibound : list (list (list Z));
  s_laycbd : list Z;
  s_steady : list bool
}.

(** The locals [errors], [t] and [t1]. *)
Record report : Type := mkReport {
  errors : bool;
  t : string;
  t1 : string
}.

Definition get (d : nat) : ST store array3 :=
  fun s =>
    match s !! d with
    | Some a => (Ok a, s)
    | None => (Raise NameError, s)
    end.

Definition set (d : nat) (a : array3) : ST store unit :=
  fun s => (Ok tt, <[d := a]> s).

Definition alloc (a : array3) : ST store nat :=
  fun s => (Ok (length s), (s ++ [a])%list).

(** Modelled from the spec: [self.<fld>.array] is a new array with the
    values of the layers of the field. *)
Definition Util3d_array (l : nat) : ST store nat :=
  a <- get l ;; alloc a.

Fixpoint ozip {A B D : Type} (f : A -> B -> outcome D) (l : list A) (m : list B)
    : outcome (list D) :=
  match l, m with
  | [], [] => Ok []
  | a :: l, b :: m =>
      obind (f a b) (fun c => obind (ozip f l m) (fun cs => Ok (c :: cs)))
  | _, _ => Raise IndexError
  end.

(** [a[mask] = v] for a boolean mask of the shape of [a]. *)
Definition mask_assign (a : array3) (mask : list (list (list bool))) (v : Q)
    : outcome array3 :=
  ozip (ozip (ozip (fun x (b : bool) => Ok (if b then v else x)))) a mask.

(** [a[k, :, :] = v] for [k < a.shape[0]]. *)
Definition layer_assign (a : array3) (k : nat) (v : Q) : array3 :=
  match a !! k with
  | Some lay => <[k := map (map (fun _ => v)) lay]> a
  | None => a
  end.

(** [a.min()]; the minimum of an empty array is a [ValueError]. *)
Definition amin (a : array3) : outcome Q :=
  match concat (concat a) with
  | [] => Raise ValueError
  | x :: xs => Ok (fold_left (fun m y => if Qle_bool m y then m else y) xs x)
  end.

Definition enumerate {A : Type} (l : list A) : list (nat * A) :=
  combine (seq 0 (length l)) l.

(** [np.column_stack(np.where(P(a)))]: the cells that satisfy [P], row-major. *)
Definition where_ (P : Q -> bool) (a : array3) : list (nat * nat * nat) :=
  flat_map (fun kl =>
    flat_map (fun ir =>
      flat_map (fun jx => if P (snd jx) then [(fst kl, fst ir, fst jx)] else [])
               (enumerate (snd ir)))
             (enumerate (snd kl)))
           (enumerate a).

Section Blocks.

Context {C : Collaborators}.

(** [array_of] is how [self.<fld>.array] is obtained: [Util3d_array] in
    [check]. *)
Variable array_of : nat -> ST store nat.

(** [d[inactive] = v] *)
Definition fill_inactive (d : nat) (inactive : list (list (list bool))) (v : Q)
    : ST store unit :=
  a <- get d ;;
  a' <- lift (mask_assign a inactive v) ;;
  set d a'.

(** [d[k, :, :] = 1] *)
Definition fill_layer (d : nat) (k : nat) : ST store unit :=
  a <- get d ;; set d (layer_assign a k 1).

Definition min_of (d : nat) : ST store Q :=
  a <- get d ;; lift (amin a).

Definition shape0 (d : nat) : ST store nat :=
  a <- get d ;; ret (length a).

(** [idx = np.column_stack(np.where(P(d)));
     t1 = self.level1_arraylist(idx, d, name, t1)] *)
Definition arraylist (d : nat) (P : Q -> bool) (names : list string) (t1 : string)
    : ST store string :=
  a <- get d ;; ret (level1_arraylist (where_ P a) a names t1).

(** Lines 311-321. *)
Definition check_hk (self : stored) (inactive : list (list (list bool))) (level : Z)
    (r : report) : ST store report :=
  d <- array_of (s_loc self Fhk) ;;
  fill_inactive d inactive 0 ;;
  m <- min_of d ;;
  if Np.lt m 0 then
    let t := t r ++ "  ERROR: Negative horizontal hydraulic conductivity specified." ++ nl in
    t1 <- (if 0 <? level then arraylist d (fun x => Np.lt x 0) (s_names self Fhk) (t1 r)
           else ret (t1 r)) ;;
    ret (mkReport true t t1)
  else
    ret (mkReport (errors r)
           (t r ++ "  Specified horizontal hydraulic conductivity is OK." ++ nl) (t1 r)).

(** Lines 322-341. *)
Definition check_hani (self : stored) (inactive : list (list (list bool))) (level : Z)
    (r : report) : ST store report :=
  d <- array_of (s_loc self Fhani) ;;
  fill_inactive d inactive 0 ;;
  n <- shape0 d ;;
  use_array <- for_range n
                 (fun k use_array =>
                    c <- lift (index (s_chani self) k) ;;
                    if Np.gt c 0 then fill_layer d k ;; ret use_array
                    else ret true)
                 false ;;
  m <- min_of d ;;
  if Np.lt m 0 then
    let t := t r ++ "  ERROR: Negative horizontal hydraulic conductivity ratio specified." ++ nl in
    t1 <- (if 0 <? level then arraylist d (fun x => Np.lt x 0) (s_names self Fhani) (t1 r)
           else ret (t1 r)) ;;
    ret (mkReport true t t1)
  else if use_array : bool then
    ret (mkReport (errors r)
           (t r ++ "  Specified horizontal hydraulic conductivity ratio is OK." ++ nl) (t1 r))
  else ret r.

(** Lines 342-352. *)
Definition check_vka (self : stored) (inactive : list (list (list bool))) (level : Z)
    (r : report) : ST store report :=
  d <- array_of (s_loc self Fvka) ;;
  fill_inactive d inactive 1 ;;
  m <- min_of d ;;
  if Np.le m 0 then
    let t := t r ++ "  ERROR: Negative or zero vertical hydraulic conductivity specified." ++ nl in
    t1 <- (if 0 <? level then arraylist d (fun x => Np.le x 0) (s_names self Fvka) (t1 r)
           else ret (t1 r)) ;;
    ret (mkReport true t t1)
  else
    ret (mkReport (errors r)
           (t r ++ "  Specified vertical hydraulic conductivity is OK." ++ nl) (t1 r)).

(** Lines 353-372.  In the error branch [.format(t)] applies to the second
    literal only, which has no placeholder: the text so far is dropped and
    the braces stay. *)
Definition check_vkcb (self : stored) (inactive : list (list (list bool))) (level : Z)
    (r : report) : ST store report :=
  d <- array_of (s_loc self Fvkcb) ;;
  fill_inactive d inactive 1 ;;
  n <- shape0 d ;;
  use_array <- for_range n
                 (fun k use_array =>
                    c <- lift (index (s_laycbd self) k) ;;
                    if c =? 0 then fill_layer d k ;; ret use_array
                    else ret true)
                 false ;;
  m <- min_of d ;;
  if Np.lt m 0 then
    let t := "{}  ERROR: Negative or zero quasi-3D confining bed vertical " ++
             "hydraulic conductivity specified." ++ nl in
    t1 <- (if 0 <? level then arraylist d (fun x => Np.le x 0) (s_names self Fvkcb) (t1 r)
           else ret (t1 r)) ;;
    ret (mkReport true t t1)
  else if use_array : bool then
    ret (mkReport (errors r)
           (t r ++ "  Specified quasi-3D confining bed vertical hydraulic conductivity is OK."
              ++ nl) (t1 r))
  else ret r.

(** Lines 376-386. *)
Definition check_ss (self : stored) (inactive : list (list (list bool))) (level : Z)
    (r : report) : ST store report :=
  d <- array_of (s_loc self Fss) ;;
  fill_inactive d inactive 1 ;;
  m <- min_of d ;;
  if Np.lt m 0 then
    let t := t r ++ "  ERROR: Negative specific storage specified." ++ nl in
    t1 <- (if 0 <? level then arraylist d (fun x => Np.lt x 0) (s_names self Fss) (t1 r)
           else ret (t1 r)) ;;
    ret (mkReport true t t1)
  else
    ret (mkReport (errors r) (t r ++ "  Specified specific storage is OK." ++ nl) (t1 r)).

(** Lines 387-405. *)
Definition check_sy (self : stored) (inactive : list (list (list bool))) (level : Z)
    (r : report) : ST store report :=
  d <- array_of (s_loc self Fsy) ;;
  fill_inactive d inactive 1 ;;
  n <- shape0 d ;;
  use_array <- for_range n
                 (fun k use_array =>
                    c <- lift (index (s_laytyp self) k) ;;
                    if c =? 0 then fill_layer d k ;; ret use_array
                    else ret true)
                 false ;;
  m <- min_of d ;;
  if Np.lt m 0 then
    let t := t r ++ "  ERROR: Negative specific yield specified." ++ nl in
    t1 <- (if 0 <? level then arraylist d (fun x => Np.lt x 0) (s_names self Fsy) (t1 r)
           else ret (t1 r)) ;;
    ret (mkReport true t t1)
  else if use_array : bool then
    ret (mkReport (errors r) (t r ++ "  Specified specific yield is OK." ++ nl) (t1 r))
  else ret r.

(** [check(self, f, verbose, level)]; the result is the text [txt] that is
    written to [f] and, when [verbose], printed. *)
Definition check_with (self : stored) (level : Z) : ST store string :=
  nm <- lift (index (s_name self) 0) ;;
  let txt := nl ++ nm ++ " PACKAGE DATA VALIDATION:" ++ nl in
  let inactive := map (map (map (fun z => z =? 0))) (s_ibound self) in
  r <- check_hk self inactive level (mkReport false "" "") ;;
  r <- check_hani self inactive level r ;;
  r <- check_vka self inactive level r ;;
  r <- check_vkcb self inactive level r ;;
  let transient := negb (forallb id (s_steady self)) in
  r <- (if transient then
          r <- check_ss self inactive level r ;;
          check_sy self inactive level r
        else ret r) ;;
  (* add header to level 0 text *)
  let txt := txt ++ t r in
  let txt := if (0 <? level) && errors r then
               txt ++ nl ++ "  DETAILED SUMMARY OF " ++ nm ++ " ERRORS:" ++ nl ++ t1 r
             else txt in
  ret txt.

End Blocks.

Definition check {C : Collaborators} : stored -> Z -> ST store string :=
  check_with Util3d_array.

(** The fields of the record are in the store. *)
Definition stored_in (self : stored) (s : store) : Prop :=
  forall fld, is_Some (s !! s_loc self fld).

End Validator.

(** ** A small instance of the collaborators

    Enough of the array containers, of the parameter loader and of the float
    conversions to run the package on concrete files: floats are printed as
    a numerator and a denominator, a per-layer array is one line, a layer of
    a 3-D field is a [CONSTANT] line or an [INTERNAL] line followed by its
    rows, and a parameter is one line with its name and its type.  The
    theorems below hold for every instance; this one runs them on concrete
    inputs. *)

Module Demo.

Definition pad (w : nat) (s : string) : string :=
  Py.spaces (w - String.length s) ++ s.

Definition str_of_float (q : Q) : string :=
  Py.str_of_int (Qnum q) ++ "/" ++ Py.str_of_int (Zpos (Qden q)).

Definition format_G (q : Q) : string := pad 10 (str_of_float q).
Definition format_f (q : Q) : string := pad 10 (str_of_float q).

Fixpoint cut (c : ascii) (cur : list ascii) (s : string) : string * option string :=
  match s with
  | EmptyString => (string_of_list_ascii (rev cur), None)
  | String x r =>
      if Ascii.eqb x c then (string_of_list_ascii (rev cur), Some r)
      else cut c (x :: cur) r
  end.

Definition float (s : string) : option Q :=
  match cut "/" [] s with
  | (n, Some d) =>
      match Py.int n, Py.int d with
      | Some n, Some (Zpos d) => Some (n # d)%Q
      | _, _ => None
      end
  | (n, None) => option_map inject_Z (Py.int n)
  end.

(** [np.float32(x)] for a finite result: the nearest number with a
    significand of 24 bits, ties going to the even one; below [2^-126] the
    numbers are spaced by [2^-149].  [round_half_even n d] is the integer
    nearest to [n / d]. *)
Definition round_half_even (n d : Z) : Z :=
  let q := n / d in
  let r := n mod d in
  if 2 * r <? d then q
  else if d <? 2 * r then q + 1
  else if Z.even q then q else q + 1.

Definition round32 (x : Q) : Q :=
  let n := Qnum x in
  let d := Zpos (Qden x) in
  if n =? 0 then 0%Q
  else
    let a := Z.abs n in
    (* the exponent [e]: [2^e <= a / d < 2^(e + 1)] *)
    let e0 := Z.log2 a - Z.log2 d in
    let e := if a * 2 ^ Z.max 0 (- e0) <? d * 2 ^ Z.max 0 e0 then e0 - 1 else e0 in
    (* the last place is worth [2^-s] *)
    let s := 23 - Z.max e (-126) in
    let v := if 0 <=? s
             then Qred (round_half_even (a * 2 ^ s) d # Z.to_pos (2 ^ s))
             else inject_Z (round_half_even a (d * 2 ^ (- s)) * 2 ^ (- s)) in
    if 0 <? n then v else Qopp v.

Definition same (a b : Q) : bool := (Qnum a =? Qnum b) && (Qden a =? Qden b)%positive.

(** The rounding, checked to be a number that rounds to itself. *)
Definition float32 (q : Q) : Q :=
  let r := round32 q in
  if same (round32 r) r then r else 0%Q.

Definition same_eq (a b : Q) : same a b = true -> a = b.
Proof.
  destruct a as [an ad], b as [bn bd]. unfold same. simpl. intros H.
  apply andb_prop in H as [H1 H2]. apply Z.eqb_eq in H1. apply Pos.eqb_eq in H2.
  by subst.
Defined.

Definition float32_fixed (x : Q) : float32 (float32 x) = float32 x.
Proof.
  unfold float32 at 2 3. cbv zeta.
  destruct (same (round32 (round32 x)) (round32 x)) eqn:E; [| reflexivity].
  unfold float32. cbv zeta. by rewrite (same_eq _ _ E), E.
Defined.

Definition float32_zero : float32 0 = 0%Q := eq_refl.

(** The empty path cannot be opened. *)
Definition writable (path : string) : bool := negb (String.eqb path "").

Definition Package_fn_path (m : Modflow) (ext : string) : string := "model." ++ ext.

Definition Package_check (self : ModflowLpf) (f : string) (verb : bool) (level : nat)
    (files : gmap string string) : outcome unit * gmap string string :=
  (Ok tt, files).

(** One line [name k i j value] for each cell. *)
Definition level1_arraylist (idx : list (nat * nat * nat)) (v : list (list (list Q)))
    (names : list string) (txt : string) : string :=
  fold_left
    (fun acc c =>
       let '(k, i, j) := c in
       acc ++ "    " ++ nth k names "" ++ " " ++
       Py.str_of_int (Z.of_nat k) ++ " " ++ Py.str_of_int (Z.of_nat i) ++ " " ++
       Py.str_of_int (Z.of_nat j) ++ " " ++
       str_of_float (nth j (nth i (nth k v []) []) 0%Q) ++ nl)
    idx txt.

Definition Util2d_string_int (l : list Z) : string :=
  fold_right (fun z acc => Py.format_d 10 z ++ acc) nl l.

Definition Util2d_string_float (l : list Q) : string :=
  fold_right (fun q acc => format_G q ++ acc) nl l.

Definition row_text (r : list Q) : string :=
  fold_right (fun q acc => " " ++ str_of_float q ++ acc) nl r.

Definition get_file_entry (u : Util2d) : string :=
  match u2d_val u with
  | UConstant c => "CONSTANT " ++ str_of_float c ++ nl
  | UArray a => "INTERNAL" ++ nl ++ fold_right (fun r acc => row_text r ++ acc) "" a
  | UExternal ref => "EXTERNAL " ++ ref ++ nl
  end.

Definition opt {A : Type} (o : option A) : outcome A :=
  match o with
  | Some a => Ok a
  | None => Raise ValueError
  end.

Definition parse_row {A : Type} (conv : string -> option A) (n : nat) (line : string)
    : outcome (list A) :=
  let t := Py.split line in
  if (length t <? n)%nat then Raise ValueError
  else omap_list (fun s => opt (conv s)) (take n t).

Fixpoint parse_rows (nrow ncol : nat) (ls : list string)
    : outcome (list (list Q) * list string) :=
  match nrow with
  | O => Ok ([], ls)
  | S nrow =>
      match ls with
      | [] => Raise ValueError
      | l :: ls =>
          obind (parse_row float ncol l) (fun r =>
          obind (parse_rows nrow ncol ls) (fun p =>
          Ok (r :: fst p, snd p)))
      end
  end.

Definition Util2d_load (shape : nat * nat) (nm : string) (ext : option unit)
    (ls : list string) : outcome (Util2d * list string) :=
  match ls with
  | [] => Raise ValueError
  | l :: ls =>
      match Py.split l with
      | ["CONSTANT"; x] => obind (opt (float x)) (fun c => Ok (mkUtil2d nm (UConstant c), ls))
      | ["INTERNAL"] =>
          obind (parse_rows (fst shape) (snd shape) ls) (fun p =>
          Ok (mkUtil2d nm (UArray (fst p)), snd p))
      | ["EXTERNAL"; ref] => Ok (mkUtil2d nm (UExternal ref), ls)
      | _ => Raise ValueError
      end
  end.

Definition read1d {A : Type} (conv : string -> option A) (n : nat) (ls : list string)
    : outcome (list A * list string) :=
  match ls with
  | [] => Raise ValueError
  | l :: ls => obind (parse_row conv n l) (fun r => Ok (r, ls))
  end.

Definition read1d_int := read1d Py.int.
Definition read1d_float := read1d float.

(** A parameter block is [nplpf] lines [name type]; the dictionary keeps
    the lines. *)
Definition mfpar_load (nplpf : Z) (verb : bool) (ls : list string)
    : outcome ((list string * list string) * list string) :=
  let n := Z.to_nat nplpf in
  if (length ls <? n)%nat then Raise ValueError
  else
    obind (omap_list (fun l => match Py.split l with
                               | [_; ty] => Ok ty
                               | _ => Raise ValueError
                               end) (take n ls))
          (fun tys => Ok ((tys, take n ls), drop n ls)).

Definition parameter_fill (m : Modflow) (shape : nat * nat) (nm : string)
    (pd : list string) (k : nat) : outcome (list (list Q)) :=
  Ok (repeat (repeat 1%Q (snd shape)) (fst shape)).

#[export] Instance collaborators : Collaborators :=
  Build_Collaborators format_G format_f float float32 float32_fixed float32_zero
    writable Package_fn_path Package_check
    level1_arraylist
    Util2d_string_int Util2d_string_float get_file_entry
    unit Util2d_load read1d_int read1d_float
    (list string) mfpar_load parameter_fill.

(** The same with a validator that rejects every record. *)
Definition rejecting_check (self : ModflowLpf) (f : string) (verb : bool) (level : nat)
    (files : gmap string string) : outcome unit * gmap string string :=
  (Raise ValueError, files).

Definition rejecting : Collaborators :=
  Build_Collaborators format_G format_f float float32 float32_fixed float32_zero
    writable Package_fn_path rejecting_check
    level1_arraylist
    Util2d_string_int Util2d_string_float get_file_entry
    unit Util2d_load read1d_int read1d_float
    (list string) mfpar_load parameter_fill.

Definition world0 : world := World ∅ [] [].

End Demo.

(** The model and the records of the concrete runs. *)

(** Two layers of one row and two columns, steady state, a confining bed
    under the second layer. *)
Definition model2 : Modflow := mkModflow 1 2 2 1 [true] [0; 1] false.

(** One layer, steady state. *)
Definition model1 : Modflow := mkModflow 1 2 1 1 [true] [0] false.


(** The text of a file from its lines. *)
Definition text_lines (ls : list string) : string :=
  fold_right (fun l acc => l ++ nl ++ acc) "" ls.

(** A world with one file and no handle. *)
Definition world_of (path txt : string) : world := World {[ path := txt ]} [] [].

(** [ModflowLpf(m, laytyp=[0, 1], laywet=[0, 1], hdry=-1.0)] *)
Definition args_two : lpf_args :=
  {| a_laytyp := BArray [0; 1]%Q; a_layavg := a_layavg default_args;
     a_chani := a_chani default_args; a_layvka := a_layvka default_args;
     a_laywet := BArray [0; 1]%Q;
     a_ipakcb := a_ipakcb default_args; a_hdry := (-1)%Q;
     a_iwdflg := a_iwdflg default_args;
     a_wetfct := a_wetfct default_args; a_iwetit := a_iwetit default_args;
     a_ihdwet := a_ihdwet default_args;
     a_hk := a_hk default_args; a_hani := a_hani default_args;
     a_vka := a_vka default_args; a_ss := a_ss default_args;
     a_sy := a_sy default_args; a_vkcb := a_vkcb default_args;
     a_wetdry := a_wetdry default_args;
     a_storagecoefficient := false; a_constantcv := false;
     a_thickstrt := false; a_nocvcorrection := false; a_novfc := false;
     a_extension := "lpf"; a_unitnumber := 15 |}.

(** The defaults with other per-layer flags, wetting values and options,
    and with [hdry=-1.0], which fits the ten columns of this instance. *)
Definition args_with (laytyp chani laywet : Q) (iwetit : option Z) (nocvcorrection : bool)
    : lpf_args :=
  {| a_laytyp := BScalar laytyp; a_layavg := a_layavg default_args;
     a_chani := BScalar chani; a_layvka := a_layvka default_args;
     a_laywet := BScalar laywet;
     a_ipakcb := a_ipakcb default_args; a_hdry := (-1)%Q;
     a_iwdflg := a_iwdflg default_args;
     a_wetfct := a_wetfct default_args; a_iwetit := iwetit;
     a_ihdwet := a_ihdwet default_args;
     a_hk := a_hk default_args; a_hani := a_hani default_args;
     a_vka := a_vka default_args; a_ss := a_ss default_args;
     a_sy := a_sy default_args; a_vkcb := a_vkcb default_args;
     a_wetdry := a_wetdry default_args;
     a_storagecoefficient := false; a_constantcv := false;
     a_thickstrt := false; a_nocvcorrection := nocvcorrection; a_novfc := false;
     a_extension := "lpf"; a_unitnumber := 15 |}.

(** [ModflowLpf(m, laytyp=1, laywet=-1)]: wetting is active in the layer. *)
Definition args_neg_wet : lpf_args := args_with 1 1 (-1) (Some 1) false.

(** [ModflowLpf(m, chani=0.5)] *)
Definition args_half : lpf_args := args_with 0 (1 # 2) 0 (Some 1) false.

(** [ModflowLpf(m, nocvcorrection=True)] *)
Definition args_nocv : lpf_args := args_with 0 1 0 (Some 1) true.

(** [ModflowLpf(m, laytyp=1, laywet=1, iwetit=None)] *)
Definition args_no_iwetit : lpf_args := args_with 1 1 1 None false.


(** A file whose header has [IBCFCB = 7] and [NPLPF = 1]: after the five
    per-layer arrays comes one parameter, of type [hk], and the [hk] block
    of the layer is a control line. *)
Definition file_par_hk : string :=
  text_lines
    [ "# one parameter";
      "         7      -1/1         1 NOVFC";
      "         0"; "         0"; "       1/1"; "         0"; "         0";
      "K1 hk";
      "        -1";
      "CONSTANT 1/1" ].

(** [NPLPF = 1] with a parameter of type [wetdry], in a convertible layer
    with wetting. *)
Definition file_par_wetdry : string :=
  text_lines
    [ "         0      -1/1         1";
      "         1"; "         0"; "       1/1"; "         0"; "         1";
      "      1/10         1         0";
      "W1 wetdry";
      "CONSTANT 1/1";
      "CONSTANT 1/1";
      "CONSTANT -1/100" ].



(** A file without parameters for [model1]: [IBCFCB = 7], and the option
    NOCVCORRECTION. *)
Definition file_plain : string :=
  text_lines
    [ "# no parameter";
      "         7      -1/1         0 NOCVCORRECTION";
      "         0"; "         0"; "       1/1"; "         0"; "         0";
      "CONSTANT 1/1";
      "CONSTANT 1/1" ].

(** A world in which handle 0 is open on the lines [ls]. *)
Definition reading (ls : list string) : world :=
  World ∅ [Handle "model.lpf" false [] (map (fun l => l ++ nl) ls)] [].

(** What [load] has parsed for one layer with the given [chani], [layvka]
    and parameter types, all else being 0 or absent. *)
Definition parsed_with (chani layvka : Q) (nplpf : Z) (par_types : list string)
    : parsed (C := Demo.collaborators) :=
  mkParsed 0 (-1)%Q nplpf (mkOpts false false false false false)
    [0] [0] [chani] [layvka] [0] 0 None None None par_types
    (if 0 <? nplpf then Some (nil (A := string) : parm_dict_t (Collaborators := Demo.collaborators))
     else None).

(** A record of one layer of one row and two columns in a store: hk has a
    negative value in the first cell, and the second cell is inactive. *)
Definition stored1 : Validator.stored :=
  Validator.mkStored ["LPF"]
    (fun fld => match fld with
                | Fhk => 0 | Fhani => 1 | Fvka => 2 | Fvkcb => 3
                | Fss => 4 | Fsy => 5 | Fwetdry => 6
                end%nat)
    (fun fld => match fld with
                | Fhk => ["hk"] | Fhani => ["hani"] | Fvka => ["vka"] | Fvkcb => ["vkcb"]
                | Fss => ["ss"] | Fsy => ["sy"] | Fwetdry => ["wetdry"]
                end)
    [1%Q] [0] [[[1; 0]]] [0] [true].

Definition store1 : Validator.store :=
  [ [[[-2; 3]]]; [[[1; 1]]]; [[[1; 1]]]; [[[0; 0]]];
    [[[1 # 100000; 1 # 100000]]]; [[[15 # 100; 15 # 100]]]; [[[-1 # 100; -1 # 100]]] ]%Q.

(** ** Notions used by the statements *)

(** Handle [h] has been handed the further texts [its]. *)
Definition put_out (h : nat) (its : list (item * string)) (w : world) : world :=
  match handles w !! h with
  | Some hd => set_handle h (Handle (h_path hd) (h_closed hd) (h_out hd ++ its) (h_in hd)) w
  | None => w
  end.

(** Handle [h] is closed and its text has reached the file. *)
Definition close_out (h : nat) (w : world) : world :=
  match f_close h w with
  | (_, w') => w'
  end.

(** [m] writes to the open handle [h] what [o] says: on success all of it,
    and when it raises some of it; nothing else changes. *)
Definition sim {A : Type} (h : nat) (m : M A) (o : W A) : Prop :=
  forall w, is_open w h ->
    match o with
    | Ok (a, its) => m w = (Ok a, put_out h its w)
    | Raise e => exists its, m w = (Raise e, put_out h its w)
    end.

(** The same for an [m] that ends by closing [h]. *)
Definition sim_close {A : Type} (h : nat) (m : M A) (o : W A) : Prop :=
  forall w, is_open w h ->
    match o with
    | Ok (a, its) => m w = (Ok a, close_out h (put_out h its w))
    | Raise e => exists its, m w = (Raise e, put_out h its w)
    end.

(** Lines 230-268 of [write_file]: what follows [open]. *)
Definition write_body {C : Collaborators} (self : ModflowLpf) (f : nat) : M unit :=
  f_write f ItHeading (heading self ++ nl) ;;
  f_write f ItHeader (format_header self) ;;
  f_write f ItLaytyp (Util2d_string_int (laytyp self)) ;;
  f_write f ItLayavg (Util2d_string_int (layavg self)) ;;
  f_write f ItChani (Util2d_string_float (chani self)) ;;
  f_write f ItLayvka (Util2d_string_int (layvka self)) ;;
  f_write f ItLaywet (Util2d_string_int (laywet self)) ;;
  (if 0 <? Np.sum (laywet self) then
     s <- lift (format_wetting self) ;;
     f_write f ItWetting s
   else ret tt) ;;
  for_range (nlay (parent self))
    (write_layer self f (negb (forallb id (steady (parent self))))) tt ;;
  f_close f.

(** The world just after [open(path, 'w')]. *)
Definition opened (path : string) (w : world) : world :=
  World (<[path := ""]> (fs w)) (handles w ++ [Handle path false [] []]) (events w).

(** [m] logs the calls [E], in this order and nothing else, when it returns;
    when it raises it has logged some first part of [E]. *)
Definition emits {A : Type} (m : M A) (E : list event) : Prop :=
  forall w r w', m w = (r, w') ->
    exists evs, events w' = (events w ++ evs)%list /\ evs `prefix_of` E /\
                (forall a, r = Ok a -> evs = E).

(** Whatever [m] logs satisfies [P], whether it returns or raises. *)
Definition keeps {A : Type} (P : event -> Prop) (m : M A) : Prop :=
  forall w r w', m w = (r, w') ->
    exists evs, events w' = (events w ++ evs)%list /\ Forall P evs.

(** [evs] contains the calls [mid] one after the other. *)
Definition consecutive (mid evs : list event) : Prop :=
  exists pre post, evs = (pre ++ mid ++ post)%list.

(** The key of a layer in the loop of lines 190-195. *)
Definition vka_key (v : Z) : string := if negb (v =? 0) then "vani" else "vka".

(** The option string of lines 179-185. *)
Definition options_of (a : lpf_args) : string :=
  let options := " " in
  let options := if a_storagecoefficient a then options ++ "STORAGECOEFFICIENT " else options in
  let options := if a_constantcv a then options ++ "CONSTANTCV " else options in
  let options := if a_thickstrt a then options ++ "THICKSTRT " else options in
  let options := if a_nocvcorrection a then options ++ "NOCVCORRECTION " else options in
  if a_novfc a then options ++ "NOVFC " else options.

(** A constructed record has [nlay] entries in each of its arrays. *)
Definition well_shaped (r : ModflowLpf) : Prop :=
  let n := nlay (parent r) in
  length (laytyp r) = n /\ length (chani r) = n /\ length (laywet r) = n /\
  length (hk r) = n /\ length (hani r) = n /\ length (vka r) = n /\
  length (ss r) = n /\ length (sy r) = n /\ length (vkcb r) = n /\
  length (wetdry r) = n.

(** The wetting values can be formatted whenever the wetting line is due. *)
Definition wetting_ready (self : ModflowLpf) : Prop :=
  0 < Np.sum (laywet self) ->
  is_Some (wetfct self) /\ is_Some (iwetit self) /\ is_Some (ihdwet self).


Definition not_mfpar_load (e : event) : Prop := forall n, e <> EvMfparLoad n.

(** The labels of the texts that the operation run from [w] to [w'] has
    written to the handle it opened. *)
Definition labels_written (w w' : world) : list item := map fst (written w w').

(** [self.check(f='LPF.chk', verbose=..., level=1)] as [write_file] calls it. *)
Definition write_check {C : Collaborators} (self : ModflowLpf) : M unit :=
  check self (hd "" (name self) ++ ".chk") (verbose (parent self)) 1.

(** *** The decoder, field by field

    For the values [p] that [load] has parsed: is the block of [fld] read
    for layer [k] ([read_for], the conditions of lines 558-614); is it
    filled from a parameter ([by_parameter], lines 551-607: there is no such
    branch for [wetdry]); under which name the array reader is called
    ([raw_name]) and under which the parameter fill ([fill_name]). *)

Definition read_for {C : Collaborators} (model : Modflow) (p : parsed) (k : nat)
    (fld : field) : bool :=
  let transient := negb (forallb id (steady model)) in
  match fld with
  | Fhk => true
  | Fhani => Np.lt (p_chani p !!! k) 1
  | Fvka => true
  | Fss => transient
  | Fsy => transient && negb (p_laytyp p !!! k =? 0)
  | Fvkcb => 0 <? laycbd model !!! k
  | Fwetdry => negb (p_laywet p !!! k =? 0) && negb (p_laytyp p !!! k =? 0)
  end.

Definition names_of (fld : field) : list string :=
  match fld with
  | Fhk => ["hk"]
  | Fhani => ["hani"]
  | Fvka => ["vka"; "vani"]
  | Fss => ["ss"]
  | Fsy => ["sy"]
  | Fvkcb => ["vkcb"]
  | Fwetdry => ["wetdry"]
  end.

Definition by_parameter (par_types : list string) (fld : field) : bool :=
  match fld with
  | Fwetdry => false
  | _ => existsb (fun nm => mem nm par_types) (names_of fld)
  end.

Definition raw_name {C : Collaborators} (p : parsed) (k : nat) (fld : field) : string :=
  match fld with
  | Fhk => "hk"
  | Fhani => "hani"
  | Fvka => if Np.ne (p_layvka p !!! k) 0 then "vani" else "vka"
  | Fss => "ss"
  | Fsy => "sy"
  | Fvkcb => "vkcb"
  | Fwetdry => "wetdry"
  end.

Definition fill_name (par_types : list string) (fld : field) : string :=
  match fld with
  | Fhk => "hk"
  | Fhani => "hani"
  | Fvka => if mem "vani" par_types then "vani" else "vka"
  | Fss => "ss"
  | Fsy => "sy"
  | Fvkcb => "vkcb"
  | Fwetdry => "wetdry"
  end.

Definition field_events {C : Collaborators} (p : parsed) (k : nat) (fld : field)
    : list event :=
  if by_parameter (p_par_types p) fld then
    [EvReadline; EvParameterFill (fill_name (p_par_types p) fld) k]
  else [EvUtil2dLoad (raw_name p k fld) k].

(** The calls of all the rounds of the loop of [load]. *)
Definition all_events {C : Collaborators} (model : Modflow) (p : parsed) : list event :=
  flat_map (layer_events model p) (seq 0 (nlay model)).

(** *** The validator and the store *)

(** The stores [s] and [s'] hold the same arrays for the fields of [self]. *)
Definition agree (self : Validator.stored) (s s' : Validator.store) : Prop :=
  forall fld, exists c,
    s !! Validator.s_loc self fld = Some c /\ s' !! Validator.s_loc self fld = Some c.

(** [m] only adds arrays to the store, and its result is the same from any
    two stores that hold the same arrays for the fields of [self]. *)
Definition stable (self : Validator.stored) {A : Type} (m : ST Validator.store A) : Prop :=
  forall s s', agree self s s' ->
    exists r e e', m s = (r, (s ++ e)%list) /\ m s' = (r, (s' ++ e')%list).

(** [body d] reads and writes the array [d] only, the last one allocated,
    and its result depends on the contents of [d] only. *)
Definition local {A : Type} (body : nat -> ST Validator.store A) : Prop :=
  forall (s s' : Validator.store) c, exists r c',
    body (length s) (s ++ [c])%list = (r, (s ++ [c'])%list) /\
    body (length s') (s' ++ [c])%list = (r, (s' ++ [c'])%list).

(** *** Reading back what was written *)

(** The layers of a 3-D field of the record, and of the lists of [load]. *)
Definition field_of (fld : field) (r : ModflowLpf) : list Util2d :=
  match fld with
  | Fhk => hk r
  | Fhani => hani r
  | Fvka => vka r
  | Fss => ss r
  | Fsy => sy r
  | Fvkcb => vkcb r
  | Fwetdry => wetdry r
  end.



(** A word is a non-empty text without blanks, as [split] returns them. *)
Fixpoint no_blank (s : string) : bool :=
  match s with
  | EmptyString => true
  | String c r => negb (Py.is_space c) && no_blank r
  end.

Definition word (s : string) : bool :=
  match s with
  | EmptyString => false
  | _ => no_blank s
  end.

Fixpoint no_newline (s : string) : bool :=
  match s with
  | EmptyString => true
  | String c r => negb (Ascii.eqb c "010") && no_newline r
  end.

(** [s] is the word [tok] after at least [least] blanks: a number that
    leaves room in its columns. *)
Definition padded (least : nat) (s tok : string) : Prop :=
  exists n, (least <= n)%nat /\ s = Py.spaces n ++ tok /\ word tok = true.


(** Handle [h] is open for reading in [w], with the lines [ls] ahead. *)
Definition at_lines (w : world) (h : nat) (ls : list string) : Prop :=
  exists hd, handles w !! h = Some hd /\ h_closed hd = false /\ h_in hd = ls.







#[global] Instance layer_in_inhabited : Inhabited layer_in := populate (LScalar 0).






(** ** Notions used by the further properties *)

#[global] Instance Util2d_inhabited : Inhabited Util2d :=
  populate (mkUtil2d "" (UConstant 0)).

(** *** The encoder *)

(** The blocks of layer [k] in the file, in the order of lines 256-267. *)
Definition block_texts {C : Collaborators} (self : ModflowLpf) (k : nat)
    : list (item * string) :=
  map (fun fld => (ItField fld k, get_file_entry (field_of fld self !!! k)))
      (List.filter (emitted self k) all_fields).

(** The block of field [fld] for layer [k]: the file entry of the layer. *)
Definition block_of {C : Collaborators} (self : ModflowLpf) (fld : field) (k : nat)
    : item * string :=
  (ItField fld k, get_file_entry (field_of fld self !!! k)).

(** The wetting-control line for the values [x], [i] and [j]: [x] as
    ['{:10f}'] and the two integers in ten columns each. *)
Definition wetting_line {C : Collaborators} (x : Q) (i j : Z) : string :=
  format_f x ++ Py.format_d 10 i ++ Py.format_d 10 j ++ nl.

(** The wetting-control line, when it is due and its values are numbers. *)
Definition wetting_texts {C : Collaborators} (self : ModflowLpf) : list (item * string) :=
  if 0 <? Np.sum (laywet self) then
    match wetfct self, iwetit self, ihdwet self with
    | Some x, Some i, Some j => [(ItWetting, wetting_line x i j)]
    | _, _, _ => []
    end
  else [].

(** The seven items that every file starts with: the heading, the header
    line of [ipakcb], [hdry], [nplpf] and the options, and the five
    per-layer arrays. *)
Definition leading_texts {C : Collaborators} (self : ModflowLpf) : list (item * string) :=
  [ (ItHeading, heading self ++ nl);
    (ItHeader,
     Py.format_d 10 (ipakcb self) ++ format_G (hdry self) ++
     Py.format_d 10 (nplpf self) ++ " " ++ options self ++ nl);
    (ItLaytyp, Util2d_string_int (laytyp self));
    (ItLayavg, Util2d_string_int (layavg self));
    (ItChani, Util2d_string_float (chani self));
    (ItLayvka, Util2d_string_int (layvka self));
    (ItLaywet, Util2d_string_int (laywet self)) ].

(** The whole file, item by item. *)
Definition file_texts {C : Collaborators} (self : ModflowLpf) : list (item * string) :=
  (leading_texts self ++ wetting_texts self ++
   flat_map (block_texts self) (seq 0 (nlay (parent self))))%list.

(** *** The decoder *)

(** The names of the options, in the order of the tests of lines 488-497,
    and the option that a field of the header line sets: the first of them
    that the field contains once in upper case. *)
Definition option_names : list string :=
  ["STORAGECOEFFICIENT"; "CONSTANTCV"; "THICKSTRT"; "NOCVCORRECTION"; "NOVFC"].

Definition option_of (tk : string) : option string :=
  List.find (fun nm => Py.contains nm (Py.upper tk)) option_names.

(** Does one of the fields [tks] set the option [nm]? *)
Definition sets (nm : string) (tks : list string) : bool :=
  existsb (fun tk => match option_of tk with
                     | Some n => String.eqb n nm
                     | None => false
                     end) tks.

(** A comment line of the file starts with [#]. *)
Definition is_comment (l : string) : bool :=
  match l with
  | String c _ => Ascii.eqb c "#"
  | EmptyString => false
  end.

(** From [w] to [w'] no handle has been opened or closed, and no handle
    other than [h] has been read. *)
Definition undisturbed (h : nat) (w w' : world) : Prop :=
  length (handles w') = length (handles w) /\
  forall i hd, handles w !! i = Some hd ->
    exists hd', handles w' !! i = Some hd' /\
      h_path hd' = h_path hd /\ h_closed hd' = h_closed hd /\ h_out hd' = h_out hd /\
      (i <> h -> h_in hd' = h_in hd).

(** The same, and when [files] is on no file has changed either. *)
Definition quiet (files : bool) (h : nat) (w w' : world) : Prop :=
  undisturbed h w w' /\ (files = true -> fs w' = fs w).

(** Every run of [m], returning or raising, is related by [R]. *)
Definition preserves {A : Type} (R : world -> world -> Prop) (m : M A) : Prop :=
  forall w r w', m w = (r, w') -> R w w'.


(** The call of the array reader that reads the block of an item. *)
Definition block_call {C : Collaborators} (p : parsed) (it : item) : option event :=
  match it with
  | ItField fld k => Some (EvUtil2dLoad (raw_name p k fld) k)
  | _ => None
  end.








(** The run of [load] from [w] to [w'], phase by phase: the handle [h] and
    the world [w0] in which [load] starts to read it, the header [hdr], the
    values [p] parsed before the loop and the lists [l] that the loop
    leaves. *)
Definition load_run {C : Collaborators} (f : string + nat) (model : Modflow)
    (ed : option ext_unit_dict_t) (chk : bool) (w : world) (r : ModflowLpf) (w' : world)
    (h : nat) (w0 : world) (hdr : Z * Q * Z * list string) (p : parsed) (l : layers)
    : Prop :=
  exists w1 w2 w3,
    load_open f w = (Ok h, w0) /\
    load_item1 h model w0 = (Ok hdr, w1) /\
    load_items h model hdr w1 = (Ok p, w2) /\
    load_layers h model ed p w2 = (Ok l, w3) /\
    load_finish model chk p l w3 = (Ok r, w').

(** *** Inputs of the concrete runs *)

(** The lines of [file_plain], for a handle. *)
Definition lines_plain : list string :=
  [ "# no parameter";
    "         7      -1/1         0 NOCVCORRECTION";
    "         0"; "         0"; "       1/1"; "         0"; "         0";
    "CONSTANT 1/1";
    "CONSTANT 1/1" ].

(** A file of one convertible layer with wetting: the wetting-control line
    follows the five arrays, and the wetdry block closes the layer. *)
Definition lines_wet : list string :=
  [ "         0      -1/1         0";
    "         1"; "         0"; "       1/1"; "         0"; "         1";
    "      1/10         1         0";
    "CONSTANT 1/1";
    "CONSTANT 1/1";
    "CONSTANT -1/100" ].

(** * Properties *)

(** ** The monad *)

Lemma bind_Ok_inv {A B : Type} (m : M A) (f : A -> M B) (w w' : world) (b : B) :
  bind m f w = (Ok b, w') ->
  exists a w1, m w = (Ok a, w1) /\ f a w1 = (Ok b, w').
Proof.
  unfold bind. destruct (m w) as [[a | e] w1]; intros H.
  - exists a, w1. auto.
  - discriminate.
Qed.

Lemma bind_Ok {A B : Type} (m : M A) (f : A -> M B) (w w1 : world) (a : A) :
  m w = (Ok a, w1) -> bind m f w = f a w1.
Proof. unfold bind. intros ->. reflexivity. Qed.

Lemma bind_Raise {A B : Type} (m : M A) (f : A -> M B) (w w1 : world) (e : exn) :
  m w = (Raise e, w1) -> bind m f w = (Raise e, w1).
Proof. unfold bind. intros ->. reflexivity. Qed.

Lemma index_Ok {A : Type} (l : list A) (k : nat) (a : A) :
  index l k = Ok a <-> l !! k = Some a.
Proof.
  unfold index. destruct (l !! k); split; intros H; try discriminate; congruence.
Qed.

Lemma index_total `{Inhabited A} (l : list A) (k : nat) (a : A) :
  index l k = Ok a -> l !!! k = a.
Proof. intros Hi. apply index_Ok in Hi. by apply list_lookup_total_correct. Qed.

(** ** Handles *)

Lemma put_out_open h its w : is_open w h -> is_open (put_out h its w) h.
Proof.
  intros (hd & Hl & Hc). unfold put_out, is_open. rewrite Hl. simpl.
  eexists. split.
  - apply list_lookup_insert_eq. by eapply lookup_lt_Some.
  - exact Hc.
Qed.

Lemma put_out_nil h w : put_out h [] w = w.
Proof.
  unfold put_out. destruct (handles w !! h) as [hd |] eqn:Hl; [| reflexivity].
  unfold set_handle. rewrite app_nil_r. destruct hd; simpl.
  rewrite list_insert_id by exact Hl. by destruct w.
Qed.

Lemma put_out_app h a b w :
  put_out h b (put_out h a w) = put_out h (a ++ b) w.
Proof.
  unfold put_out. destruct (handles w !! h) as [hd |] eqn:Hl; simpl.
  - rewrite list_lookup_insert_eq by (by eapply lookup_lt_Some). simpl.
    unfold set_handle. simpl. rewrite list_insert_insert_eq. by rewrite app_assoc.
  - by rewrite Hl.
Qed.

Lemma f_write_put h lbl s w :
  is_open w h -> f_write h lbl s w = (Ok tt, put_out h [(lbl, s)] w).
Proof.
  intros (hd & Hl & Hc). unfold f_write, put_out. rewrite Hl, Hc. reflexivity.
Qed.

(** ** The encoder writes [file_items] *)

Lemma sim_ret {A : Type} h (a : A) : sim h (ret a) (wret a).
Proof. intros w _. simpl. by rewrite put_out_nil. Qed.

Lemma sim_lift {A : Type} h (o : outcome A) : sim h (lift o) (wlift o).
Proof.
  intros w _. destruct o as [a | e]; simpl.
  - by rewrite put_out_nil.
  - exists []. by rewrite put_out_nil.
Qed.

Lemma sim_write h lbl s : sim h (f_write h lbl s) (wwrite lbl s).
Proof. intros w Hw. simpl. by apply f_write_put. Qed.

Lemma sim_bind {A B : Type} h (m : M A) (f : A -> M B) (o : W A) (g : A -> W B) :
  sim h m o -> (forall a, sim h (f a) (g a)) -> sim h (bind m f) (wbind o g).
Proof.
  intros Hm Hf w Hw. specialize (Hm w Hw). destruct o as [[a o1] | e]; simpl.
  - rewrite (bind_Ok _ _ _ _ _ Hm).
    specialize (Hf a _ (put_out_open h o1 w Hw)).
    destruct (g a) as [[b o2] | e].
    + by rewrite Hf, put_out_app.
    + destruct Hf as [its Hf]. exists (o1 ++ its)%list. by rewrite Hf, put_out_app.
  - destruct Hm as [its Hm]. exists its. by apply bind_Raise.
Qed.

Lemma sim_if {A : Type} h (b : bool) (m1 m2 : M A) (o1 o2 : W A) :
  sim h m1 o1 -> sim h m2 o2 -> sim h (if b then m1 else m2) (if b then o1 else o2).
Proof. by destruct b. Qed.

Lemma sim_for_each {A : Type} h (body : nat -> A -> M A) (g : nat -> A -> W A) ks acc :
  (forall k a, sim h (body k a) (g k a)) ->
  sim h (for_each ks body acc) (wfor_each ks g acc).
Proof.
  intros Hb. revert acc. induction ks as [| k ks IH]; intros acc; simpl.
  - apply sim_ret.
  - apply sim_bind; [apply Hb | apply IH].
Qed.

Lemma sim_close_bind {A B : Type} h (m : M A) (f : A -> M B) (o : W A) (g : A -> W B) :
  sim h m o -> (forall a, sim_close h (f a) (g a)) -> sim_close h (bind m f) (wbind o g).
Proof.
  intros Hm Hf w Hw. specialize (Hm w Hw). destruct o as [[a o1] | e]; simpl.
  - rewrite (bind_Ok _ _ _ _ _ Hm).
    specialize (Hf a _ (put_out_open h o1 w Hw)).
    destruct (g a) as [[b o2] | e].
    + by rewrite Hf, put_out_app.
    + destruct Hf as [its Hf]. exists (o1 ++ its)%list. by rewrite Hf, put_out_app.
  - destruct Hm as [its Hm]. exists its. by apply bind_Raise.
Qed.

Lemma sim_close_close h : sim_close h (f_close h) (wret tt).
Proof.
  intros w (hd & Hl & Hc). simpl. rewrite put_out_nil.
  unfold close_out, f_close. by rewrite Hl.
Qed.

Section Encoder.

Context {C : Collaborators}.

Lemma sim_entry h fld l k : sim h (write_entry h fld l k) (entry_items fld l k).
Proof.
  unfold write_entry, entry_items. apply sim_bind; [apply sim_lift |].
  intros u. apply sim_write.
Qed.

Lemma sim_layer self h tr k u : sim h (write_layer self h tr k u) (layer_items self tr k u).
Proof.
  unfold write_layer, layer_items.
  repeat first
    [ apply sim_entry | apply sim_lift | apply sim_ret
    | apply sim_if
    | apply sim_bind; [| intros ? ] ].
Qed.

Lemma wbind_wret_r {A : Type} (o : W A) : wbind o wret = o.
Proof. destruct o as [[a its] | e]; simpl; [by rewrite app_nil_r | done]. Qed.

Lemma sim_body self h : sim_close h (write_body self h) (file_items self).
Proof.
  unfold write_body, file_items.
  do 7 (apply sim_close_bind; [apply sim_write | intros _]).
  apply sim_close_bind.
  { apply sim_if; [| apply sim_ret].
    apply sim_bind; [apply sim_lift | intros s; apply sim_write]. }
  intros _.
  rewrite <- (wbind_wret_r (wfor_each _ _ _)).
  apply sim_close_bind.
  - apply sim_for_each. intros k []. apply sim_layer.
  - intros []. apply sim_close_close.
Qed.

Lemma write_file_eq self chk :
  write_file self chk =
  ((if chk then check self (hd "" (name self) ++ ".chk") (verbose (parent self)) 1
    else ret tt) ;;
   f <- open_w (fn_path self) ;;
   write_body self f).
Proof. reflexivity. Qed.

Lemma check_world self f v l w r w1 :
  check self f v l w = (r, w1) ->
  handles w1 = handles w /\ events w1 = (events w ++ [EvCheck l])%list.
Proof.
  unfold check, bind, log. simpl.
  destruct (Package_check self f v l (fs w)) as [r' fs']. intros [= <- <-]. auto.
Qed.

Lemma opened_is_open path w : is_open (opened path w) (length (handles w)).
Proof.
  exists (Handle path false [] []). split; [| reflexivity].
  unfold opened. simpl. by apply list_lookup_middle.
Qed.

Lemma open_w_opened path w :
  writable path = true -> open_w path w = (Ok (length (handles w)), opened path w).
Proof. unfold open_w. by intros ->. Qed.

Lemma open_w_refused path w : writable path = false -> open_w path w = (Raise IOError, w).
Proof. unfold open_w. by intros ->. Qed.

Lemma handles_put_opened path its w :
  handles (put_out (length (handles w)) its (opened path w)) =
  (handles w ++ [Handle path false its []])%list.
Proof.
  unfold put_out, opened. simpl.
  rewrite list_lookup_middle by reflexivity. simpl.
  replace (length (handles w)) with (length (handles w) + 0)%nat at 1 by lia.
  by rewrite insert_app_r.
Qed.

Lemma handles_close_opened path its w :
  handles (close_out (length (handles w)) (put_out (length (handles w)) its (opened path w))) =
  (handles w ++ [Handle path true its []])%list.
Proof.
  unfold close_out, f_close. rewrite handles_put_opened.
  rewrite list_lookup_middle by reflexivity. simpl.
  replace (length (handles w)) with (length (handles w) + 0)%nat at 1 by lia.
  by rewrite insert_app_r.
Qed.

Lemma events_put_out h its w : events (put_out h its w) = events w.
Proof. unfold put_out. by destruct (handles w !! h). Qed.

Lemma events_close_out h w : events (close_out h w) = events w.
Proof. unfold close_out, f_close. by destruct (handles w !! h). Qed.

(** The four ways [write_file] can end: the validation raises and nothing
    is opened; the path cannot be opened; everything is written and the
    handle is closed; or a lookup or a format raises after the [open] and
    the handle stays open. *)
Lemma write_file_cases self chk w r w' :
  write_file self chk w = (r, w') ->
  (exists e, chk = true /\ r = Raise e /\
     check self (hd "" (name self) ++ ".chk") (verbose (parent self)) 1 w = (Raise e, w') /\
     handles w' = handles w) \/
  (writable (fn_path self) = false /\ r = Raise IOError /\ handles w' = handles w) \/
  (exists its, file_items self = Ok (tt, its) /\ r = Ok tt /\
     handles w' = (handles w ++ [Handle (fn_path self) true its []])%list) \/
  (exists e its, file_items self = Raise e /\ r = Raise e /\
     handles w' = (handles w ++ [Handle (fn_path self) false its []])%list).
Proof.
  rewrite write_file_eq.
  match goal with
  | |- bind ?m ?f w = _ -> _ =>
      destruct (m w) as [[[] | e] w1] eqn:Hchk;
      [rewrite (bind_Ok _ _ _ _ _ Hchk) | rewrite (bind_Raise _ _ _ _ _ Hchk)]
  end.
  - assert (Hh : handles w1 = handles w).
    { destruct chk; [by apply check_world in Hchk as [? _] |].
      unfold ret in Hchk. congruence. }
    destruct (writable (fn_path self)) eqn:Hwr.
    2: { rewrite (bind_Raise _ _ _ _ _ (open_w_refused (fn_path self) w1 Hwr)).
         intros [= <- <-]. right; left. by rewrite Hh. }
    rewrite (bind_Ok _ _ _ _ _ (open_w_opened (fn_path self) w1 Hwr)).
    pose proof (sim_body self (length (handles w1)) _ (opened_is_open (fn_path self) w1)) as Hs.
    destruct (file_items self) as [[[] its] | e].
    + rewrite Hs. intros [= <- <-]. right; right; left. exists its.
      by rewrite handles_close_opened, Hh.
    + destruct Hs as [its Hs]. rewrite Hs. intros [= <- <-]. right; right; right.
      exists e, its. by rewrite handles_put_opened, Hh.
  - intros [= <- <-]. left. exists e.
    destruct chk; [| discriminate]. by apply check_world in Hchk as Hw; destruct Hw.
Qed.

Lemma write_file_written self chk w w' :
  write_file self chk w = (Ok tt, w') ->
  file_items self = Ok (tt, written w w').
Proof.
  intros H. apply write_file_cases in H
    as [(e & _ & [=] & _) | [(_ & [=] & _) | [(its & Hf & _ & Hh) | (e & its & _ & [=] & _)]]].
  unfold written. rewrite Hh, list_lookup_middle by reflexivity. exact Hf.
Qed.

(** *** The labels of the file *)

Lemma wbind_inv {A B : Type} (o : W A) (g : A -> W B) b its :
  wbind o g = Ok (b, its) ->
  exists a o1 o2, o = Ok (a, o1) /\ g a = Ok (b, o2) /\ its = (o1 ++ o2)%list.
Proof.
  destruct o as [[a o1] | e]; simpl; [| discriminate].
  destruct (g a) as [[b' o2] | e] eqn:Hg; [| discriminate].
  intros [= <- <-]. by exists a, o1, o2.
Qed.

Lemma wlift_inv {A : Type} (o : outcome A) a its :
  wlift o = Ok (a, its) -> o = Ok a /\ its = [].
Proof. destruct o; simpl; [| discriminate]. by intros [= <- <-]. Qed.

Lemma entry_items_inv fld l k u its :
  entry_items fld l k = Ok (u, its) ->
  exists x, l !! k = Some x /\ its = [(ItField fld k, get_file_entry x)].
Proof.
  unfold entry_items. intros H.
  apply wbind_inv in H as (x & o1 & o2 & H1 & H2 & ->).
  apply wlift_inv in H1 as [H1 ->]. apply index_Ok in H1.
  unfold wwrite in H2. injection H2 as <-. by exists x.
Qed.

Lemma cond_entry_labels (b : bool) fld l k u its :
  (if b then entry_items fld l k else wret tt) = Ok (u, its) ->
  map fst its = if b then [ItField fld k] else [].
Proof.
  destruct b.
  - intros H. apply entry_items_inv in H as (x & _ & ->). reflexivity.
  - intros H. inversion H. reflexivity.
Qed.

Lemma layer_labels self k u u' its :
  layer_items self (negb (forallb id (steady (parent self)))) k u = Ok (u', its) ->
  map fst its = map (fun fld => ItField fld k) (List.filter (emitted self k) all_fields).
Proof.
  unfold layer_items. set (tr := negb _). intros H.
  apply wbind_inv in H as (? & i1 & ? & H1 & H & ->).
  apply (cond_entry_labels true) in H1.
  apply wbind_inv in H as (c & ? & ? & Hc & H & ->). apply wlift_inv in Hc as [Hc ->].
  apply wbind_inv in H as (? & i2 & ? & H2 & H & ->). apply cond_entry_labels in H2.
  apply wbind_inv in H as (? & i3 & ? & H3 & H & ->).
  apply (cond_entry_labels true) in H3.
  apply wbind_inv in H as (? & i4 & ? & H4 & H & ->).
  apply wbind_inv in H as (cbd & ? & ? & Hcbd & H & ->). apply wlift_inv in Hcbd as [Hcbd ->].
  apply wbind_inv in H as (? & i5 & ? & H5 & H & ->). apply cond_entry_labels in H5.
  apply wbind_inv in H as (lw & ? & ? & Hlw & H & ->). apply wlift_inv in Hlw as [Hlw ->].
  apply wbind_inv in H as (lt & i6 & ? & Hlt & H & ->). apply cond_entry_labels in H.
  apply index_total in Hc, Hcbd, Hlw.
  assert (H4' : map fst i4 =
                if tr then (ItField Fss k :: if negb (laytyp self !!! k =? 0) then [ItField Fsy k] else [])
                else []).
  { destruct tr.
    - apply wbind_inv in H4 as (? & j1 & ? & G1 & H4 & ->).
      apply (cond_entry_labels true) in G1.
      apply wbind_inv in H4 as (t & ? & ? & Ht & H4 & ->). apply wlift_inv in Ht as [Ht ->].
      apply index_total in Ht. apply cond_entry_labels in H4.
      rewrite map_app, G1, Ht. simpl. by rewrite H4.
    - inversion H4. reflexivity. }
  assert (Hw : i6 = [] /\ (negb (lw =? 0) = true -> laytyp self !!! k = lt)).
  { destruct (negb (lw =? 0)).
    - apply wlift_inv in Hlt as [Hlt ->]. apply index_total in Hlt. auto.
    - inversion Hlt. split; [done | discriminate]. }
  destruct Hw as [-> Hw].
  rewrite !map_app, H1, H2, H3, H4', H5, H. simpl.
  unfold emitted. fold tr. rewrite Hc, Hcbd, Hlw.
  destruct (Np.lt c 1), tr, (0 <? cbd), (negb (lw =? 0)) eqn:E; simpl;
    try rewrite (Hw eq_refl); try destruct (negb (laytyp self !!! k =? 0)); simpl;
    try destruct (negb (lt =? 0)); reflexivity.
Qed.

Lemma wfor_each_labels self ks its :
  wfor_each ks (layer_items self (negb (forallb id (steady (parent self))))) tt = Ok (tt, its) ->
  map fst its =
  flat_map (fun k => map (fun fld => ItField fld k) (List.filter (emitted self k) all_fields)) ks.
Proof.
  revert its. induction ks as [| k ks IH]; intros its; simpl.
  - intros H. inversion H. reflexivity.
  - intros H. apply wbind_inv in H as ([] & o1 & o2 & H1 & H2 & ->).
    apply layer_labels in H1. apply IH in H2. by rewrite map_app, H1, H2.
Qed.

Lemma file_items_labels self its :
  file_items self = Ok (tt, its) -> map fst its = file_labels self.
Proof.
  unfold file_items, file_labels. intros H.
  do 7 (apply wbind_inv in H as (? & ? & ? & [= <- <-] & H & ->)).
  apply wbind_inv in H as (? & o1 & o2 & H1 & H2 & ->).
  apply wfor_each_labels in H2.
  rewrite !map_app, H2. cbn [map fst app]. do 8 f_equal.
  destruct (0 <? Np.sum (laywet self)).
  - apply wbind_inv in H1 as (s & ? & ? & Hs & Hw & ->).
    apply wlift_inv in Hs as [_ ->]. inversion Hw. reflexivity.
  - inversion H1. reflexivity.
Qed.

(** The text of the header item is [format_header]. *)
Lemma file_items_header self its :
  file_items self = Ok (tt, its) -> its !! 1%nat = Some (ItHeader, format_header self).
Proof.
  unfold file_items. intros H.
  do 2 (apply wbind_inv in H as (? & ? & ? & [= <- <-] & H & ->)).
  reflexivity.
Qed.

End Encoder.

(** ** The calls of the decoder *)

Lemma log_run e w : log e w = (Ok tt, World (fs w) (handles w) (events w ++ [e])).
Proof. reflexivity. Qed.

Lemma with_lines_events {A : Type} h (rd : list string -> outcome (A * list string)) w r w' :
  with_lines h rd w = (r, w') -> events w' = events w.
Proof.
  unfold with_lines. destruct (handles w !! h) as [hd |]; [| by intros [= <- <-]].
  destruct (h_closed hd); [by intros [= <- <-] |].
  destruct (rd (h_in hd)) as [[a rest] | e]; by intros [= <- <-].
Qed.

Lemma emits_ret {A : Type} (a : A) : emits (ret a) [].
Proof.
  intros w r w' [= <- <-]. exists []. rewrite app_nil_r. by repeat split.
Qed.

Lemma emits_raise {A : Type} (e : exn) E : emits (raise (A := A) e) E.
Proof.
  intros w r w' [= <- <-]. exists []. rewrite app_nil_r.
  repeat split; [apply prefix_nil | discriminate].
Qed.

Lemma emits_log e : emits (log e) [e].
Proof. intros w r w' [= <- <-]. exists [e]. by repeat split. Qed.

Lemma emits_with_lines {A : Type} h (rd : list string -> outcome (A * list string)) :
  emits (with_lines h rd) [].
Proof.
  intros w r w' H. apply with_lines_events in H. exists [].
  rewrite app_nil_r. by repeat split.
Qed.

Lemma emits_bind {A B : Type} (m : M A) (f : A -> M B) E1 E2 :
  emits m E1 -> (forall a, emits (f a) E2) -> emits (bind m f) (E1 ++ E2).
Proof.
  intros Hm Hf w r w'. unfold bind.
  destruct (m w) as [[a | e] w1] eqn:Hmw; intros H.
  - destruct (Hm _ _ _ Hmw) as (ev1 & Hw1 & _ & Hok). rewrite (Hok a eq_refl) in Hw1.
    destruct (Hf a _ _ _ H) as (ev2 & Hw2 & Hp & Hok2).
    exists (E1 ++ ev2)%list. rewrite Hw2, Hw1, app_assoc. repeat split.
    + by apply prefix_app.
    + intros b Hb. by rewrite (Hok2 b Hb).
  - injection H as <- <-.
    destruct (Hm _ _ _ Hmw) as (ev1 & Hw1 & Hp & _).
    exists ev1. repeat split; [done | by apply prefix_app_r | discriminate].
Qed.

Lemma emits_bind_nil {A B : Type} (m : M A) (f : A -> M B) E :
  emits m E -> (forall a, emits (f a) []) -> emits (bind m f) E.
Proof. intros Hm Hf. rewrite <- (app_nil_r E). by apply emits_bind. Qed.

Lemma emits_nil_bind {A B : Type} (m : M A) (f : A -> M B) E :
  emits m [] -> (forall a, emits (f a) E) -> emits (bind m f) E.
Proof. intros Hm Hf. change E with ([] ++ E)%list. by apply emits_bind. Qed.

Lemma emits_lift {A : Type} (o : outcome A) : emits (lift o) [].
Proof.
  intros w r w' [= <- <-]. exists []. rewrite app_nil_r. by repeat split.
Qed.

(** A lookup logs nothing, and what follows it runs on the value found. *)
Lemma emits_index {A B : Type} (l : list A) (k : nat) (f : A -> M B) E :
  (forall c, l !! k = Some c -> emits (f c) E) ->
  emits (bind (lift (index l k)) f) E.
Proof.
  intros Hf w r w'. unfold bind, lift, index.
  destruct (l !! k) as [c |] eqn:Hl.
  - apply Hf. reflexivity.
  - intros [= <- <-]. exists []. rewrite app_nil_r.
    repeat split; [apply prefix_nil | discriminate].
Qed.

Lemma emits_if {A : Type} (b : bool) (m1 m2 : M A) E1 E2 :
  emits m1 E1 -> emits m2 E2 -> emits (if b then m1 else m2) (if b then E1 else E2).
Proof. by destruct b. Qed.

Lemma emits_for_each {A : Type} (body : nat -> A -> M A) (E : nat -> list event) ks acc :
  (forall k a, emits (body k a) (E k)) ->
  emits (for_each ks body acc) (flat_map E ks).
Proof.
  intros Hb. revert acc. induction ks as [| k ks IH]; intros acc; simpl.
  - apply emits_ret.
  - apply emits_bind; [apply Hb | intros a; apply IH].
Qed.

Lemma keeps_of_emits {A : Type} (P : event -> Prop) (m : M A) E :
  emits m E -> Forall P E -> keeps P m.
Proof.
  intros Hm HP w r w' H. destruct (Hm _ _ _ H) as (evs & Hw & [tl ->] & _).
  exists evs. split; [done |]. by apply Forall_app in HP as [? _].
Qed.

Lemma keeps_bind {A B : Type} (P : event -> Prop) (m : M A) (f : A -> M B) :
  keeps P m -> (forall a, keeps P (f a)) -> keeps P (bind m f).
Proof.
  intros Hm Hf w r w'. unfold bind.
  destruct (m w) as [[a | e] w1] eqn:Hmw; intros H.
  - destruct (Hm _ _ _ Hmw) as (ev1 & Hw1 & HP1).
    destruct (Hf a _ _ _ H) as (ev2 & Hw2 & HP2).
    exists (ev1 ++ ev2)%list. rewrite Hw2, Hw1, app_assoc. split; [done |].
    by apply Forall_app.
  - injection H as <- <-. by apply (Hm _ _ _ Hmw).
Qed.

Lemma keeps_if {A : Type} (P : event -> Prop) (b : bool) (m1 m2 : M A) :
  keeps P m1 -> keeps P m2 -> keeps P (if b then m1 else m2).
Proof. by destruct b. Qed.

Section Decoder.

Context {C : Collaborators}.

Lemma emits_readline h : emits (f_readline h) [EvReadline].
Proof.
  unfold f_readline. apply emits_bind_nil; [apply emits_log |].
  intros _. apply emits_with_lines.
Qed.

Lemma emits_load_array h model nm ed k :
  emits (load_array h model nm ed k) [EvUtil2dLoad nm k].
Proof.
  unfold load_array. apply emits_bind_nil; [apply emits_log | intros _].
  apply emits_bind_nil; [apply emits_with_lines | intros u; apply emits_ret].
Qed.

Lemma emits_fill_array h model nm pd k :
  emits (fill_array h model nm pd k) [EvReadline; EvParameterFill nm k].
Proof.
  unfold fill_array.
  apply (emits_bind _ _ [EvReadline] [EvParameterFill nm k]); [apply emits_readline |].
  intros line. apply emits_nil_bind.
  { destruct pd; [apply emits_ret | apply emits_raise]. }
  intros d. apply emits_bind_nil; [apply emits_log | intros _].
  apply emits_bind_nil; [apply emits_lift | intros a; apply emits_ret].
Qed.

Lemma emits_one_field h model pt pd ed nm k :
  emits (if negb (mem nm pt) then load_array h model nm ed k
         else fill_array h model nm pd k)
        (one_field pt nm k).
Proof.
  unfold one_field. destruct (mem nm pt); simpl.
  - apply emits_fill_array.
  - apply emits_load_array.
Qed.

Lemma emits_load_layer h model ed (p : parsed) k acc :
  emits (load_layer h model ed (p_par_types p) (p_parm_dict p)
           (negb (forallb id (steady model)))
           (p_laytyp p) (p_chani p) (p_layvka p) (p_laywet p) k acc)
        (layer_events model p k).
Proof.
  unfold load_layer, layer_events. set (tr := negb _). set (pt := p_par_types p).
  (* hk *)
  apply emits_bind; [apply emits_one_field | intros t1].
  (* hani *)
  apply emits_index. intros c Hc. rewrite (list_lookup_total_correct _ _ _ Hc).
  apply emits_bind.
  { apply emits_if; [| apply emits_ret].
    apply emits_bind_nil; [apply emits_one_field | intros t; apply emits_ret]. }
  intros hani'.
  (* vka *)
  apply emits_index. intros v Hv. rewrite (list_lookup_total_correct _ _ _ Hv).
  apply emits_bind.
  { apply emits_if; [apply emits_load_array | apply emits_fill_array]. }
  intros t3.
  (* ss, sy *)
  apply emits_bind.
  { apply emits_if; [| apply emits_ret].
    apply emits_bind; [apply emits_one_field | intros t4].
    apply emits_index. intros lt Hlt. rewrite (list_lookup_total_correct _ _ _ Hlt).
    apply emits_bind_nil; [| intros sy'; apply emits_ret].
    apply emits_if; [| apply emits_ret].
    apply emits_bind_nil; [apply emits_one_field | intros t; apply emits_ret]. }
  intros ssy.
  (* vkcb *)
  apply emits_index. intros cbd Hcbd. rewrite (list_lookup_total_correct _ _ _ Hcbd).
  apply emits_bind.
  { apply emits_if; [| apply emits_ret].
    apply emits_bind_nil; [apply emits_one_field | intros t; apply emits_ret]. }
  intros vkcb'.
  (* wetdry *)
  apply emits_index. intros lw Hlw. rewrite (list_lookup_total_correct _ _ _ Hlw).
  destruct (negb (lw =? 0)) eqn:Elw; simpl.
  - apply emits_index. intros lt Hlt. rewrite (list_lookup_total_correct _ _ _ Hlt).
    apply emits_bind_nil; [| intros x; apply emits_ret].
    apply emits_if; [| apply emits_ret].
    apply emits_bind_nil; [apply emits_load_array | intros t; apply emits_ret].
  - apply emits_nil_bind; [apply emits_ret | intros lt].
    apply emits_bind_nil; [| intros x; apply emits_ret].
    apply emits_ret.
Qed.

Lemma emits_load_layers h model ed (p : parsed) :
  emits (load_layers h model ed p)
        (flat_map (layer_events model p) (seq 0 (nlay model))).
Proof.
  unfold load_layers, for_range. apply emits_for_each. intros k a.
  apply emits_load_layer.
Qed.

End Decoder.

(** ** The constructor *)

Lemma lift_Ok_inv {A : Type} (o : outcome A) (a : A) (w w' : world) :
  lift o w = (Ok a, w') -> o = Ok a /\ w' = w.
Proof. unfold lift. by intros [= <- <-]. Qed.

Lemma omap_list_length {A B : Type} (f : A -> outcome B) (l : list A) (bs : list B) :
  omap_list f l = Ok bs -> length bs = length l.
Proof.
  revert bs. induction l as [| a l IH]; intros bs; simpl.
  - by intros [= <-].
  - destruct (f a) as [b | e]; simpl; [| discriminate].
    destruct (omap_list f l) as [bs' | e]; simpl; [| discriminate].
    intros [= <-]. simpl. by rewrite (IH bs' eq_refl).
Qed.

Lemma Util2d_int_length n v l : Util2d_int n v = Ok l -> length l = n.
Proof.
  destruct v as [c | l0]; simpl.
  - destruct (to_int64 c); simpl; [| discriminate].
    intros [= <-]. apply repeat_length.
  - destruct (length l0 =? n)%nat eqn:E; [| discriminate].
    intros H. apply omap_list_length in H. rewrite H. by apply Nat.eqb_eq.
Qed.

Lemma Util2d_float_length {C : Collaborators} n v l :
  Util2d_float n v = Ok l -> length l = n.
Proof.
  destruct v as [c | l0]; simpl.
  - intros [= <-]. apply repeat_length.
  - destruct (length l0 =? n)%nat eqn:E; [| discriminate].
    intros [= <-]. rewrite length_map. by apply Nat.eqb_eq.
Qed.

Lemma Util3d_length {C : Collaborators} n v nm l : Util3d n v nm = Ok l -> length l = n.
Proof.
  destruct v as [c | l0]; simpl.
  - intros H. apply omap_list_length in H. by rewrite length_seq in H.
  - destruct (length l0 =? n)%nat; [| discriminate].
    intros H. apply omap_list_length in H. by rewrite length_seq in H.
Qed.

(** The loop of lines 190-195 computes one key per layer from [layvka]. *)
Lemma keys_loop (layvka : list Z) ks acc (w : world) keys w' :
  for_each ks
    (fun k keys =>
       v <- lift (index layvka k) ;;
       let key := "vka" in
       let key := if negb (v =? 0) then "vani" else key in
       ret (keys ++ [key])%list) acc w = (Ok keys, w') ->
  w' = w /\ keys = (acc ++ map (fun k => vka_key (layvka !!! k)) ks)%list.
Proof.
  revert acc. induction ks as [| k ks IH]; intros acc; simpl.
  - intros [= <- <-]. by rewrite app_nil_r.
  - intros H. apply bind_Ok_inv in H as (acc' & w1 & H1 & H2).
    apply bind_Ok_inv in H1; destruct H1 as (v & w2 & Hv & H1).
    apply lift_Ok_inv in Hv as [Hv ->]. injection H1 as <- <-.
    apply IH in H2 as [-> ->]. split; [done |].
    apply index_total in Hv. rewrite Hv. by rewrite <- app_assoc.
Qed.

(** Inversion of [x <- lift o ;; k] that returned. *)
Ltac bind_lift_inv H :=
  let x := fresh "x" in
  let w := fresh "w" in
  let E := fresh "E" in
  apply bind_Ok_inv in H; destruct H as (x & w & E & H);
  apply lift_Ok_inv in E; destruct E as [E ->].

Section Init.

Context {C : Collaborators}.

Lemma init_inv model a w r w' :
  __init__ model a w = (Ok r, w') ->
  parent r = model /\ nplpf r = 0 /\
  ipakcb r = (if a_ipakcb a =? 0 then 0 else 53) /\
  hdry r = a_hdry a /\
  wetfct r = a_wetfct a /\ iwetit r = a_iwetit a /\ ihdwet r = a_ihdwet a /\
  options r = options_of a /\
  name r = ["LPF"] /\
  Util2d_int (nlay model) (a_laytyp a) = Ok (laytyp r) /\
  Util2d_int (nlay model) (a_layavg a) = Ok (layavg r) /\
  Util2d_float (nlay model) (a_chani a) = Ok (chani r) /\
  Util2d_int (nlay model) (a_layvka a) = Ok (layvka r) /\
  Util2d_int (nlay model) (a_laywet a) = Ok (laywet r) /\
  Util3d (nlay model) (a_hk a) (NameStr "hk") = Ok (hk r) /\
  Util3d (nlay model) (a_hani a) (NameStr "hani") = Ok (hani r) /\
  Util3d (nlay model) (a_vka a)
    (NameList (map (fun k => vka_key (layvka r !!! k)) (seq 0 (nlay model)))) = Ok (vka r) /\
  Util3d (nlay model) (a_ss a)
    (NameStr (if a_storagecoefficient a then "storage" else "ss")) = Ok (ss r) /\
  Util3d (nlay model) (a_sy a) (NameStr "sy") = Ok (sy r) /\
  Util3d (nlay model) (a_vkcb a) (NameStr "vkcb") = Ok (vkcb r) /\
  Util3d (nlay model) (a_wetdry a) (NameStr "wetdry") = Ok (wetdry r) /\
  w' = World (fs w) (handles w) (events w ++ [EvAddPackage]).
Proof.
  unfold __init__. cbn [nrow_ncol_nlay_nper]. intros H.
  do 7 bind_lift_inv H.
  apply bind_Ok_inv in H; destruct H as (keys & wk & Hk & H).
  apply keys_loop in Hk as [-> ->].
  do 5 bind_lift_inv H.
  apply bind_Ok_inv in H; destruct H as ([] & wl & Hl & H).
  injection Hl as <-. injection H as <- <-. simpl.
  destruct (a_ipakcb a =? 0); simpl; repeat split; try assumption; reflexivity.
Qed.

Lemma init_well_shaped model a w r w' :
  __init__ model a w = (Ok r, w') -> well_shaped r.
Proof.
  intros H. apply init_inv in H.
  destruct H as (Hp & _ & _ & _ & _ & _ & _ & _ & _ & H1 & _ & H3 & _ & H5 & H6 & H7 & H8 &
                 H9 & H10 & H11 & H12 & _).
  unfold well_shaped. rewrite Hp.
  apply Util2d_int_length in H1, H5. apply Util2d_float_length in H3.
  apply Util3d_length in H6, H7, H8, H9, H10, H11, H12.
  by repeat split.
Qed.

(** *** [write_file] returns on a constructed record *)

Lemma index_lt {A : Type} (l : list A) (k : nat) :
  (k < length l)%nat -> exists a, index l k = Ok a.
Proof.
  intros H. destruct (lookup_lt_is_Some_2 l k H) as [a Ha].
  exists a. by apply index_Ok.
Qed.

Lemma entry_items_lt fld l k :
  (k < length l)%nat -> exists its, entry_items fld l k = Ok (tt, its).
Proof.
  intros H. destruct (index_lt l k H) as [u Hu]. unfold entry_items.
  rewrite Hu. simpl. by eexists.
Qed.

Lemma cond_entry_lt (b : bool) fld l k :
  (k < length l)%nat ->
  exists its, (if b then entry_items fld l k else wret tt) = Ok (tt, its).
Proof.
  intros H. destruct b; [by apply entry_items_lt | by eexists].
Qed.

Lemma layer_items_total self tr k :
  well_shaped self -> (k < nlay (parent self))%nat ->
  (nlay (parent self) <= length (laycbd (parent self)))%nat ->
  exists its, layer_items self tr k tt = Ok (tt, its).
Proof.
  intros (H1 & H2 & H3 & H4 & H5 & H6 & H7 & H8 & H9 & H10) Hk Hcbd.
  destruct (entry_items_lt Fhk (hk self) k) as [i1 E1]; [lia |].
  destruct (index_lt (chani self) k) as [c Ec]; [lia |].
  destruct (cond_entry_lt (Np.lt c 1) Fhani (hani self) k) as [i2 E2]; [lia |].
  destruct (entry_items_lt Fvka (vka self) k) as [i3 E3]; [lia |].
  destruct (index_lt (laytyp self) k) as [t Ht]; [lia |].
  destruct (index_lt (laycbd (parent self)) k) as [cbd Ecbd]; [lia |].
  destruct (index_lt (laywet self) k) as [lw Elw]; [lia |].
  destruct (cond_entry_lt (0 <? cbd) Fvkcb (vkcb self) k) as [i5 E5]; [lia |].
  destruct (entry_items_lt Fss (ss self) k) as [i4 Hss]; [lia |].
  destruct (cond_entry_lt (negb (t =? 0)) Fsy (sy self) k) as [i4' Hsy]; [lia |].
  destruct (entry_items_lt Fwetdry (wetdry self) k) as [i6 Hwd]; [lia |].
  unfold layer_items.
  rewrite E1; cbn [wbind]. rewrite Ec; cbn [wbind wlift]. rewrite E2; cbn [wbind].
  rewrite E3; cbn [wbind].
  assert (Htr : exists i, (if tr then
             wbind (entry_items Fss (ss self) k) (fun _ =>
             wbind (wlift (index (laytyp self) k)) (fun t =>
             if negb (t =? 0) then entry_items Fsy (sy self) k else wret tt))
           else wret tt) = Ok (tt, i)).
  { destruct tr; [| by eexists].
    rewrite Hss; cbn [wbind]. rewrite Ht; cbn [wbind wlift]. rewrite Hsy. by eexists. }
  destruct Htr as [i7 ->]; cbn [wbind].
  rewrite Ecbd; cbn [wbind wlift]. rewrite E5; cbn [wbind].
  rewrite Elw; cbn [wbind wlift].
  destruct (negb (lw =? 0)); cbn [wbind wlift wret andb].
  - rewrite Ht; cbn [wbind wlift].
    destruct (negb (t =? 0)); [rewrite Hwd |]; by eexists.
  - by eexists.
Qed.

Lemma wfor_each_total self tr ks :
  well_shaped self ->
  (nlay (parent self) <= length (laycbd (parent self)))%nat ->
  Forall (fun k => (k < nlay (parent self))%nat) ks ->
  exists its, wfor_each ks (layer_items self tr) tt = Ok (tt, its).
Proof.
  intros Hs Hc. induction 1 as [| k ks Hk _ IH]; simpl.
  - by eexists.
  - destruct (layer_items_total self tr k Hs Hk Hc) as [i1 ->].
    destruct IH as [i2 IH]. simpl. rewrite IH. by eexists.
Qed.

Lemma file_items_total self :
  well_shaped self ->
  (nlay (parent self) <= length (laycbd (parent self)))%nat ->
  wetting_ready self ->
  exists its, file_items self = Ok (tt, its).
Proof.
  intros Hs Hc Hw. unfold file_items. simpl.
  destruct (wfor_each_total self (negb (forallb id (steady (parent self))))
              (seq 0 (nlay (parent self))) Hs Hc) as [its Hits].
  { apply Forall_forall. intros k Hk. apply elem_of_seq in Hk. lia. }
  rewrite Hits.
  destruct (0 <? Np.sum (laywet self)) eqn:E; [| by eexists].
  destruct Hw as ([x Hx] & [i Hi] & [j Hj]); [lia |].
  unfold format_wetting. rewrite Hx, Hi, Hj. simpl. by eexists.
Qed.

Lemma write_file_returns self chk w :
  well_shaped self ->
  (nlay (parent self) <= length (laycbd (parent self)))%nat ->
  wetting_ready self ->
  writable (fn_path self) = true ->
  (chk = true ->
   exists w1, check self (hd "" (name self) ++ ".chk") (verbose (parent self)) 1 w = (Ok tt, w1)) ->
  exists w', write_file self chk w = (Ok tt, w').
Proof.
  intros Hs Hc Hw Hwr Hchk.
  destruct (file_items_total self Hs Hc Hw) as [its Hits].
  destruct (write_file self chk w) as [r w'] eqn:Hrun. exists w'.
  apply write_file_cases in Hrun
    as [(e & -> & -> & Hr & _) | [(Hno & _) | [(? & _ & -> & _) | (e & ? & He & _)]]].
  - destruct (Hchk eq_refl) as [w1 Hw1]. congruence.
  - congruence.
  - reflexivity.
  - congruence.
Qed.

(** A [write_file] that returns has opened its path. *)
Lemma write_file_writable self chk w w' :
  write_file self chk w = (Ok tt, w') -> writable (fn_path self) = true.
Proof.
  rewrite write_file_eq. intros H.
  apply bind_Ok_inv in H as (? & w1 & _ & H).
  apply bind_Ok_inv in H as (f & w2 & H & _).
  unfold open_w in H. by destruct (writable (fn_path self)).
Qed.

End Init.

(** ** The phases of the decoder *)

Section Phases.

Context {C : Collaborators}.

(** The loop that skips the comments never lacks fuel: with at least as
    much fuel as the handle has lines left, more fuel changes nothing. *)
Lemma read_header_line_step fuel h :
  read_header_line fuel h =
  (line <- f_readline h ;;
   match line with
   | EmptyString => raise IndexError
   | String c _ =>
       if negb (Ascii.eqb c "#") then ret line
       else match fuel with
            | O => raise IndexError
            | S fuel => read_header_line fuel h
            end
   end).
Proof. by destruct fuel. Qed.

Lemma read_header_line_fuel h ls :
  forall w hd n m,
    handles w !! h = Some hd -> h_in hd = ls ->
    (length ls <= n)%nat -> (length ls <= m)%nat ->
    read_header_line n h w = read_header_line m h w.
Proof.
  induction ls as [| l rest IH]; intros w hd n m Hh Hin Hn Hm;
    rewrite (read_header_line_step n), (read_header_line_step m);
    unfold bind, f_readline, bind, log, with_lines; simpl; rewrite Hh;
    destruct (h_closed hd) eqn:Hc; try reflexivity; rewrite Hin; simpl.
  - reflexivity.
  - destruct l as [| c l']; [reflexivity |].
    destruct (negb (Ascii.eqb c "#")); [reflexivity |].
    destruct n as [| n]; [simpl in Hn; lia |].
    destruct m as [| m]; [simpl in Hm; lia |].
    eapply IH.
    + unfold set_handle. simpl. apply list_lookup_insert_eq. by eapply lookup_lt_Some.
    + reflexivity.
    + simpl in Hn. lia.
    + simpl in Hm. lia.
Qed.

Lemma load_header_line_fuel h w hd extra :
  handles w !! h = Some hd ->
  load_header_line h w = read_header_line (length (h_in hd) + extra) h w.
Proof.
  intros Hh. unfold load_header_line, bind, lines_left. rewrite Hh.
  by apply (read_header_line_fuel h (h_in hd) w hd); [| | lia | lia].
Qed.

Lemma load_inv f model ed chk w r w' :
  load f model ed chk w = (Ok r, w') ->
  exists h w0 hdr w1 p w2 l w3,
    load_open f w = (Ok h, w0) /\
    load_item1 h model w0 = (Ok hdr, w1) /\
    load_items h model hdr w1 = (Ok p, w2) /\
    load_layers h model ed p w2 = (Ok l, w3) /\
    load_finish model chk p l w3 = (Ok r, w').
Proof.
  unfold load. intros H.
  apply bind_Ok_inv in H; destruct H as (h & w0 & H0 & H).
  apply bind_Ok_inv in H; destruct H as (hdr & w1 & H1 & H).
  apply bind_Ok_inv in H; destruct H as (p & w2 & H2 & H).
  apply bind_Ok_inv in H; destruct H as (l & w3 & H3 & H).
  by exists h, w0, hdr, w1, p, w2, l, w3.
Qed.

Lemma load_finish_inv model chk p l w r w' :
  load_finish model chk p l w = (Ok r, w') ->
  exists w1, __init__ model (load_args p l) w = (Ok r, w1).
Proof.
  unfold load_finish. intros H.
  apply bind_Ok_inv in H; destruct H as (lpf & w1 & H1 & H).
  apply bind_Ok_inv in H; destruct H as ([] & w2 & H2 & H).
  injection H as <- <-. by exists w1.
Qed.

Lemma int_at_inv t i w z w' :
  int_at t i w = (Ok z, w') ->
  w' = w /\ exists s, t !! i = Some s /\ Py.int s = Some z.
Proof.
  unfold int_at. intros H. bind_lift_inv H. apply index_Ok in E.
  destruct (Py.int x) as [z' |] eqn:Hz; [| discriminate].
  injection H as <- <-. split; [done |]. by exists x.
Qed.

Lemma float_at_inv t i w q w' :
  float_at t i w = (Ok q, w') ->
  w' = w /\ exists s, t !! i = Some s /\ float s = Some q.
Proof.
  unfold float_at. intros H. bind_lift_inv H. apply index_Ok in E.
  destruct (float x) as [q' |] eqn:Hq; [| discriminate].
  injection H as <- <-. split; [done |]. by exists x.
Qed.

(** Item 1: the first token of the header line is the raw budget unit, and
    what goes on is 0 or 53. *)
Lemma load_item1_inv h model w ipakcb hdry nplpf t w' :
  load_item1 h model w = (Ok (ipakcb, hdry, nplpf, t), w') ->
  exists line w1 s0 raw s2,
    load_header_line h w = (Ok line, w1) /\
    t = Py.split (Py.strip line) /\
    t !! 0%nat = Some s0 /\ Py.int s0 = Some raw /\
    ipakcb = (if raw =? 0 then 0 else 53) /\
    t !! 2%nat = Some s2 /\ Py.int s2 = Some nplpf.
Proof.
  unfold load_item1. intros H.
  apply bind_Ok_inv in H; destruct H as (line & w1 & Hl & H).
  apply bind_Ok_inv in H; destruct H as (raw & w2 & Hraw & H).
  apply int_at_inv in Hraw as [-> (s0 & Hs0 & Hraw)].
  apply bind_Ok_inv in H; destruct H as (hd' & w3 & Hh & H).
  apply float_at_inv in Hh as [-> _].
  apply bind_Ok_inv in H; destruct H as (np & w4 & Hnp & H).
  apply int_at_inv in Hnp as [-> (s2 & Hs2 & Hnp)].
  apply bind_Ok_inv in H; destruct H as (ip & w5 & Hip & H).
  injection H as <- <- <- <- <-.
  exists line, w1, s0, raw, s2. repeat split; try done.
  destruct (raw =? 0) eqn:Eraw; simpl in Hip.
  - apply Z.eqb_eq in Eraw. injection Hip as <- _. exact Eraw.
  - apply bind_Ok_inv in Hip; destruct Hip as (? & ? & _ & Hip). by injection Hip as <- _.
Qed.

Lemma load_items_inv h model ipakcb hdry nplpf t w p w' :
  load_items h model (ipakcb, hdry, nplpf, t) w = (Ok p, w') ->
  p_ipakcb p = ipakcb /\ p_hdry p = hdry /\ p_nplpf p = nplpf /\
  (nplpf <= 0 -> p_par_types p = [] /\ p_parm_dict p = None).
Proof.
  unfold load_items. intros H.
  do 7 (apply bind_Ok_inv in H; destruct H as (? & ? & ? & H)).
  injection H as <- <-. simpl. repeat split; try done.
  - destruct (0 <? nplpf) eqn:E; [lia |].
    match goal with Hp : ret _ _ = _ |- _ => by injection Hp as <- _ end.
  - destruct (0 <? nplpf) eqn:E; [lia |].
    match goal with Hp : ret _ _ = _ |- _ => by injection Hp as <- _ end.
Qed.

Lemma keeps_ret {A : Type} P (a : A) : keeps P (ret a).
Proof. by apply (keeps_of_emits _ _ []); [apply emits_ret |]. Qed.

Lemma keeps_raise {A : Type} P (e : exn) : keeps P (raise (A := A) e).
Proof. by apply (keeps_of_emits _ _ []); [apply emits_raise |]. Qed.

Lemma keeps_lift {A : Type} P (o : outcome A) : keeps P (lift o).
Proof. by apply (keeps_of_emits _ _ []); [apply emits_lift |]. Qed.

Lemma keeps_log (P : event -> Prop) e : P e -> keeps P (log e).
Proof. intros. apply (keeps_of_emits _ _ [e]); [apply emits_log | by constructor]. Qed.

Lemma keeps_with_lines {A : Type} P h (rd : list string -> outcome (A * list string)) :
  keeps P (with_lines h rd).
Proof. by apply (keeps_of_emits _ _ []); [apply emits_with_lines |]. Qed.

Lemma keeps_int_at P t i : keeps P (int_at t i).
Proof.
  unfold int_at. apply keeps_bind; [apply keeps_lift | intros s].
  destruct (Py.int s); [apply keeps_ret | apply keeps_raise].
Qed.

Lemma keeps_float_at P t i : keeps P (float_at t i).
Proof.
  unfold float_at. apply keeps_bind; [apply keeps_lift | intros s].
  destruct (float s); [apply keeps_ret | apply keeps_raise].
Qed.

Lemma keeps_readline (P : event -> Prop) h : P EvReadline -> keeps P (f_readline h).
Proof.
  intros HP. apply (keeps_of_emits _ _ [EvReadline]); [apply emits_readline |].
  by constructor.
Qed.

(** With [NPLPF <= 0] the parameter loader is not called, on no path. *)
Lemma load_items_no_mfpar h model ipakcb hdry nplpf t :
  nplpf <= 0 ->
  keeps not_mfpar_load (load_items h model (ipakcb, hdry, nplpf, t)).
Proof.
  intros Hn. unfold load_items.
  assert (Hrd : not_mfpar_load EvRead1d) by (intros n; discriminate).
  assert (Hrl : not_mfpar_load EvReadline) by (intros n; discriminate).
  do 5 (apply keeps_bind;
        [apply keeps_bind; [by apply keeps_log | intros _; apply keeps_with_lines] | intros ?]).
  apply keeps_bind.
  { apply keeps_if; [| apply keeps_ret].
    apply keeps_bind; [by apply keeps_readline | intros line].
    apply keeps_bind; [apply keeps_float_at | intros ?].
    apply keeps_bind; [apply keeps_int_at | intros ?].
    apply keeps_bind; [apply keeps_int_at | intros ?]. apply keeps_ret. }
  intros wet. apply keeps_bind; [| intros ?; apply keeps_ret].
  destruct (0 <? nplpf) eqn:E; [lia |]. apply keeps_ret.
Qed.

End Phases.

(** ** Lines and words *)

Lemma append_cons (c : ascii) (a b : string) : String c a ++ b = String c (a ++ b).
Proof. reflexivity. Qed.

Lemma append_nil_r (s : string) : s ++ "" = s.
Proof. induction s as [| c s IH]; [reflexivity |]. by rewrite append_cons, IH. Qed.

Lemma append_assoc (a b c : string) : (a ++ b) ++ c = a ++ (b ++ c).
Proof.
  induction a as [| x a IH]; [reflexivity |]. by rewrite !append_cons, IH.
Qed.

Lemma string_of_snoc (l : list ascii) (x : ascii) (t : string) :
  string_of_list_ascii (l ++ [x]) ++ t = string_of_list_ascii l ++ String x t.
Proof.
  induction l as [| y l IH]; [reflexivity |].
  cbn [app string_of_list_ascii]. by rewrite !append_cons, IH.
Qed.

(** *** [split] *)

Lemma split_aux_blank cur (a : string) (c : ascii) (b : string) :
  Py.is_space c = true ->
  Py.split_aux cur (a ++ String c b) = (Py.split_aux cur a ++ Py.split b)%list.
Proof.
  intros Hc. revert cur. induction a as [| x a IH]; intros cur.
  - change ("" ++ String c b) with (String c b). cbn [Py.split_aux]. by rewrite Hc.
  - rewrite append_cons. cbn [Py.split_aux]. destruct (Py.is_space x).
    + by rewrite IH, app_assoc.
    + apply IH.
Qed.

Lemma split_spaces n (s : string) : Py.split (Py.spaces n ++ s) = Py.split s.
Proof.
  induction n as [| n IH]; [reflexivity |].
  cbn [Py.spaces]. rewrite append_cons. exact IH.
Qed.

Lemma split_aux_word cur (tok : string) :
  no_blank tok = true -> cur <> [] \/ tok <> "" ->
  Py.split_aux cur tok = [string_of_list_ascii (rev cur) ++ tok].
Proof.
  revert cur. induction tok as [| x t IH]; intros cur Hb Hne.
  - destruct Hne as [Hne | Hne]; [| done].
    rewrite append_nil_r. destruct cur; [done | reflexivity].
  - cbn [no_blank] in Hb. apply andb_true_iff in Hb as [Hx Hb].
    apply negb_true_iff in Hx. cbn [Py.split_aux]. rewrite Hx.
    rewrite IH; [| exact Hb | by left].
    cbn [rev]. by rewrite string_of_snoc.
Qed.

Lemma split_word (tok : string) : word tok = true -> Py.split tok = [tok].
Proof.
  intros H. unfold Py.split. rewrite split_aux_word.
  - reflexivity.
  - by destruct tok.
  - right. by destruct tok.
Qed.

Lemma split_lstrip (s : string) : Py.split (Py.lstrip s) = Py.split s.
Proof.
  induction s as [| c s IH]; [reflexivity |].
  cbn [Py.lstrip]. destruct (Py.is_space c) eqn:E; [| reflexivity].
  rewrite IH. unfold Py.split. cbn [Py.split_aux]. by rewrite E.
Qed.

Lemma split_aux_rstrip (s : string) :
  forall cur, Py.split_aux cur (Py.rstrip s) = Py.split_aux cur s.
Proof.
  induction s as [| c s IH]; intros cur; [reflexivity |].
  cbn [Py.rstrip]. destruct (Py.rstrip s) as [| x r'] eqn:Er.
  - destruct (Py.is_space c) eqn:E; cbn [Py.split_aux]; rewrite E.
    + rewrite <- (IH []). cbn [Py.split_aux]. by rewrite app_nil_r.
    + by rewrite <- (IH (c :: cur)).
  - cbn [Py.split_aux]. destruct (Py.is_space c).
    + f_equal. exact (IH []).
    + exact (IH (c :: cur)).
Qed.

Lemma split_strip (s : string) : Py.split (Py.strip s) = Py.split s.
Proof.
  unfold Py.strip, Py.split at 1. rewrite split_aux_rstrip. apply split_lstrip.
Qed.

(** A word between blanks is a field of the line. *)
Lemma split_word_blank (tok : string) (c : ascii) (b : string) :
  word tok = true -> Py.is_space c = true ->
  Py.split (tok ++ String c b) = tok :: Py.split b.
Proof.
  intros Hw Hc. unfold Py.split at 1. rewrite split_aux_blank by exact Hc.
  change (Py.split_aux [] tok) with (Py.split tok). by rewrite split_word.
Qed.

(** *** [splitlines] *)

Lemma lines_aux_one cur (s : string) :
  no_newline s = true ->
  Py.lines_aux cur (s ++ nl) = [string_of_list_ascii (rev cur) ++ s ++ nl].
Proof.
  revert cur. induction s as [| x t IH]; intros cur H.
  - change ("" ++ nl) with nl. unfold nl. cbn [Py.lines_aux Ascii.eqb Bool.eqb rev].
    by rewrite <- (append_nil_r (string_of_list_ascii _)), string_of_snoc.
  - cbn [no_newline] in H. apply andb_true_iff in H as [Hx H].
    apply negb_true_iff in Hx. rewrite append_cons. cbn [Py.lines_aux]. rewrite Hx.
    rewrite IH by exact H. cbn [rev]. by rewrite string_of_snoc.
Qed.

Lemma lines_one (s : string) : no_newline s = true -> Py.lines (s ++ nl) = [s ++ nl].
Proof. intros H. unfold Py.lines. by rewrite lines_aux_one. Qed.

Lemma no_newline_app (a b : string) :
  no_newline (a ++ b) = no_newline a && no_newline b.
Proof.
  induction a as [| c a IH]; [reflexivity |].
  rewrite append_cons. cbn [no_newline]. by rewrite IH, andb_assoc.
Qed.

Lemma no_newline_spaces n : no_newline (Py.spaces n) = true.
Proof. induction n as [| n IH]; [reflexivity | exact IH]. Qed.

Lemma no_blank_no_newline (s : string) : no_blank s = true -> no_newline s = true.
Proof.
  induction s as [| c s IH]; [reflexivity |]. cbn [no_blank no_newline].
  intros H. apply andb_true_iff in H as [Hc H]. rewrite (IH H), andb_true_r.
  destruct (Ascii.eqb_spec c "010") as [-> | _]; [discriminate Hc | reflexivity].
Qed.

Lemma word_no_newline (s : string) : word s = true -> no_newline s = true.
Proof. intros H. apply no_blank_no_newline. by destruct s. Qed.

(** *** Integers in decimal *)





(** *** A line of padded fields *)

Lemma padded_no_newline least (s tok : string) : padded least s tok -> no_newline s = true.
Proof.
  intros (n & _ & -> & Hw).
  by rewrite no_newline_app, no_newline_spaces, word_no_newline.
Qed.


(** A field after some text that ends before the blanks of the field. *)
Lemma split_before_padded (a s tok : string) (c : ascii) (b : string) :
  padded 1 s tok -> Py.is_space c = true ->
  Py.split (a ++ s ++ String c b) = (Py.split a ++ tok :: Py.split b)%list.
Proof.
  intros (n & Hn & -> & Hw) Hc. destruct n as [| n]; [lia |].
  cbn [Py.spaces]. rewrite append_cons, append_cons.
  unfold Py.split at 1. rewrite split_aux_blank by reflexivity.
  f_equal. rewrite append_assoc, split_spaces. by apply split_word_blank.
Qed.

(** ** Which items a written file has *)

Section Labels.

Context {C : Collaborators}.

Lemma in_all_fields fld : In fld all_fields.
Proof. destruct fld; simpl; tauto. Qed.

Lemma in_file_labels_field self fld k :
  In (ItField fld k) (file_labels self) <->
  (k < nlay (parent self))%nat /\ emitted self k fld = true.
Proof.
  unfold file_labels. rewrite !in_app_iff, in_flat_map. split.
  - intros [H | [H | (k' & Hk' & H)]].
    + simpl in H. intuition discriminate.
    + destruct (0 <? Np.sum (laywet self)); simpl in H; intuition discriminate.
    + apply in_map_iff in H as (fld' & [= -> ->] & Hf).
      apply filter_In in Hf as [_ Hf]. apply in_seq in Hk'. split; [lia | done].
  - intros [Hk He]. right; right. exists k. split; [apply in_seq; lia |].
    apply in_map_iff. exists fld. split; [done |].
    apply filter_In. split; [apply in_all_fields | done].
Qed.

Lemma in_file_labels_wetting self :
  In ItWetting (file_labels self) <-> 0 < Np.sum (laywet self).
Proof.
  unfold file_labels. rewrite !in_app_iff, in_flat_map. split.
  - intros [H | [H | (k' & Hk' & H)]].
    + simpl in H. intuition discriminate.
    + destruct (0 <? Np.sum (laywet self)) eqn:E; simpl in H; [lia | tauto].
    + apply in_map_iff in H as (fld' & [=] & _).
  - intros H. right; left. apply Z.ltb_lt in H. rewrite H. simpl. tauto.
Qed.

Lemma write_file_labels self chk w w' :
  write_file self chk w = (Ok tt, w') -> labels_written w w' = file_labels self.
Proof.
  intros H. apply write_file_written in H. by apply file_items_labels in H.
Qed.

End Labels.

(** ** Which calls a decoding makes *)

Lemma consecutive_flat_map {A : Type} (f : A -> list event) (l : list A) (x : A) mid :
  In x l -> consecutive mid (f x) -> consecutive mid (flat_map f l).
Proof.
  intros Hx (pre & post & Hf). apply in_split in Hx as (l1 & l2 & ->).
  rewrite flat_map_app. simpl. rewrite Hf.
  exists (flat_map f l1 ++ pre)%list, (post ++ flat_map f l2)%list.
  by rewrite <- !app_assoc.
Qed.

Lemma consecutive_refl mid : consecutive mid mid.
Proof. exists [], []. by rewrite app_nil_r. Qed.

Lemma names_disjoint nm fld fld' :
  In nm (names_of fld) -> In nm (names_of fld') -> fld = fld'.
Proof.
  destruct fld, fld'; simpl; intros H1 H2; try reflexivity;
    repeat (destruct H1 as [H1 | H1]; try contradiction);
    repeat (destruct H2 as [H2 | H2]; try contradiction);
    subst; discriminate.
Qed.

Section Calls.

Context {C : Collaborators}.

Lemma raw_name_in_names p k fld : In (raw_name p k fld) (names_of fld).
Proof.
  destruct fld; simpl; try tauto.
  destruct (Np.ne _ _); tauto.
Qed.

Lemma fill_name_in_names pt fld : In (fill_name pt fld) (names_of fld).
Proof.
  destruct fld; simpl; try tauto.
  destruct (mem _ _); tauto.
Qed.

Lemma layer_events_fields model p k :
  layer_events model p k =
  flat_map (fun fld => if read_for model p k fld then field_events p k fld else [])
           all_fields.
Proof.
  unfold layer_events, field_events, one_field, read_for, by_parameter. simpl.
  set (pt := p_par_types p).
  destruct (mem "hk" pt), (mem "hani" pt), (mem "vka" pt), (mem "vani" pt),
    (mem "ss" pt), (mem "sy" pt), (mem "vkcb" pt),
    (negb (forallb id (steady model))); simpl; rewrite ?app_nil_r; reflexivity.
Qed.

Lemma in_all_events model p e :
  In e (all_events model p) <->
  exists k fld, (k < nlay model)%nat /\ read_for model p k fld = true /\
                In e (field_events p k fld).
Proof.
  unfold all_events. rewrite in_flat_map. split.
  - intros (k & Hk & He). rewrite layer_events_fields in He.
    apply in_flat_map in He as (fld & _ & He).
    apply in_seq in Hk. exists k, fld.
    destruct (read_for model p k fld); [| contradiction]. repeat split; [lia | done].
  - intros (k & fld & Hk & Hr & He). exists k. split; [apply in_seq; lia |].
    rewrite layer_events_fields. apply in_flat_map. exists fld.
    split; [apply in_all_fields |]. by rewrite Hr.
Qed.

Lemma raw_in_all_events model p nm k :
  In (EvUtil2dLoad nm k) (all_events model p) <->
  exists fld, (k < nlay model)%nat /\ read_for model p k fld = true /\
              by_parameter (p_par_types p) fld = false /\ nm = raw_name p k fld.
Proof.
  rewrite in_all_events. unfold field_events. split.
  - intros (k' & fld & Hk & Hr & He). exists fld.
    destruct (by_parameter _ fld); simpl in He.
    + destruct He as [He | [He | []]]; discriminate.
    + destruct He as [[= <- <-] | []]. by repeat split.
  - intros (fld & Hk & Hr & Hb & ->). exists k, fld. rewrite Hb. simpl. tauto.
Qed.

Lemma fill_in_all_events model p nm k :
  In (EvParameterFill nm k) (all_events model p) <->
  exists fld, (k < nlay model)%nat /\ read_for model p k fld = true /\
              by_parameter (p_par_types p) fld = true /\
              nm = fill_name (p_par_types p) fld.
Proof.
  rewrite in_all_events. unfold field_events. split.
  - intros (k' & fld & Hk & Hr & He). exists fld.
    destruct (by_parameter _ fld); simpl in He.
    + destruct He as [He | [[= <- <-] | []]]; [discriminate |]. by repeat split.
    + destruct He as [He | []]; discriminate.
  - intros (fld & Hk & Hr & Hb & ->). exists k, fld. rewrite Hb. simpl. tauto.
Qed.

Lemma consecutive_fill model p k fld :
  (k < nlay model)%nat -> read_for model p k fld = true ->
  by_parameter (p_par_types p) fld = true ->
  consecutive [EvReadline; EvParameterFill (fill_name (p_par_types p) fld) k]
              (all_events model p).
Proof.
  intros Hk Hr Hb. unfold all_events.
  apply (consecutive_flat_map _ _ k); [apply in_seq; lia |].
  rewrite layer_events_fields.
  apply (consecutive_flat_map _ _ fld); [apply in_all_fields |].
  rewrite Hr. unfold field_events. rewrite Hb. apply consecutive_refl.
Qed.

(** A decoding that returns has made exactly the calls [all_events]; one that
    raises has made some first part of them. *)
Lemma load_layers_events h model ed p w r w' :
  load_layers h model ed p w = (r, w') ->
  exists evs, events w' = (events w ++ evs)%list /\
              evs `prefix_of` all_events model p /\
              (forall l, r = Ok l -> evs = all_events model p).
Proof. apply emits_load_layers. Qed.

End Calls.

(** ** Reading back what was written *)

Section Round_trip.

Context {C : Collaborators}.









(** *** Running a reader on known lines *)












(** *** The two lines of numbers *)

Lemma no_newline_options a : no_newline (options_of a) = true.
Proof.
  unfold options_of.
  by destruct (a_storagecoefficient a), (a_constantcv a), (a_thickstrt a),
    (a_nocvcorrection a), (a_novfc a).
Qed.

Lemma split_header_tail a :
  Py.split ("        0" ++ " " ++ options_of a ++ nl) = "0" :: Py.split (options_of a).
Proof.
  unfold options_of.
  destruct (a_storagecoefficient a), (a_constantcv a), (a_thickstrt a),
    (a_nocvcorrection a), (a_novfc a); vm_compute; reflexivity.
Qed.

(** The header line of a constructed record is one line, and its fields
    are the budget unit, [hdry], 0 and the options. *)
Lemma header_reads a r tok :
  ipakcb r = 0 \/ ipakcb r = 53 -> nplpf r = 0 -> options r = options_of a ->
  padded 1 (format_G (hdry r)) tok ->
  Py.lines (format_header r) = [format_header r] /\
  Py.split (Py.strip (format_header r)) =
    Py.str_of_int (ipakcb r) :: tok :: "0" :: Py.split (options r).
Proof.
  intros Hip Hnp Hopt Hpad. unfold format_header. rewrite Hnp, Hopt. split.
  - rewrite <- !append_assoc. apply lines_one.
    rewrite !no_newline_app, (padded_no_newline _ _ _ Hpad), no_newline_options.
    by destruct Hip as [-> | ->].
  - rewrite split_strip.
    change (Py.format_d 10 0 ++ " " ++ options_of a ++ nl)
      with (String " " ("        0" ++ " " ++ options_of a ++ nl)).
    rewrite (split_before_padded _ _ tok) by done.
    rewrite split_header_tail. by destruct Hip as [-> | ->].
Qed.


(** *** The header *)




(** *** The per-layer arrays and the wetting-control line *)



(** *** The blocks of a layer *)







(** *** The loop over the layers *)






(** *** The constructor on what [load] hands over *)



Lemma Np_int_inject (z : Z) : Np.int (inject_Z z) = z.
Proof. unfold Np.int, inject_Z. simpl. apply Z.quot_1_r. Qed.










(** The options that [load] collects from the header line of a constructed
    record are the five of the record. *)
Lemma parse_options_of a x y z :
  let t := x :: y :: z :: Py.split (options_of a) in
  (if (3 <? length t)%nat then parse_options t
   else mkOpts false false false false false) =
  mkOpts (a_storagecoefficient a) (a_constantcv a) (a_thickstrt a)
         (a_nocvcorrection a) (a_novfc a).
Proof.
  unfold options_of.
  destruct (a_storagecoefficient a), (a_constantcv a), (a_thickstrt a),
    (a_nocvcorrection a), (a_novfc a); vm_compute; reflexivity.
Qed.


(** *** The texts of the file are made of whole lines *)










(** *** The file that [write_file] leaves *)


(** *** The record that [load] builds *)


End Round_trip.

(** ** The lists that the decoder fills *)

Section Slots.

Context {C : Collaborators}.















End Slots.

(** ** The texts that the encoder writes *)

Section Texts.

Context {C : Collaborators}.

Lemma cond_entry_texts (b : bool) fld self k (u : unit) its :
  (if b then entry_items fld (field_of fld self) k else wret tt) = Ok (u, its) ->
  its = if b then [(ItField fld k, get_file_entry (field_of fld self !!! k))] else [].
Proof.
  destruct b.
  - intros H. apply entry_items_inv in H as (x & Hx & ->).
    by rewrite (list_lookup_total_correct _ _ _ Hx).
  - intros H. by inversion H.
Qed.

Lemma layer_items_texts self k (u u' : unit) its :
  layer_items self (negb (forallb id (steady (parent self)))) k u = Ok (u', its) ->
  its = block_texts self k.
Proof.
  unfold layer_items, block_texts. set (tr := negb _). intros H.
  apply wbind_inv in H as (? & i1 & ? & H1 & H & ->).
  apply (cond_entry_texts true Fhk) in H1.
  apply wbind_inv in H as (c & ? & ? & Hc & H & ->). apply wlift_inv in Hc as [Hc ->].
  apply wbind_inv in H as (? & i2 & ? & H2 & H & ->).
  apply (cond_entry_texts _ Fhani) in H2.
  apply wbind_inv in H as (? & i3 & ? & H3 & H & ->).
  apply (cond_entry_texts true Fvka) in H3.
  apply wbind_inv in H as (? & i4 & ? & H4 & H & ->).
  apply wbind_inv in H as (cbd & ? & ? & Hcbd & H & ->). apply wlift_inv in Hcbd as [Hcbd ->].
  apply wbind_inv in H as (? & i5 & ? & H5 & H & ->).
  apply (cond_entry_texts _ Fvkcb) in H5.
  apply wbind_inv in H as (lw & ? & ? & Hlw & H & ->). apply wlift_inv in Hlw as [Hlw ->].
  apply wbind_inv in H as (lt & i6 & ? & Hlt & H & ->).
  apply (cond_entry_texts _ Fwetdry) in H.
  apply index_total in Hc, Hcbd, Hlw.
  assert (H4' : i4 =
    if tr then
      (ItField Fss k, get_file_entry (ss self !!! k)) ::
      (if negb (laytyp self !!! k =? 0)
       then [(ItField Fsy k, get_file_entry (sy self !!! k))] else [])
    else []).
  { destruct tr.
    - apply wbind_inv in H4 as (? & j1 & ? & G1 & H4 & ->).
      apply (cond_entry_texts true Fss) in G1.
      apply wbind_inv in H4 as (t & ? & ? & Ht & H4 & ->). apply wlift_inv in Ht as [Ht ->].
      apply index_total in Ht. apply (cond_entry_texts _ Fsy) in H4.
      by rewrite G1, H4, Ht.
    - by inversion H4. }
  assert (Hw : i6 = [] /\ (negb (lw =? 0) = true -> laytyp self !!! k = lt)).
  { destruct (negb (lw =? 0)).
    - apply wlift_inv in Hlt as [Hlt ->]. apply index_total in Hlt. auto.
    - inversion Hlt. split; [done | discriminate]. }
  destruct Hw as [-> Hw].
  rewrite H1, H2, H3, H4', H5, H. cbn [app].
  unfold emitted, all_fields. fold tr. rewrite Hc, Hcbd, Hlw.
  destruct (Np.lt c 1), tr, (0 <? cbd), (negb (lw =? 0)) eqn:E; simpl;
    try rewrite (Hw eq_refl); try destruct (negb (laytyp self !!! k =? 0)); simpl;
    try destruct (negb (lt =? 0)); reflexivity.
Qed.

Lemma wfor_each_texts self ks (u : unit) its :
  wfor_each ks (layer_items self (negb (forallb id (steady (parent self))))) tt = Ok (u, its) ->
  its = flat_map (block_texts self) ks.
Proof.
  revert its. induction ks as [| k ks IH]; intros its; simpl.
  - intros H. by inversion H.
  - intros H. apply wbind_inv in H as ([] & o1 & o2 & H1 & H2 & ->).
    apply layer_items_texts in H1. apply IH in H2. by rewrite H1, H2.
Qed.

Lemma file_items_texts self (u : unit) its :
  file_items self = Ok (u, its) -> its = file_texts self.
Proof.
  unfold file_items, file_texts, leading_texts. intros H.
  do 7 (apply wbind_inv in H as (? & ? & ? & [= <- <-] & H & ->)).
  apply wbind_inv in H as (? & o1 & o2 & H1 & H2 & ->).
  apply wfor_each_texts in H2. rewrite H2. cbn [app]. do 7 f_equal.
  unfold wetting_texts. destruct (0 <? Np.sum (laywet self)).
  - apply wbind_inv in H1 as (s & ? & ? & Hs & Hw & ->).
    apply wlift_inv in Hs as [Hs ->]. unfold format_wetting in Hs.
    destruct (wetfct self) as [q |]; [| discriminate].
    destruct (iwetit self) as [i |]; [| discriminate].
    destruct (ihdwet self) as [j |]; [| discriminate].
    injection Hs as <-. by inversion Hw.
  - by inversion H1.
Qed.

(** The world that [write_file] leaves when it returns. *)
Lemma write_file_run self chk w w' :
  write_file self chk w = (Ok tt, w') ->
  exists w1,
    (if chk then write_check self w = (Ok tt, w1) else w1 = w) /\
    file_items self = Ok (tt, file_texts self) /\
    w' = close_out (length (handles w1))
           (put_out (length (handles w1)) (file_texts self) (opened (fn_path self) w1)).
Proof.
  rewrite write_file_eq.
  match goal with
  | |- bind ?m ?f w = _ -> _ =>
      destruct (m w) as [[[] | e] w1] eqn:Hchk;
      [rewrite (bind_Ok _ _ _ _ _ Hchk) | rewrite (bind_Raise _ _ _ _ _ Hchk)]
  end; [| discriminate].
  destruct (writable (fn_path self)) eqn:Hwr;
    [| by rewrite (bind_Raise _ _ _ _ _ (open_w_refused (fn_path self) w1 Hwr))].
  rewrite (bind_Ok _ _ _ _ _ (open_w_opened (fn_path self) w1 Hwr)).
  pose proof (sim_body self (length (handles w1)) _ (opened_is_open (fn_path self) w1)) as Hs.
  destruct (file_items self) as [[[] its] | e] eqn:Hits.
  - rewrite Hs. intros [= <-]. exists w1.
    rewrite <- (file_items_texts self _ _ Hits).
    split; [| by split].
    destruct chk; [exact Hchk | by injection Hchk].
  - destruct Hs as [its Hs]. rewrite Hs. discriminate.
Qed.

Lemma fs_close_opened_eq path p its w :
  fs (close_out (length (handles w))
        (put_out (length (handles w)) (p :: its) (opened path w))) =
  <[path := text_of (p :: its)]> (fs w).
Proof.
  unfold close_out, f_close. rewrite handles_put_opened.
  rewrite list_lookup_middle by reflexivity. cbn [h_out h_path fs].
  unfold put_out, opened. cbn [handles]. rewrite list_lookup_middle by reflexivity.
  cbn [fs set_handle]. apply insert_insert_eq.
Qed.

Lemma write_file_texts self chk w w' :
  write_file self chk w = (Ok tt, w') -> written w w' = file_texts self.
Proof.
  intros H. apply write_file_written in H. symmetry. by apply file_items_texts in H.
Qed.

(** The file that a [write_file] that returns leaves at its path. *)
Lemma write_file_fs self chk w w' :
  write_file self chk w = (Ok tt, w') ->
  fs w' !! fn_path self = Some (text_of (file_texts self)).
Proof.
  intros H. apply write_file_run in H as (w1 & _ & _ & ->).
  unfold file_texts, leading_texts. cbn [app].
  rewrite fs_close_opened_eq. apply lookup_insert_eq.
Qed.

End Texts.

(** * The claims *)

Section Claims_encoder.

Context {C : Collaborators}.

(** C3 (what the code does; the claim says [<= 0]).  For every layer [k],
    the hani block is written by the encoder, and read by the decoder -- as a
    raw array or, when [hani] is among the parameter types, as a control
    line and a parameter fill -- exactly when [chani[k] < 1].  So for
    [0 < chani[k] < 1], where the documentation of the class says that CHANI
    is the anisotropy of the whole layer and HANI is not read, the block is
    written and read all the same. *)
Theorem C3_hani_block_iff_chani_below_1 (k : nat) (c : Q) :
  (forall self chk w w',
     write_file self chk w = (Ok tt, w') ->
     (k < nlay (parent self))%nat -> chani self !! k = Some c ->
     (In (ItField Fhani k) (labels_written w w') <-> Np.lt c 1 = true)) /\
  (forall h model ed p w l w',
     load_layers h model ed p w = (Ok l, w') ->
     (k < nlay model)%nat -> p_chani p !! k = Some c ->
     exists evs, events w' = (events w ++ evs)%list /\
       (In (EvUtil2dLoad "hani" k) evs \/ In (EvParameterFill "hani" k) evs
        <-> Np.lt c 1 = true)).
Proof.
  split.
  - intros self chk w w' Hrun Hk Hc.
    rewrite (write_file_labels _ _ _ _ Hrun), in_file_labels_field.
    unfold emitted. rewrite (list_lookup_total_correct _ _ _ Hc). tauto.
  - intros h model ed p w l w' Hrun Hk Hc.
    destruct (load_layers_events _ _ _ _ _ _ _ Hrun) as (evs & Hev & _ & Hall).
    exists evs. split; [done |]. rewrite (Hall l eq_refl).
    rewrite raw_in_all_events, fill_in_all_events. split.
    + intros [(fld & _ & Hr & Hb & Hn) | (fld & _ & Hr & Hb & Hn)].
      * assert (fld = Fhani) as ->.
        { apply (names_disjoint "hani"); [rewrite Hn; apply raw_name_in_names | simpl; tauto]. }
        simpl in Hr. by rewrite (list_lookup_total_correct _ _ _ Hc) in Hr.
      * assert (fld = Fhani) as ->.
        { apply (names_disjoint "hani"); [rewrite Hn; apply fill_name_in_names | simpl; tauto]. }
        simpl in Hr. by rewrite (list_lookup_total_correct _ _ _ Hc) in Hr.
    + intros Hlt.
      assert (Hr : read_for model p k Fhani = true).
      { simpl. by rewrite (list_lookup_total_correct _ _ _ Hc). }
      destruct (by_parameter (p_par_types p) Fhani) eqn:Hb.
      * right. by exists Fhani.
      * left. by exists Fhani.
Qed.

(** C5.  A record of a model with two layers, steady state and confining-bed
    flags [0, 1], with [laywet = [0, 1]] and [laytyp = [0, 1]], is written
    ([write_file] returns, provided the path can be opened, the validation
    does not raise and the wetting values are numbers), and what is written,
    and reaches the file, is: the seven leading items; the wetting-control
    line, with its three values; for layer 0 the blocks hk, hani (when
    [chani[0] < 1]) and vka; for layer 1 the blocks hk, hani (when
    [chani[1] < 1]), vka, vkcb and wetdry.  So there is no ss and no sy
    block, and vkcb and wetdry are written for layer 1 only. *)
Theorem C5_conditional_presence model a w0 self w1 chk w :
  __init__ model a w0 = (Ok self, w1) ->
  nlay model = 2%nat ->
  forallb id (steady model) = true ->
  laycbd model = [0; 1] ->
  laywet self = [0; 1] ->
  laytyp self = [0; 1] ->
  is_Some (wetfct self) -> is_Some (iwetit self) -> is_Some (ihdwet self) ->
  writable (fn_path self) = true ->
  (chk = true -> exists w2, write_check self w = (Ok tt, w2)) ->
  exists w' x i j,
    write_file self chk w = (Ok tt, w') /\
    wetfct self = Some x /\ iwetit self = Some i /\ ihdwet self = Some j /\
    written w w' =
      (leading_texts self ++ [(ItWetting, wetting_line x i j)] ++
       [block_of self Fhk 0] ++
       (if Np.lt (chani self !!! 0%nat) 1 then [block_of self Fhani 0] else []) ++
       [block_of self Fvka 0] ++
       [block_of self Fhk 1] ++
       (if Np.lt (chani self !!! 1%nat) 1 then [block_of self Fhani 1] else []) ++
       [block_of self Fvka 1; block_of self Fvkcb 1; block_of self Fwetdry 1])%list /\
    fs w' !! fn_path self = Some (text_of (written w w')).
Proof.
  intros Hinit Hn Hst Hcbd Hwet Htyp [x Hx] [i Hi] [j Hj] Hwr Hchk.
  pose proof (init_well_shaped _ _ _ _ _ Hinit) as Hshape.
  apply init_inv in Hinit as (Hp & _).
  destruct (write_file_returns self chk w) as [w' Hrun]; try assumption.
  { rewrite Hp, Hcbd, Hn. simpl. lia. }
  { intros _. rewrite Hx, Hi, Hj. by repeat split. }
  exists w', x, i, j. split; [exact Hrun |]. do 3 (split; [assumption |]).
  rewrite (write_file_fs _ _ _ _ Hrun), (write_file_texts _ _ _ _ Hrun).
  split; [| reflexivity].
  unfold file_texts, wetting_texts, block_texts, emitted, all_fields, block_of.
  rewrite Hp, Hn, Hst, Hcbd, Hwet, Htyp, Hx, Hi, Hj.
  cbn [seq flat_map negb andb].
  change (0 <? Np.sum [0; 1]) with true.
  change ([0; 1] !!! 0%nat) with 0. change ([0; 1] !!! 1%nat) with 1.
  cbn [Z.eqb Z.ltb negb andb Z.compare].
  destruct (Np.lt (chani self !!! 0%nat) 1), (Np.lt (chani self !!! 1%nat) 1); reflexivity.
Qed.

(** C6 (amended).  A constructed record whose wetting values are numbers
    whenever the line is due is written (provided the path can be opened
    and the validation does not raise), and the file has the
    wetting-control line exactly when [sum(laywet) > 0], the sum being that
    of the array of 64-bit integers.  When it is positive, what is written
    and reaches the file is the seven leading items, the line of the three
    wetting values, and the blocks of the layers; when it is zero or
    negative, the blocks of the layers follow the seven leading items, and
    no item is a wetting-control line. *)
Theorem C6_wetting_line_iff_positive_sum model a w0 self w1 chk w :
  __init__ model a w0 = (Ok self, w1) ->
  (nlay model <= length (laycbd model))%nat ->
  wetting_ready self ->
  writable (fn_path self) = true ->
  (chk = true -> exists w2, write_check self w = (Ok tt, w2)) ->
  exists w', write_file self chk w = (Ok tt, w') /\
    fs w' !! fn_path self = Some (text_of (written w w')) /\
    if 0 <? Np.sum (laywet self) then
      exists x i j,
        wetfct self = Some x /\ iwetit self = Some i /\ ihdwet self = Some j /\
        written w w' =
          (leading_texts self ++ [(ItWetting, wetting_line x i j)] ++
           flat_map (block_texts self) (seq 0 (nlay model)))%list
    else
      written w w' =
        (leading_texts self ++ flat_map (block_texts self) (seq 0 (nlay model)))%list /\
      ~ In ItWetting (labels_written w w').
Proof.
  intros Hinit Hcbd Hready Hwr Hchk.
  pose proof (init_well_shaped _ _ _ _ _ Hinit) as Hshape.
  apply init_inv in Hinit as (Hp & _).
  destruct (write_file_returns self chk w) as [w' Hrun]; try assumption.
  { by rewrite Hp. }
  exists w'. split; [exact Hrun |].
  rewrite (write_file_fs _ _ _ _ Hrun), (write_file_texts _ _ _ _ Hrun).
  split; [reflexivity |].
  destruct (0 <? Np.sum (laywet self)) eqn:E.
  - destruct Hready as ([x Hx] & [i Hi] & [j Hj]); [lia |].
    exists x, i, j. do 3 (split; [assumption |]).
    unfold file_texts, wetting_texts. by rewrite E, Hx, Hi, Hj, Hp.
  - split.
    + unfold file_texts, wetting_texts. by rewrite E, Hp.
    + rewrite (write_file_labels _ _ _ _ Hrun), in_file_labels_wetting. lia.
Qed.

(** C7 (amended).  When [write_file] returns it has opened one file handle,
    on the path of the package, and has closed it, and the handles that
    existed before are as they were; when the validation raises,
    [write_file] raises the same exception and has opened no handle. *)
Theorem C7_write_file_closes_on_return self chk w :
  (forall w', write_file self chk w = (Ok tt, w') ->
     exists hd, handles w' = (handles w ++ [hd])%list /\
                h_path hd = fn_path self /\ h_closed hd = true) /\
  (forall e w1, chk = true -> write_check self w = (Raise e, w1) ->
     write_file self chk w = (Raise e, w1) /\ handles w1 = handles w).
Proof.
  split.
  - intros w' Hrun.
    apply write_file_cases in Hrun
      as [(e & _ & [=] & _) | [(_ & [=] & _) |
          [(its & _ & _ & Hh) | (e & its & _ & [=] & _)]]].
    eexists. split; [exact Hh | by split].
  - intros e w1 -> Hc. split.
    + rewrite write_file_eq. by apply bind_Raise.
    + by apply check_world in Hc as [? _].
Qed.

(** C8.  The budget flag of a constructed record is 0 when the value
    supplied is 0 and 53 for every other integer.  And [load] normalises
    before it constructs: in every run of [load] that returns, with [raw]
    the first field of the header line that it read, the value that it
    hands to the constructor as [ipakcb] is 0 when [raw] is 0 and 53
    otherwise, and so is the flag of the record. *)
Theorem C8_ipakcb_normalised :
  (forall model a w r w',
     __init__ model a w = (Ok r, w') ->
     ipakcb r = if a_ipakcb a =? 0 then 0 else 53) /\
  (forall f model ed chk w r w',
     load f model ed chk w = (Ok r, w') ->
     exists h w0 hdr p l line w1 s raw,
       load_run f model ed chk w r w' h w0 hdr p l /\
       load_header_line h w0 = (Ok line, w1) /\
       Py.split (Py.strip line) !! 0%nat = Some s /\ Py.int s = Some raw /\
       a_ipakcb (load_args p l) = (if raw =? 0 then 0 else 53) /\
       ipakcb r = (if raw =? 0 then 0 else 53)).
Proof.
  split.
  - intros model a w r w' H. by apply init_inv in H as (_ & _ & H & _).
  - intros f model ed chk w r w' H.
    apply load_inv in H as (h & w0 & [[[ip hd'] np] t] & w1 & p & w2 & l & w3 &
                            H0 & H1 & H2 & H3 & H4).
    pose proof (load_item1_inv _ _ _ _ _ _ _ _ H1)
      as (line & wl & s0 & raw & s2 & Hl & -> & Hs0 & Hraw & Hip & _).
    pose proof (load_items_inv _ _ _ _ _ _ _ _ _ H2) as (Hpi & _).
    pose proof (load_finish_inv _ _ _ _ _ _ _ H4) as [w4 H5].
    exists h, w0, (ip, hd', np, Py.split (Py.strip line)), p, l, line, wl, s0, raw.
    split; [by exists w1, w2, w3 |].
    do 3 (split; [assumption |]).
    assert (Ha : a_ipakcb (load_args p l) = (if raw =? 0 then 0 else 53)).
    { simpl. by rewrite Hpi. }
    split; [exact Ha |].
    apply init_inv in H5 as (_ & _ & H5 & _). rewrite H5, Ha.
    by destruct (raw =? 0).
Qed.

(** C10.  A constructed record has [nplpf = 0]; so has a record that [load]
    returns, whatever [NPLPF] the header of its file declares; and when such
    a record is written, the third field of the header line is the ten
    columns of a 0. *)
Theorem C10_nplpf_always_zero :
  (forall model a w r w', __init__ model a w = (Ok r, w') -> nplpf r = 0) /\
  (forall f model ed chk w r w', load f model ed chk w = (Ok r, w') -> nplpf r = 0) /\
  (forall self chk w w',
     nplpf self = 0 -> write_file self chk w = (Ok tt, w') ->
     written w w' !! 1%nat =
     Some (ItHeader,
           Py.format_d 10 (ipakcb self) ++ format_G (hdry self) ++ "         0" ++
           " " ++ options self ++ nl)).
Proof.
  split; [| split].
  - intros model a w r w' H. by apply init_inv in H as (_ & H & _).
  - intros f model ed chk w r w' H.
    apply load_inv in H as (h & w0 & hdr & w1 & p & w2 & l & w3 & _ & _ & _ & _ & H4).
    apply load_finish_inv in H4 as [w4 H4]. by apply init_inv in H4 as (_ & H & _).
  - intros self chk w w' Hn Hrun. apply write_file_written in Hrun.
    apply file_items_header in Hrun. rewrite Hrun. unfold format_header.
    by rewrite Hn.
Qed.

End Claims_encoder.

Section Claims_decoder.

Context {C : Collaborators}.

Lemma contains_nocvcorrection a :
  Py.contains "NOCVCORRECTION" (options_of a) = a_nocvcorrection a.
Proof.
  unfold options_of.
  destruct (a_storagecoefficient a), (a_constantcv a), (a_thickstrt a),
    (a_nocvcorrection a), (a_novfc a); vm_compute; reflexivity.
Qed.

(** The fifth option.  [load] calls the constructor without the
    [nocvcorrection] flag that it has parsed, so no record that [load]
    returns, from whatever file, has the options of a record constructed
    with [nocvcorrection=True]. *)
Lemma load_drops_nocvcorrection model a w0 self w1 f model' ed chk w r w' :
  __init__ model a w0 = (Ok self, w1) ->
  a_nocvcorrection a = true ->
  load f model' ed chk w = (Ok r, w') ->
  options r <> options self.
Proof.
  intros Hinit Hnocv Hload Heq.
  apply init_inv in Hinit as (_ & _ & _ & _ & _ & _ & _ & Hopt & _).
  apply load_inv in Hload as (h & wa & hdr & wb & p & wc & l & wd & _ & _ & _ & _ & H4).
  apply load_finish_inv in H4 as [w4 H4].
  apply init_inv in H4 as (_ & _ & _ & _ & _ & _ & _ & Hopt' & _).
  pose proof (contains_nocvcorrection a) as H1.
  pose proof (contains_nocvcorrection (load_args p l)) as H2.
  rewrite <- Hopt, <- Heq, Hopt', H2, Hnocv in H1. discriminate.
Qed.

Lemma by_parameter_nil fld : by_parameter [] fld = false.
Proof. by destruct fld. Qed.

(** C2 (amended).  In the decoder: (i) when the [NPLPF] parsed from the
    header is 0 (or negative) the parameter loader is called on no path, and
    the set of parameter types is empty; (ii) with an empty set of parameter
    types, the parameter fill is called on no path and every block that is
    read is read by the array reader; (iii) in general, for a field other
    than wetdry one of whose names is among the parameter types, on every
    layer where the block of the field is read the array reader is not
    called for it and one line is consumed and the parameter fill called
    instead; every other block, and the wetdry block whatever the parameter
    types, is read by the array reader. *)
Theorem C2_parameter_branches h model ed :
  (forall ipakcb hdry nplpf t w r w',
     nplpf <= 0 ->
     load_items h model (ipakcb, hdry, nplpf, t) w = (r, w') ->
     (exists evs, events w' = (events w ++ evs)%list /\
                  forall n, ~ In (EvMfparLoad n) evs) /\
     (forall p, r = Ok p -> p_par_types p = [])) /\
  (forall p w r w',
     p_par_types p = [] ->
     load_layers h model ed p w = (r, w') ->
     exists evs, events w' = (events w ++ evs)%list /\
       (forall nm k, ~ In (EvParameterFill nm k) evs) /\
       (forall l k fld, r = Ok l -> (k < nlay model)%nat ->
          read_for model p k fld = true ->
          In (EvUtil2dLoad (raw_name p k fld) k) evs)) /\
  (forall p w l w' k fld,
     load_layers h model ed p w = (Ok l, w') ->
     (k < nlay model)%nat ->
     read_for model p k fld = true ->
     exists evs, events w' = (events w ++ evs)%list /\
       if by_parameter (p_par_types p) fld then
         (forall nm, In nm (names_of fld) -> ~ In (EvUtil2dLoad nm k) evs) /\
         consecutive [EvReadline; EvParameterFill (fill_name (p_par_types p) fld) k] evs
       else
         In (EvUtil2dLoad (raw_name p k fld) k) evs /\
         (forall nm, In nm (names_of fld) -> ~ In (EvParameterFill nm k) evs)).
Proof.
  split; [| split].
  - intros ipakcb hdry nplpf t w r w' Hn Hrun. split.
    + destruct (load_items_no_mfpar h model ipakcb hdry nplpf t Hn _ _ _ Hrun)
        as (evs & Hev & HP).
      exists evs. split; [done |]. intros n Hin.
      rewrite Forall_forall in HP. apply list_elem_of_In in Hin.
      by apply (HP _ Hin n).
    + intros p ->. by apply load_items_inv in Hrun as (_ & _ & _ & [? _]).
  - intros p w r w' Hpt Hrun.
    destruct (load_layers_events _ _ _ _ _ _ _ Hrun) as (evs & Hev & [tl Hpre] & Hall).
    exists evs. split; [done |]. split.
    + intros nm k Hin.
      assert (Hin' : In (EvParameterFill nm k) (all_events model p)).
      { rewrite Hpre. apply in_app_iff. by left. }
      apply fill_in_all_events in Hin' as (fld & _ & _ & Hb & _).
      by rewrite Hpt, by_parameter_nil in Hb.
    + intros l k fld -> Hk Hr. rewrite (Hall l eq_refl).
      apply raw_in_all_events. exists fld. by rewrite Hpt, by_parameter_nil.
  - intros p w l w' k fld Hrun Hk Hr.
    destruct (load_layers_events _ _ _ _ _ _ _ Hrun) as (evs & Hev & _ & Hall).
    exists evs. split; [done |]. rewrite (Hall l eq_refl).
    destruct (by_parameter (p_par_types p) fld) eqn:Hb.
    + split; [| by apply consecutive_fill].
      intros nm Hnm Hin. apply raw_in_all_events in Hin as (fld' & _ & _ & Hb' & ->).
      assert (fld = fld') as <-.
      { eapply names_disjoint; [exact Hnm | apply raw_name_in_names]. }
      congruence.
    + split; [apply raw_in_all_events; by exists fld |].
      intros nm Hnm Hin. apply fill_in_all_events in Hin as (fld' & _ & _ & Hb' & ->).
      assert (fld = fld') as <-.
      { eapply names_disjoint; [exact Hnm | apply fill_name_in_names]. }
      congruence.
Qed.




End Claims_decoder.

Section Claims_round_trip.

Context {C : Collaborators}.


End Claims_round_trip.

(** ** The validator *)

Section Validator_lemmas.

Import Validator.

Lemma local_const {A : Type} (o : outcome A) : local (fun _ => lift o).
Proof. intros s s' c. by exists o, c. Qed.

Lemma local_ret {A : Type} (a : A) : local (fun _ => ret a).
Proof. intros s s' c. by exists (Ok a), c. Qed.

Lemma local_get : local (fun d => get d).
Proof.
  intros s s' c. exists (Ok c), c. unfold get.
  by rewrite !list_lookup_middle by reflexivity.
Qed.

Lemma insert_last (s : store) (c a : array3) :
  <[length s := a]> (s ++ [c])%list = (s ++ [a])%list.
Proof.
  replace (length s) with (length s + 0)%nat by lia.
  by rewrite insert_app_r.
Qed.

Lemma local_set (a : array3) : local (fun d => set d a).
Proof.
  intros s s' c. exists (Ok tt), a. unfold set. by rewrite !insert_last.
Qed.

Lemma local_bind {A B : Type} (m : nat -> ST store A) (f : A -> nat -> ST store B) :
  local m -> (forall a, local (f a)) -> local (fun d => bind (m d) (fun a => f a d)).
Proof.
  intros Hm Hf s s' c. destruct (Hm s s' c) as (r & c1 & H1 & H2).
  unfold bind. rewrite H1, H2. destruct r as [a | e].
  - apply Hf.
  - by exists (Raise e), c1.
Qed.

Lemma local_if {A : Type} (b : bool) (m1 m2 : nat -> ST store A) :
  local m1 -> local m2 -> local (fun d => if b then m1 d else m2 d).
Proof. by destruct b. Qed.

Lemma local_for_each {A : Type} (body : nat -> nat -> A -> ST store A) ks acc :
  (forall k a, local (fun d => body d k a)) ->
  local (fun d => for_each ks (body d) acc).
Proof.
  intros Hb. revert acc. induction ks as [| k ks IH]; intros acc; simpl.
  - apply local_ret.
  - apply (local_bind (fun d => body d k acc) (fun a d => for_each ks (body d) a)).
    + apply Hb.
    + intros a. apply IH.
Qed.

Lemma local_fill_inactive inactive v : local (fun d => fill_inactive d inactive v).
Proof.
  unfold fill_inactive.
  apply (local_bind (fun d => get d) (fun a d => a' <- lift (mask_assign a inactive v) ;; set d a'));
    [apply local_get | intros a].
  apply (local_bind (fun _ => lift (mask_assign a inactive v)) (fun a' d => set d a'));
    [apply local_const | intros a'; apply local_set].
Qed.

Lemma local_fill_layer k : local (fun d => fill_layer d k).
Proof.
  unfold fill_layer.
  apply (local_bind (fun d => get d) (fun a d => set d (layer_assign a k 1)));
    [apply local_get | intros a; apply local_set].
Qed.

Lemma local_min_of : local (fun d => min_of d).
Proof.
  unfold min_of.
  apply (local_bind (fun d => get d) (fun a _ => lift (amin a)));
    [apply local_get | intros a; apply local_const].
Qed.

Lemma local_shape0 : local (fun d => shape0 d).
Proof.
  unfold shape0.
  apply (local_bind (fun d => get d) (fun a _ => ret (length a)));
    [apply local_get | intros a; apply local_ret].
Qed.

Section With_collaborators.

Context {C : Collaborators}.

Lemma local_arraylist P names t1 : local (fun d => arraylist d P names t1).
Proof.
  unfold arraylist.
  apply (local_bind (fun d => get d)
           (fun a _ => ret (level1_arraylist (where_ P a) a names t1)));
    [apply local_get | intros a; apply local_ret].
Qed.

(** The three shapes of a test: the error branch with its detailed list,
    and the loop that excludes layers. *)
Lemma local_error (b : bool) P names (r : report) (t' : string) :
  local (fun d =>
           t1 <- (if b then arraylist d P names (t1 r) else ret (t1 r)) ;;
           ret (mkReport true t' t1)).
Proof.
  apply (local_bind (fun d => if b then arraylist d P names (t1 r) else ret (t1 r))
           (fun t1 _ => ret (mkReport true t' t1))).
  - apply local_if; [apply local_arraylist | apply local_ret].
  - intros x. apply local_ret.
Qed.

Lemma local_exclude {A : Type} (flags : list A) (skip : A -> bool) n :
  local (fun d =>
           for_range n
             (fun k use_array =>
                c <- lift (index flags k) ;;
                if skip c then fill_layer d k ;; ret use_array
                else ret true)
             false).
Proof.
  unfold for_range.
  apply (local_for_each
           (fun d k use_array =>
              c <- lift (index flags k) ;;
              if skip c then fill_layer d k ;; ret use_array else ret true)).
  intros k a.
  apply (local_bind (fun _ => lift (index flags k))
           (fun c d => if skip c then fill_layer d k ;; ret a else ret true));
    [apply local_const | intros c].
  apply local_if; [| apply local_ret].
  apply (local_bind (fun d => fill_layer d k) (fun _ _ => ret a));
    [apply local_fill_layer | intros _; apply local_ret].
Qed.

Lemma stable_ret self {A : Type} (a : A) : stable self (ret a).
Proof. intros s s' _. exists (Ok a), [], []. by rewrite !app_nil_r. Qed.

Lemma stable_lift self {A : Type} (o : outcome A) : stable self (lift o).
Proof. intros s s' _. exists o, [], []. by rewrite !app_nil_r. Qed.

Lemma agree_app self s s' e e' : agree self s s' -> agree self (s ++ e) (s' ++ e').
Proof.
  intros H fld. destruct (H fld) as (c & H1 & H2). exists c.
  split; by apply lookup_app_l_Some.
Qed.

Lemma stable_bind self {A B : Type} (m : ST store A) (f : A -> ST store B) :
  stable self m -> (forall a, stable self (f a)) -> stable self (bind m f).
Proof.
  intros Hm Hf s s' Hag. destruct (Hm s s' Hag) as (r & e & e' & H1 & H2).
  unfold bind. rewrite H1, H2. destruct r as [a | x].
  - destruct (Hf a _ _ (agree_app self s s' e e' Hag)) as (r & e1 & e1' & G1 & G2).
    exists r, (e ++ e1)%list, (e' ++ e1')%list. by rewrite G1, G2, !app_assoc.
  - by exists (Raise x), e, e'.
Qed.

Lemma stable_block self fld {A : Type} (body : nat -> ST store A) :
  local body -> stable self (bind (Util3d_array (s_loc self fld)) body).
Proof.
  intros Hb s s' Hag. destruct (Hag fld) as (c & H1 & H2).
  destruct (Hb s s' c) as (r & c' & G1 & G2).
  exists r, [c'], [c']. unfold Util3d_array, get, alloc, bind.
  rewrite H1, H2. simpl. by rewrite G1, G2.
Qed.

(** A test without exclusion of layers: hk, vka and ss. *)
Lemma local_plain inactive v (lt : Q -> bool) (b : bool) P names (r : report) t' (r' : report) :
  local (fun d =>
           fill_inactive d inactive v ;;
           m <- min_of d ;;
           if lt m then
             t1 <- (if b then arraylist d P names (t1 r) else ret (t1 r)) ;;
             ret (mkReport true t' t1)
           else ret r').
Proof.
  apply (local_bind (fun d => fill_inactive d inactive v)
           (fun _ d =>
              m <- min_of d ;;
              if lt m then
                t1 <- (if b then arraylist d P names (t1 r) else ret (t1 r)) ;;
                ret (mkReport true t' t1)
              else ret r'));
    [apply local_fill_inactive | intros _].
  apply (local_bind (fun d => min_of d)
           (fun m d =>
              if lt m then
                t1 <- (if b then arraylist d P names (t1 r) else ret (t1 r)) ;;
                ret (mkReport true t' t1)
              else ret r'));
    [apply local_min_of | intros m].
  apply local_if; [apply local_error | apply local_ret].
Qed.

(** A test with exclusion of layers: hani, vkcb and sy. *)
Lemma local_excluding {A : Type} inactive v (flags : list A) (skip : A -> bool)
    (lt : Q -> bool) (b : bool) P names (r : report) t' (r' : report) :
  local (fun d =>
           fill_inactive d inactive v ;;
           n <- shape0 d ;;
           use_array <- for_range n
                          (fun k use_array =>
                             c <- lift (index flags k) ;;
                             if skip c then fill_layer d k ;; ret use_array
                             else ret true)
                          false ;;
           m <- min_of d ;;
           if lt m then
             t1 <- (if b then arraylist d P names (t1 r) else ret (t1 r)) ;;
             ret (mkReport true t' t1)
           else if use_array : bool then ret r' else ret r).
Proof.
  apply (local_bind (fun d => fill_inactive d inactive v)
           (fun _ d =>
              n <- shape0 d ;;
              use_array <- for_range n
                             (fun k use_array =>
                                c <- lift (index flags k) ;;
                                if skip c then fill_layer d k ;; ret use_array
                                else ret true)
                             false ;;
              m <- min_of d ;;
              if lt m then
                t1 <- (if b then arraylist d P names (t1 r) else ret (t1 r)) ;;
                ret (mkReport true t' t1)
              else if use_array : bool then ret r' else ret r));
    [apply local_fill_inactive | intros _].
  apply (local_bind (fun d => shape0 d)
           (fun n d =>
              use_array <- for_range n
                             (fun k use_array =>
                                c <- lift (index flags k) ;;
                                if skip c then fill_layer d k ;; ret use_array
                                else ret true)
                             false ;;
              m <- min_of d ;;
              if lt m then
                t1 <- (if b then arraylist d P names (t1 r) else ret (t1 r)) ;;
                ret (mkReport true t' t1)
              else if use_array : bool then ret r' else ret r));
    [apply local_shape0 | intros n].
  apply (local_bind
           (fun d => for_range n
                       (fun k use_array =>
                          c <- lift (index flags k) ;;
                          if skip c then fill_layer d k ;; ret use_array
                          else ret true)
                       false)
           (fun use_array d =>
              m <- min_of d ;;
              if lt m then
                t1 <- (if b then arraylist d P names (t1 r) else ret (t1 r)) ;;
                ret (mkReport true t' t1)
              else if use_array : bool then ret r' else ret r));
    [apply local_exclude | intros use_array].
  apply (local_bind (fun d => min_of d)
           (fun m d =>
              if lt m then
                t1 <- (if b then arraylist d P names (t1 r) else ret (t1 r)) ;;
                ret (mkReport true t' t1)
              else if use_array : bool then ret r' else ret r));
    [apply local_min_of | intros m].
  apply local_if; [apply local_error |].
  apply local_if; apply local_ret.
Qed.

Lemma stable_check self level : stable self (check self level).
Proof.
  unfold check, check_with.
  apply stable_bind; [apply stable_lift | intros nm].
  apply stable_bind.
  { unfold check_hk. apply stable_block.
    apply (local_plain _ _ (fun m => Np.lt m 0)). }
  intros r1. apply stable_bind.
  { unfold check_hani. apply stable_block.
    apply (local_excluding _ _ (s_chani self) (fun c => Np.gt c 0) (fun m => Np.lt m 0)). }
  intros r2. apply stable_bind.
  { unfold check_vka. apply stable_block.
    apply (local_plain _ _ (fun m => Np.le m 0)). }
  intros r3. apply stable_bind.
  { unfold check_vkcb. apply stable_block.
    apply (local_excluding _ _ (s_laycbd self) (fun c => c =? 0) (fun m => Np.lt m 0)). }
  intros r4. apply stable_bind; [| intros r5; apply stable_ret].
  destruct (negb (forallb id (s_steady self))); [| apply stable_ret].
  apply stable_bind.
  { unfold check_ss. apply stable_block.
    apply (local_plain _ _ (fun m => Np.lt m 0)). }
  intros r5. unfold check_sy. apply stable_block.
  apply (local_excluding _ _ (s_laytyp self) (fun c => c =? 0) (fun m => Np.lt m 0)).
Qed.

(** C9.  When the fields of the record are in the store, running the
    validator leaves every array that was in the store as it was -- the
    arrays of hk, hani, vka, vkcb, ss, sy and wetdry among them: the
    overrides for inactive cells and excluded layers go to arrays that the
    check has made -- and running it again at the same level gives the same
    report text (or the same exception). *)
Theorem C9_check_leaves_fields_unchanged self level s r s1 :
  stored_in self s ->
  check self level s = (r, s1) ->
  (forall l a, s !! l = Some a -> s1 !! l = Some a) /\
  (forall fld, s1 !! s_loc self fld = s !! s_loc self fld) /\
  fst (check self level s1) = r.
Proof.
  intros Hin Hrun.
  assert (Hag : agree self s s).
  { intros fld. destruct (Hin fld) as [c Hc]. by exists c. }
  destruct (stable_check self level s s Hag) as (r' & e & _ & H1 & _).
  rewrite H1 in Hrun. injection Hrun as <- <-.
  split; [| split].
  - intros l a Hl. by apply lookup_app_l_Some.
  - intros fld. destruct (Hin fld) as [c Hc]. rewrite Hc. by apply lookup_app_l_Some.
  - destruct (stable_check self level s (s ++ e)%list) as (r2 & e1 & e2 & G1 & G2).
    { pose proof (agree_app self s s [] e Hag) as H. by rewrite List.app_nil_r in H. }
    rewrite G2. simpl. rewrite G1 in H1. by injection H1 as ->.
Qed.

End With_collaborators.

End Validator_lemmas.

(** * Further properties *)

(** ** The encoder *)

Section More_encoder.

Context {C : Collaborators}.

(** X1.  Whenever [write_file] returns, the texts it has handed to the
    handle are, in this order: the heading, the header line, the five
    per-layer arrays, the wetting-control line of the three wetting values
    when [sum(laywet) > 0] (the sum of the array of 64-bit integers), and
    then layer by layer the blocks hk, hani (when [chani[k] < 1]), vka, ss
    (transient model), sy (transient model and [laytyp[k] != 0]), vkcb
    ([laycbd[k] > 0]) and wetdry ([laywet[k] != 0] and [laytyp[k] != 0]),
    each block being the file entry of layer [k] of its field. *)
Theorem write_file_writes_the_items_in_order self chk w w' :
  write_file self chk w = (Ok tt, w') ->
  written w w' = file_texts self.
Proof. apply write_file_texts. Qed.

(** X2.  When [write_file] returns, the file of the package holds the
    concatenation of these texts, whatever it held before, and no other
    file differs from what the validation left (from the files of the
    call, when [check] is off). *)
Theorem write_file_replaces_one_file self chk w w' :
  write_file self chk w = (Ok tt, w') ->
  exists w1,
    (if chk then write_check self w = (Ok tt, w1) else w1 = w) /\
    fs w' = <[fn_path self := text_of (file_texts self)]> (fs w1).
Proof.
  intros H. apply write_file_run in H as (w1 & Hchk & _ & ->).
  exists w1. split; [exact Hchk |].
  unfold file_texts, leading_texts. cbn [app]. apply fs_close_opened_eq.
Qed.

(** X3.  Writing is idempotent on the files: when [write_file] has
    returned with the validation off, calling it again returns again and
    leaves every file as the first call left it. *)
Theorem write_file_twice self w w1 :
  write_file self false w = (Ok tt, w1) ->
  exists w2, write_file self false w1 = (Ok tt, w2) /\ fs w2 = fs w1.
Proof.
  intros H. pose proof (write_file_writable _ _ _ _ H) as Hwr.
  apply write_file_run in H as (w0 & -> & Hits & ->).
  set (w1 := close_out _ _).
  assert (Hrun : write_file self false w1 =
                 (Ok tt, close_out (length (handles w1))
                           (put_out (length (handles w1)) (file_texts self)
                              (opened (fn_path self) w1)))).
  { rewrite write_file_eq.
    rewrite (bind_Ok _ _ _ _ _ (eq_refl : ret tt w1 = (Ok tt, w1))).
    rewrite (bind_Ok _ _ _ _ _ (open_w_opened (fn_path self) w1 Hwr)).
    pose proof (sim_body self (length (handles w1)) _ (opened_is_open (fn_path self) w1)) as Hs.
    by rewrite Hits in Hs. }
  eexists. split; [exact Hrun |].
  unfold file_texts, leading_texts. cbn [app].
  rewrite (fs_close_opened_eq (fn_path self) _ _ w1).
  subst w1. unfold file_texts, leading_texts. cbn [app].
  rewrite fs_close_opened_eq. apply insert_insert_eq.
Qed.

(** X4.  When the wetting-control line is due ([sum(laywet) > 0], the sum
    of the array of 64-bit integers) and one of [wetfct], [iwetit],
    [ihdwet] is [None], [write_file] (called with the validation off, on a
    path that can be opened) raises [TypeError] at the formatting of the
    line: by then it has opened the file and written the seven leading
    items, and the handle is left open. *)
Theorem write_file_wetting_none self w :
  0 < Np.sum (laywet self) ->
  wetfct self = None \/ iwetit self = None \/ ihdwet self = None ->
  writable (fn_path self) = true ->
  exists w' hd,
    write_file self false w = (Raise TypeError, w') /\
    handles w' = (handles w ++ [hd])%list /\
    h_closed hd = false /\
    h_out hd = leading_texts self.
Proof.
  intros Hsum Hnone Hwr.
  assert (Hf : format_wetting self = Raise TypeError).
  { unfold format_wetting.
    destruct Hnone as [-> | [H | H]]; [done | |];
      destruct (wetfct self); [| done | | done];
      destruct (iwetit self); try done; try discriminate H;
      destruct (ihdwet self); try done; discriminate H. }
  set (h := length (handles w)).
  exists (put_out h (leading_texts self) (opened (fn_path self) w)),
         (Handle (fn_path self) false (leading_texts self) []).
  split; [| split; [apply handles_put_opened | by split]].
  rewrite write_file_eq.
  rewrite (bind_Ok _ _ _ _ _ (eq_refl : ret tt w = (Ok tt, w))).
  rewrite (bind_Ok _ _ _ _ _ (open_w_opened (fn_path self) w Hwr)).
  fold h. unfold write_body.
  assert (Hstep : forall pre lbl s (k : M unit) r,
            k (put_out h (pre ++ [(lbl, s)]) (opened (fn_path self) w)) = r ->
            (f_write h lbl s ;; k) (put_out h pre (opened (fn_path self) w)) = r).
  { intros pre lbl s k r Hk.
    rewrite (bind_Ok _ _ _ _ _ (f_write_put h lbl s _
               (put_out_open _ _ _ (opened_is_open (fn_path self) w)))).
    by rewrite put_out_app. }
  rewrite <- (put_out_nil h (opened (fn_path self) w)) at 1.
  do 7 (apply Hstep; cbn [app]).
  apply Z.ltb_lt in Hsum. rewrite Hsum, Hf. reflexivity.
Qed.

(** X5.  On every exit of [write_file], return or raise, the validator
    has been called once, at level 1, when [check] is on, and not at all
    when it is off; and [write_file] has not called [add_package] or
    [add_pop_key_list], and no reader ([readline], [read1d], [mfpar],
    [Util2d.load]). *)
Theorem write_file_validates_once self chk w r w' :
  write_file self chk w = (r, w') ->
  events w' = (events w ++ if chk then [EvCheck 1] else [])%list.
Proof.
  rewrite write_file_eq.
  match goal with
  | |- bind ?m ?f w = _ -> _ =>
      destruct (m w) as [[[] | e] w1] eqn:Hchk;
      [rewrite (bind_Ok _ _ _ _ _ Hchk) | rewrite (bind_Raise _ _ _ _ _ Hchk)]
  end.
  - assert (He : events w1 = (events w ++ if chk then [EvCheck 1] else [])%list).
    { destruct chk; [by apply check_world in Hchk as [_ ?] |].
      injection Hchk as <-. by rewrite app_nil_r. }
    destruct (writable (fn_path self)) eqn:Hwr;
      [| rewrite (bind_Raise _ _ _ _ _ (open_w_refused (fn_path self) w1 Hwr));
         by intros [= _ <-]].
    rewrite (bind_Ok _ _ _ _ _ (open_w_opened (fn_path self) w1 Hwr)).
    pose proof (sim_body self (length (handles w1)) _ (opened_is_open (fn_path self) w1)) as Hs.
    destruct (file_items self) as [[[] its] | e].
    + rewrite Hs. intros [= _ <-]. by rewrite events_close_out, events_put_out.
    + destruct Hs as [its Hs]. rewrite Hs. intros [= _ <-]. by rewrite events_put_out.
  - intros [= _ <-]. destruct chk; [| discriminate].
    by apply check_world in Hchk as [_ ?].
Qed.

End More_encoder.

(** ** The decoder *)

Section More_decoder.

Context {C : Collaborators}.

(** *** The options *)

Lemma fold_parse_option (l : list string) :
  forall o,
    fold_left parse_option l o =
    mkOpts (o_storagecoefficient o || sets "STORAGECOEFFICIENT" l)
           (o_constantcv o || sets "CONSTANTCV" l)
           (o_thickstrt o || sets "THICKSTRT" l)
           (o_nocvcorrection o || sets "NOCVCORRECTION" l)
           (o_novfc o || sets "NOVFC" l).
Proof.
  induction l as [| tk l IH]; intros o.
  - destruct o. simpl. by rewrite !orb_false_r.
  - cbn [fold_left]. rewrite IH. unfold parse_option, sets, option_of, option_names.
    cbn [existsb List.find].
    destruct (Py.contains "STORAGECOEFFICIENT" (Py.upper tk));
      [| destruct (Py.contains "CONSTANTCV" (Py.upper tk));
         [| destruct (Py.contains "THICKSTRT" (Py.upper tk));
            [| destruct (Py.contains "NOCVCORRECTION" (Py.upper tk));
               [| destruct (Py.contains "NOVFC" (Py.upper tk))]]]];
      destruct o as [[] [] [] [] []]; reflexivity.
Qed.

(** X6.  The options that [load] collects from the fields of the header
    line after the third: a field sets the first of STORAGECOEFFICIENT,
    CONSTANTCV, THICKSTRT, NOCVCORRECTION, NOVFC that it contains, in
    whatever case it is written, and that one only; a field that contains
    none of them is ignored; and an option is on exactly when some field
    sets it. *)
Theorem parse_options_by_first_match (t : list string) :
  parse_options t =
  mkOpts (sets "STORAGECOEFFICIENT" (drop 3 t))
         (sets "CONSTANTCV" (drop 3 t))
         (sets "THICKSTRT" (drop 3 t))
         (sets "NOCVCORRECTION" (drop 3 t))
         (sets "NOVFC" (drop 3 t)).
Proof. unfold parse_options. by rewrite fold_parse_option. Qed.

(** X7.  The header line that [write_file] writes for a constructed
    record, whose [hdry] is printed as a word after a blank, is split by
    [load] into fields from which it collects exactly the five options that
    the constructor was given, NOCVCORRECTION among them. *)
Theorem header_options_read_back model a w0 r w1 tok :
  __init__ model a w0 = (Ok r, w1) ->
  padded 1 (format_G (hdry r)) tok ->
  let t := Py.split (Py.strip (format_header r)) in
  (if (3 <? length t)%nat then parse_options t
   else mkOpts false false false false false) =
  mkOpts (a_storagecoefficient a) (a_constantcv a) (a_thickstrt a)
         (a_nocvcorrection a) (a_novfc a).
Proof.
  intros Hinit Hpad t. subst t.
  apply init_inv in Hinit as (_ & Hnp & Hip & _ & _ & _ & _ & Hopt & _).
  assert (Hip' : ipakcb r = 0 \/ ipakcb r = 53).
  { rewrite Hip. destruct (a_ipakcb a =? 0); auto. }
  destruct (header_reads a r tok Hip' Hnp Hopt Hpad) as [_ ->].
  rewrite Hopt. apply parse_options_of.
Qed.

(** *** The header *)

Lemma readline_run h l rest w :
  at_lines w h (l :: rest) ->
  exists w2, f_readline h w = (Ok l, w2) /\ at_lines w2 h rest /\
             events w2 = (events w ++ [EvReadline])%list.
Proof.
  intros (hd & H1 & H2 & H3).
  exists (set_handle h (Handle (h_path hd) false (h_out hd) rest)
            (World (fs w) (handles w) (events w ++ [EvReadline]))).
  split; [| split; [| reflexivity]].
  - unfold f_readline, bind, log, with_lines. cbn [handles]. by rewrite H1, H2, H3.
  - exists (Handle (h_path hd) false (h_out hd) rest). split; [| done].
    unfold set_handle. cbn [handles].
    apply list_lookup_insert_eq. by eapply lookup_lt_Some.
Qed.

Lemma readline_end h w :
  at_lines w h [] ->
  exists w2, f_readline h w = (Ok "", w2) /\
             events w2 = (events w ++ [EvReadline])%list.
Proof.
  intros (hd & H1 & H2 & H3). eexists. split.
  - unfold f_readline, bind, log, with_lines. cbn [handles]. rewrite H1, H2, H3.
    reflexivity.
  - reflexivity.
Qed.


Lemma read_header_line_skips h hdr rest cs :
  Forall (fun l => is_comment l = true) cs ->
  is_comment hdr = false -> hdr <> "" ->
  forall fuel w,
    (length cs <= fuel)%nat ->
    at_lines w h (cs ++ hdr :: rest) ->
    exists w', read_header_line fuel h w = (Ok hdr, w') /\ at_lines w' h rest /\
               events w' = (events w ++ replicate (S (length cs)) EvReadline)%list.
Proof.
  intros Hcs Hh Hne. induction Hcs as [| c cs Hc _ IH]; intros fuel w Hf Hw.
  - destruct (readline_run _ _ _ _ Hw) as (w2 & Hr & Hw2 & He).
    exists w2. rewrite read_header_line_step, (bind_Ok _ _ _ _ _ Hr).
    destruct hdr as [| x s]; [done |]. cbn [is_comment] in Hh. rewrite Hh.
    by split.
  - cbn [app] in Hw. destruct (readline_run _ _ _ _ Hw) as (w2 & Hr & Hw2 & He).
    rewrite read_header_line_step, (bind_Ok _ _ _ _ _ Hr).
    destruct c as [| x s]; [done |]. cbn [is_comment] in Hc. rewrite Hc. cbn [negb].
    destruct fuel as [| fuel]; [simpl in Hf; lia |].
    destruct (IH fuel w2) as (w' & Hrun & Hw' & He'); [simpl in Hf; lia | done |].
    exists w'. split; [exact Hrun |]. split; [exact Hw' |].
    by rewrite He', He, <- app_assoc.
Qed.

(** X8.  The loop that looks for the header line skips every leading line
    that starts with [#], however many there are, and stops at the first
    line that does not: it returns that line, the handle stands right after
    it, and one line has been read for each comment and one for the
    header. *)
Theorem header_line_after_comments h hdr rest cs w :
  Forall (fun l => is_comment l = true) cs ->
  is_comment hdr = false -> hdr <> "" ->
  at_lines w h (cs ++ hdr :: rest) ->
  exists w', load_header_line h w = (Ok hdr, w') /\ at_lines w' h rest /\
             events w' = (events w ++ replicate (S (length cs)) EvReadline)%list.
Proof.
  intros Hcs Hh Hne Hw.
  assert (Hn : lines_left h w = (Ok (length (cs ++ hdr :: rest)), w)).
  { destruct Hw as (hd & H1 & _ & H3). unfold lines_left. by rewrite H1, H3. }
  unfold load_header_line. rewrite (bind_Ok _ _ _ _ _ Hn).
  apply read_header_line_skips; try done. rewrite length_app. lia.
Qed.

Lemma read_header_line_runs_out h cs :
  Forall (fun l => is_comment l = true) cs ->
  forall fuel w,
    (length cs <= fuel)%nat ->
    at_lines w h cs ->
    exists w', read_header_line fuel h w = (Raise IndexError, w') /\
               events w' = (events w ++ replicate (S (length cs)) EvReadline)%list.
Proof.
  intros Hcs. induction Hcs as [| c cs Hc _ IH]; intros fuel w Hf Hw.
  - destruct (readline_end _ _ Hw) as (w2 & Hr & He).
    exists w2. by rewrite read_header_line_step, (bind_Ok _ _ _ _ _ Hr).
  - destruct (readline_run _ _ _ _ Hw) as (w2 & Hr & Hw2 & He).
    rewrite read_header_line_step, (bind_Ok _ _ _ _ _ Hr).
    destruct c as [| x s]; [done |]. cbn [is_comment] in Hc. rewrite Hc. cbn [negb].
    destruct fuel as [| fuel]; [simpl in Hf; lia |].
    destruct (IH fuel w2) as (w' & Hrun & He'); [simpl in Hf; lia | done |].
    exists w'. split; [exact Hrun |].
    by rewrite He', He, <- app_assoc.
Qed.

(** X9.  A file that has no line but comments -- the empty file, for one
    -- makes [load] raise [IndexError]: at the end of the file [readline]
    returns the empty string, whose first character the loop asks for.
    [load] has then read one line more than the file has, and has called
    nothing else. *)
Theorem load_of_comments_only name txt model ed chk w :
  fs w !! name = Some txt ->
  Forall (fun l => is_comment l = true) (Py.lines txt) ->
  exists w', load (inl name) model ed chk w = (Raise IndexError, w') /\
             events w' =
               (events w ++ replicate (S (length (Py.lines txt))) EvReadline)%list.
Proof.
  intros Hfs Hcs.
  set (w0 := World (fs w) (handles w ++ [Handle name false [] (Py.lines txt)]) (events w)).
  assert (Hopen : load_open (inl name) w = (Ok (length (handles w)), w0)).
  { unfold load_open, open_r. by rewrite Hfs. }
  assert (Hw0 : at_lines w0 (length (handles w)) (Py.lines txt)).
  { eexists. split; [by apply list_lookup_middle | done]. }
  assert (Hn : lines_left (length (handles w)) w0 = (Ok (length (Py.lines txt)), w0)).
  { destruct Hw0 as (hd & H1 & _ & H3). unfold lines_left. by rewrite H1, H3. }
  destruct (read_header_line_runs_out _ _ Hcs (length (Py.lines txt)) w0 (le_n _) Hw0)
    as (w' & Hrun & He).
  exists w'. split; [| exact He].
  unfold load. rewrite (bind_Ok _ _ _ _ _ Hopen).
  apply bind_Raise. unfold load_item1. apply bind_Raise.
  unfold load_header_line. by rewrite (bind_Ok _ _ _ _ _ Hn).
Qed.

(** X10.  A header line with fewer than three fields, the fields it has
    being numbers, makes [load] raise [IndexError] at the first field that
    is missing: nothing is read after the header line, and [load] has
    called neither [add_pop_key_list], [read1d], [mfpar] or [Util2d.load],
    nor the constructor or the validator. *)
Theorem load_of_short_header h model ed chk w line w1 :
  load_header_line h w = (Ok line, w1) ->
  (length (Py.split (Py.strip line)) < 3)%nat ->
  (forall s, Py.split (Py.strip line) !! 0%nat = Some s -> is_Some (Py.int s)) ->
  (forall s, Py.split (Py.strip line) !! 1%nat = Some s -> is_Some (float s)) ->
  load (inr h) model ed chk w = (Raise IndexError, w1).
Proof.
  intros Hl Hlen H0 H1.
  unfold load. rewrite (bind_Ok _ _ _ _ _ (eq_refl : load_open (inr h) w = (Ok h, w))).
  apply bind_Raise. unfold load_item1. rewrite (bind_Ok _ _ _ _ _ Hl).
  destruct (Py.split (Py.strip line)) as [| s0 [| s1 [| s2 t]]]; [| | | simpl in Hlen; lia].
  - reflexivity.
  - destruct (H0 s0 eq_refl) as [z Hz].
    unfold int_at at 1, bind, lift, index. cbn. rewrite Hz. reflexivity.
  - destruct (H0 s0 eq_refl) as [z Hz]. destruct (H1 s1 eq_refl) as [q Hq].
    unfold int_at at 1, bind, lift, index. cbn. rewrite Hz. cbn.
    unfold float_at, bind, lift, index. cbn. rewrite Hq. reflexivity.
Qed.

End More_decoder.

(** ** What the decoder does to the handles and to the files *)

Section More_effects.

Context {C : Collaborators}.

Lemma undisturbed_refl h w : undisturbed h w w.
Proof. split; [done |]. intros i hd Hi. by exists hd. Qed.

Lemma undisturbed_trans h w1 w2 w3 :
  undisturbed h w1 w2 -> undisturbed h w2 w3 -> undisturbed h w1 w3.
Proof.
  intros [L1 H1] [L2 H2]. split; [congruence |].
  intros i hd Hi. destruct (H1 i hd Hi) as (hd2 & Hi2 & P2 & C2 & O2 & I2).
  destruct (H2 i hd2 Hi2) as (hd3 & Hi3 & P3 & C3 & O3 & I3).
  exists hd3. repeat split; try congruence.
  intros Hne. rewrite (I3 Hne). by apply I2.
Qed.

Lemma quiet_refl b h w : quiet b h w w.
Proof. split; [apply undisturbed_refl | done]. Qed.

Lemma quiet_trans b h w1 w2 w3 : quiet b h w1 w2 -> quiet b h w2 w3 -> quiet b h w1 w3.
Proof.
  intros [U1 F1] [U2 F2]. split; [by eapply undisturbed_trans |].
  intros Hb. rewrite (F2 Hb). by apply F1.
Qed.

Lemma quiet_weaken b h w w' : quiet true h w w' -> quiet b h w w'.
Proof. intros [U F]. split; [done |]. intros _. by apply F. Qed.

Lemma preserves_ret {A : Type} b h (a : A) : preserves (quiet b h) (ret a).
Proof. intros w r w' [= _ <-]. apply quiet_refl. Qed.

Lemma preserves_raise {A : Type} b h (e : exn) : preserves (quiet b h) (raise (A := A) e).
Proof. intros w r w' [= _ <-]. apply quiet_refl. Qed.

Lemma preserves_lift {A : Type} b h (o : outcome A) : preserves (quiet b h) (lift o).
Proof. intros w r w' [= _ <-]. apply quiet_refl. Qed.

Lemma preserves_bind {A B : Type} b h (m : M A) (f : A -> M B) :
  preserves (quiet b h) m -> (forall a, preserves (quiet b h) (f a)) ->
  preserves (quiet b h) (bind m f).
Proof.
  intros Hm Hf w r w'. unfold bind. destruct (m w) as [[a | e] w1] eqn:E.
  - intros H. eapply quiet_trans; [by eapply Hm | by eapply Hf].
  - intros [= _ <-]. by eapply Hm.
Qed.

Lemma preserves_if {A : Type} b h (c : bool) (m1 m2 : M A) :
  preserves (quiet b h) m1 -> preserves (quiet b h) m2 ->
  preserves (quiet b h) (if c then m1 else m2).
Proof. by destruct c. Qed.

Lemma preserves_for_each {A : Type} b h (body : nat -> A -> M A) ks :
  (forall k acc, preserves (quiet b h) (body k acc)) ->
  forall acc, preserves (quiet b h) (for_each ks body acc).
Proof.
  intros Hb. induction ks as [| k ks IH]; intros acc; simpl.
  - apply preserves_ret.
  - apply preserves_bind; [apply Hb | intros acc'; apply IH].
Qed.

Lemma preserves_log b h e : preserves (quiet b h) (log e).
Proof.
  intros w r w' [= _ <-]. split; [| done]. split; [done |].
  intros i hd Hi. by exists hd.
Qed.

Lemma preserves_with_lines {A : Type} b h (rd : list string -> outcome (A * list string)) :
  preserves (quiet b h) (with_lines h rd).
Proof.
  intros w r w'. unfold with_lines.
  destruct (handles w !! h) as [hd |] eqn:Hh; [| intros [= _ <-]; apply quiet_refl].
  destruct (h_closed hd) eqn:Hc; [intros [= _ <-]; apply quiet_refl |].
  destruct (rd (h_in hd)) as [[a rest] | e]; [| intros [= _ <-]; apply quiet_refl].
  intros [= _ <-]. split; [| done]. unfold undisturbed, set_handle. cbn [handles].
  split; [by rewrite length_insert |].
  intros i hd0 Hi. destruct (decide (i = h)) as [-> | Hne].
  - rewrite Hh in Hi. injection Hi as <-.
    eexists. split; [apply list_lookup_insert_eq; by eapply lookup_lt_Some |].
    by repeat split.
  - exists hd0. by rewrite list_lookup_insert_ne.
Qed.

Lemma preserves_readline b h : preserves (quiet b h) (f_readline h).
Proof.
  apply preserves_bind; [apply preserves_log | intros _; apply preserves_with_lines].
Qed.

Lemma preserves_int_at b h t i : preserves (quiet b h) (int_at t i).
Proof.
  apply preserves_bind; [apply preserves_lift |]. intros s.
  destruct (Py.int s); [apply preserves_ret | apply preserves_raise].
Qed.

Lemma preserves_float_at b h t i : preserves (quiet b h) (float_at t i).
Proof.
  apply preserves_bind; [apply preserves_lift |]. intros s.
  destruct (float s); [apply preserves_ret | apply preserves_raise].
Qed.

Lemma preserves_header_line b h : preserves (quiet b h) (load_header_line h).
Proof.
  apply preserves_bind; [intros w r w' [= _ <-]; apply quiet_refl |].
  intros n. induction n as [| n IH]; rewrite read_header_line_step;
    (apply preserves_bind; [apply preserves_readline |]); intros [| c s];
    try apply preserves_raise;
    (destruct (negb (Ascii.eqb c "#")); [apply preserves_ret |]);
    [apply preserves_raise | exact IH].
Qed.

Lemma preserves_item1 b h model : preserves (quiet b h) (load_item1 h model).
Proof.
  unfold load_item1.
  apply preserves_bind; [apply preserves_header_line | intros line].
  apply preserves_bind; [apply preserves_int_at | intros ipakcb].
  apply preserves_bind; [apply preserves_float_at | intros hdry].
  apply preserves_bind; [apply preserves_int_at | intros nplpf].
  apply preserves_bind; [| intros ?; apply preserves_ret].
  apply preserves_if; [| apply preserves_ret].
  apply preserves_bind; [apply preserves_log | intros _; apply preserves_ret].
Qed.

Lemma preserves_read1d {A : Type} b h (rd : list string -> outcome (A * list string)) :
  preserves (quiet b h) (log EvRead1d ;; with_lines h rd).
Proof.
  apply preserves_bind; [apply preserves_log | intros _; apply preserves_with_lines].
Qed.

Lemma preserves_items b h model hdr : preserves (quiet b h) (load_items h model hdr).
Proof.
  destruct hdr as [[[ipakcb hdry] nplpf] t]. unfold load_items.
  do 5 (apply preserves_bind; [apply preserves_read1d | intros ?]).
  apply preserves_bind.
  { apply preserves_if; [| apply preserves_ret].
    apply preserves_bind; [apply preserves_readline | intros line].
    apply preserves_bind; [apply preserves_float_at | intros ?].
    apply preserves_bind; [apply preserves_int_at | intros ?].
    apply preserves_bind; [apply preserves_int_at | intros ?].
    apply preserves_ret. }
  intros wet. apply preserves_bind; [| intros ?; apply preserves_ret].
  apply preserves_if; [| apply preserves_ret].
  apply preserves_bind; [apply preserves_log | intros _].
  apply preserves_bind; [apply preserves_with_lines | intros ?; apply preserves_ret].
Qed.

Lemma preserves_load_array b h model nm ed k :
  preserves (quiet b h) (load_array h model nm ed k).
Proof.
  unfold load_array. apply preserves_bind; [apply preserves_log | intros _].
  apply preserves_bind; [apply preserves_with_lines | intros ?; apply preserves_ret].
Qed.

Lemma preserves_fill_array b h model nm pd k :
  preserves (quiet b h) (fill_array h model nm pd k).
Proof.
  unfold fill_array. apply preserves_bind; [apply preserves_readline | intros _].
  apply preserves_bind; [destruct pd; [apply preserves_ret | apply preserves_raise] |].
  intros ?. apply preserves_bind; [apply preserves_log | intros _].
  apply preserves_bind; [apply preserves_lift | intros ?; apply preserves_ret].
Qed.

Ltac quiet_step :=
  first
    [ apply preserves_ret
    | apply preserves_lift
    | apply preserves_load_array
    | apply preserves_fill_array
    | apply preserves_bind; [| intros ?]
    | apply preserves_if ].

Lemma preserves_layer b h model ed pt pd tr laytyp chani layvka laywet k acc :
  preserves (quiet b h) (load_layer h model ed pt pd tr laytyp chani layvka laywet k acc).
Proof. unfold load_layer. repeat quiet_step. Qed.

Lemma preserves_layers b h model ed p : preserves (quiet b h) (load_layers h model ed p).
Proof.
  unfold load_layers, for_range. apply preserves_for_each.
  intros k acc. apply preserves_layer.
Qed.

Lemma preserves_init b h model a : preserves (quiet b h) (__init__ model a).
Proof.
  unfold __init__. cbn [nrow_ncol_nlay_nper]. cbv zeta.
  do 7 (apply preserves_bind; [apply preserves_lift | intros ?]).
  apply preserves_bind.
  { unfold for_range. apply preserves_for_each. intros k keys.
    apply preserves_bind; [apply preserves_lift | intros ?; apply preserves_ret]. }
  intros keys.
  do 5 (apply preserves_bind; [apply preserves_lift | intros ?]).
  apply preserves_bind; [apply preserves_log | intros _; apply preserves_ret].
Qed.

Lemma preserves_check h self f v l : preserves (quiet false h) (check self f v l).
Proof.
  intros w r w' H. apply check_world in H as [Hh _].
  split; [| discriminate]. split; [by rewrite Hh |].
  intros i hd Hi. exists hd. by rewrite Hh.
Qed.

Lemma preserves_finish h model chk p l :
  preserves (quiet (negb chk) h) (load_finish model chk p l).
Proof.
  unfold load_finish. apply preserves_bind; [apply preserves_init | intros lpf].
  apply preserves_bind; [| intros ?; apply preserves_ret].
  destruct chk; [apply preserves_check | apply preserves_ret].
Qed.

(** What follows the [open] in [load]. *)
Lemma preserves_load_body h model ed chk :
  preserves (quiet (negb chk) h)
    (hdr <- load_item1 h model ;;
     p <- load_items h model hdr ;;
     l <- load_layers h model ed p ;;
     load_finish model chk p l).
Proof.
  apply preserves_bind; [apply preserves_item1 | intros hdr].
  apply preserves_bind; [apply preserves_items | intros p].
  apply preserves_bind; [apply preserves_layers | intros l].
  apply preserves_finish.
Qed.

(** X11.  [load] closes no file handle, on any exit.  Given a handle, it
    opens none: every handle is there afterwards with its path, its open or
    closed state and its written text, and only the given handle has been
    read.  Given the name of a file that exists, it opens one handle on
    that file, which is still open when [load] returns or raises, and the
    handles that were there before are as they were; given the name of a
    file that does not exist, it raises [IOError] and nothing has
    changed.  (The validator of [Package], called last when [check] is on,
    works on the files and on no handle of the caller.) *)
Theorem load_closes_no_handle f model ed chk w r w' :
  load f model ed chk w = (r, w') ->
  match f with
  | inr h => undisturbed h w w'
  | inl name =>
      match fs w !! name with
      | None => r = Raise IOError /\ w' = w
      | Some txt =>
          (forall i hd, handles w !! i = Some hd -> handles w' !! i = Some hd) /\
          length (handles w') = S (length (handles w)) /\
          exists hd, handles w' !! length (handles w) = Some hd /\
                     h_path hd = name /\ h_closed hd = false
      end
  end.
Proof.
  unfold load. destruct f as [name | h]; cbn [load_open].
  - unfold open_r, bind at 1. destruct (fs w !! name) as [txt |] eqn:Hfs.
    + intros H. apply preserves_load_body in H as [[Hlen Hu] _].
      cbn [handles] in Hlen, Hu. split; [| split].
      * intros i hd Hi.
        destruct (Hu i hd) as (hd' & Hi' & P & Cl & O & I).
        { by apply lookup_app_l_Some. }
        rewrite Hi'. f_equal. destruct hd, hd'. cbn in *. subst.
        f_equal. apply I. apply lookup_lt_Some in Hi. lia.
      * rewrite Hlen, length_app. simpl. lia.
      * destruct (Hu (length (handles w)) (Handle name false [] (Py.lines txt)))
          as (hd' & Hi' & P & Cl & _).
        { by apply list_lookup_middle. }
        by exists hd'.
    + by intros [= <- <-].
  - intros H. change (bind (ret h) ?f w) with (f h w) in H.
    by apply preserves_load_body in H as [Hu _].
Qed.

(** X12.  With the validation off, [load] changes no file, whether it
    returns or raises. *)
Theorem load_changes_no_file f model ed w r w' :
  load f model ed false w = (r, w') -> fs w' = fs w.
Proof.
  unfold load. destruct f as [name | h]; cbn [load_open].
  - unfold open_r, bind at 1. destruct (fs w !! name) as [txt |] eqn:Hfs.
    + intros H. apply preserves_load_body in H as [_ Hf]. by apply Hf.
    + by intros [= _ <-].
  - intros H. change (bind (ret h) ?f w) with (f h w) in H.
    apply preserves_load_body in H as [_ Hf]. by apply Hf.
Qed.

(** X13.  The constructor is all or nothing for the model: when it
    returns, the package has been added to the model and nothing else has
    happened; when it raises -- an array that has not one entry per layer,
    or an integer flag that does not fit 64 bits -- the model has not been
    told of the package, and nothing has changed at all. *)
Theorem init_adds_the_package_last model a w r w' :
  __init__ model a w = (r, w') ->
  match r with
  | Ok _ => w' = World (fs w) (handles w) (events w ++ [EvAddPackage])
  | Raise _ => w' = w
  end.
Proof.
  destruct r as [self | e].
  - intros H. by apply init_inv in H as (_ & _ & _ & _ & _ & _ & _ & _ & _ & _ & _ & _ & _ &
                                          _ & _ & _ & _ & _ & _ & _ & _ & H).
  - unfold __init__. cbn [nrow_ncol_nlay_nper]. cbv zeta.
    assert (Hl : forall {A B : Type} (o : outcome A) (f : A -> M B) w2,
              (forall a w1, f a w = (Raise e, w1) -> w1 = w) ->
              bind (lift o) f w = (Raise e, w2) -> w2 = w).
    { intros A B o f w2 Hf. unfold bind, lift.
      destruct o; [apply Hf | by intros [= _ <-]]. }
    revert w'. do 7 (intros ?; apply Hl; intros ?).
    intros wf H. unfold bind at 1 in H.
    match type of H with
    | context [for_range ?n ?body ?acc w] =>
        assert (Hk : forall ks accK rK wK, for_each ks body accK w = (rK, wK) -> wK = w)
    end.
    { induction ks as [| k ks IH]; intros accK rK wK; simpl.
      - by intros [= _ <-].
      - unfold bind at 1, bind at 1, lift.
        match goal with
        | |- context [index ?l k] => destruct (index l k)
        end; [apply IH | by intros [= _ <-]]. }
    unfold for_range in H.
    match type of H with
    | context [for_each ?ks ?body ?acc w] =>
        destruct (for_each ks body acc w) as [[keys | e'] wk] eqn:E;
        apply Hk in E; subst wk
    end; [| by injection H as _ <-].
    revert wf H. do 5 (intros ?; apply Hl; intros ?).
    intros ?. unfold bind, log. discriminate.
Qed.

End More_effects.

(** ** What the decoder calls and what it returns *)

Section More_results.

Context {C : Collaborators}.

(** *** The calls of a decoding that returns *)

Lemma readline_events h w l w2 :
  f_readline h w = (Ok l, w2) -> events w2 = (events w ++ [EvReadline])%list.
Proof.
  unfold f_readline. intros H.
  apply bind_Ok_inv in H as ([] & w1 & H1 & H2).
  rewrite log_run in H1. injection H1 as <-.
  apply with_lines_events in H2. by rewrite H2.
Qed.

Lemma read1d_events {A : Type} h (rd : list string -> outcome (A * list string)) w a w' :
  (log EvRead1d ;; with_lines h rd) w = (Ok a, w') ->
  events w' = (events w ++ [EvRead1d])%list.
Proof.
  intros H. apply bind_Ok_inv in H as ([] & w1 & H1 & H2).
  rewrite log_run in H1. injection H1 as <-.
  apply with_lines_events in H2. by rewrite H2.
Qed.

Lemma read_header_line_events fuel h :
  forall w line w',
    read_header_line fuel h w = (Ok line, w') ->
    exists n, events w' = (events w ++ replicate (S n) EvReadline)%list.
Proof.
  induction fuel as [| fuel IH]; intros w line w' H;
    rewrite read_header_line_step in H;
    apply bind_Ok_inv in H as (l & w1 & Hr & H);
    apply readline_events in Hr;
    (destruct l as [| c s]; [discriminate H |]);
    (destruct (negb (Ascii.eqb c "#"));
     [injection H as _ <-; by exists 0%nat |]).
  - discriminate H.
  - apply IH in H as [n Hn]. exists (S n). by rewrite Hn, Hr, <- app_assoc.
Qed.

Lemma load_item1_events h model w ipakcb hdry nplpf t w' :
  load_item1 h model w = (Ok (ipakcb, hdry, nplpf, t), w') ->
  exists n line w1 s raw,
    load_header_line h w = (Ok line, w1) /\
    t = Py.split (Py.strip line) /\ t !! 0%nat = Some s /\ Py.int s = Some raw /\
    events w' = (events w ++ replicate (S n) EvReadline ++
                 if raw =? 0 then [] else [EvAddPopKey raw])%list /\
    ipakcb = (if raw =? 0 then 0 else 53).
Proof.
  unfold load_item1. intros H.
  apply bind_Ok_inv in H; destruct H as (line & w1 & Hl & H).
  pose proof Hl as Hline. unfold load_header_line in Hl.
  apply bind_Ok_inv in Hl; destruct Hl as (fuel & w0 & Hf & Hl).
  injection Hf as _ <-. apply read_header_line_events in Hl as [n Hn].
  apply bind_Ok_inv in H; destruct H as (raw & w2 & Hraw & H).
  apply int_at_inv in Hraw as [-> (s0 & Hs0 & Hraw)].
  apply bind_Ok_inv in H; destruct H as (hd' & w3 & Hh & H).
  apply float_at_inv in Hh as [-> _].
  apply bind_Ok_inv in H; destruct H as (np & w4 & Hnp & H).
  apply int_at_inv in Hnp as [-> _].
  apply bind_Ok_inv in H; destruct H as (ip & w5 & Hip & H).
  injection H as <- <- <- <- <-.
  exists n, line, w1, s0, raw. do 4 (split; [done |]).
  destruct (raw =? 0) eqn:Eraw; simpl in Hip.
  - injection Hip as <- <-. apply Z.eqb_eq in Eraw. by rewrite app_nil_r.
  - apply bind_Ok_inv in Hip; destruct Hip as ([] & w6 & Hlog & Hip).
    rewrite log_run in Hlog. injection Hlog as <-. injection Hip as <- <-.
    cbn [events]. by rewrite Hn, <- app_assoc.
Qed.

Lemma load_items_events h model ipakcb hdry nplpf t w p w' :
  load_items h model (ipakcb, hdry, nplpf, t) w = (Ok p, w') ->
  events w' = (events w ++ replicate 5 EvRead1d ++
               (if 0 <? Np.sum (p_laywet p) then [EvReadline] else []) ++
               if 0 <? nplpf then [EvMfparLoad nplpf] else [])%list /\
  (if 0 <? Np.sum (p_laywet p) then
     is_Some (p_wetfct p) /\ is_Some (p_iwetit p) /\ is_Some (p_ihdwet p)
   else p_wetfct p = None /\ p_iwetit p = None /\ p_ihdwet p = None).
Proof.
  unfold load_items. intros H.
  apply bind_Ok_inv in H; destruct H as (a1 & w1 & E1 & H). apply read1d_events in E1.
  apply bind_Ok_inv in H; destruct H as (a2 & w2 & E2 & H). apply read1d_events in E2.
  apply bind_Ok_inv in H; destruct H as (a3 & w3 & E3 & H). apply read1d_events in E3.
  apply bind_Ok_inv in H; destruct H as (a4 & w4 & E4 & H). apply read1d_events in E4.
  apply bind_Ok_inv in H; destruct H as (a5 & w5 & E5 & H). apply read1d_events in E5.
  apply bind_Ok_inv in H; destruct H as (wet & w6 & Ewet & H).
  apply bind_Ok_inv in H; destruct H as (par & w7 & Epar & H).
  injection H as <- <-. cbn [p_laywet p_wetfct p_iwetit p_ihdwet].
  assert (Hw : events w6 =
               (events w5 ++ if 0 <? Np.sum a5 then [EvReadline] else [])%list /\
               (if 0 <? Np.sum a5 then
                  is_Some (fst (fst wet)) /\ is_Some (snd (fst wet)) /\ is_Some (snd wet)
                else fst (fst wet) = None /\ snd (fst wet) = None /\ snd wet = None)).
  { destruct (0 <? Np.sum a5).
    - apply bind_Ok_inv in Ewet; destruct Ewet as (line & v1 & Hr & Ewet).
      apply readline_events in Hr.
      apply bind_Ok_inv in Ewet; destruct Ewet as (x & v2 & Hx & Ewet).
      apply float_at_inv in Hx as [-> _].
      apply bind_Ok_inv in Ewet; destruct Ewet as (i & v3 & Hi & Ewet).
      apply int_at_inv in Hi as [-> _].
      apply bind_Ok_inv in Ewet; destruct Ewet as (j & v4 & Hj & Ewet).
      apply int_at_inv in Hj as [-> _].
      injection Ewet as <- <-. by repeat split.
    - injection Ewet as <- <-. by rewrite app_nil_r. }
  destruct Hw as [Hw Hv].
  assert (Hp : events w7 =
               (events w6 ++ if 0 <? nplpf then [EvMfparLoad nplpf] else [])%list).
  { destruct (0 <? nplpf).
    - apply bind_Ok_inv in Epar; destruct Epar as ([] & v1 & Hlog & Epar).
      rewrite log_run in Hlog. injection Hlog as <-.
      apply bind_Ok_inv in Epar; destruct Epar as (rr & v2 & Hm & Epar).
      apply with_lines_events in Hm. injection Epar as _ <-. by rewrite Hm.
    - injection Epar as _ <-. by rewrite app_nil_r. }
  split; [| exact Hv].
  rewrite Hp, Hw, E5, E4, E3, E2, E1. by rewrite <- !app_assoc.
Qed.

Lemma load_finish_events model chk p l w r w' :
  load_finish model chk p l w = (Ok r, w') ->
  events w' = (events w ++ [EvAddPackage] ++ if chk then [EvCheck 0] else [])%list.
Proof.
  unfold load_finish. intros H.
  apply bind_Ok_inv in H; destruct H as (lpf & w1 & H1 & H).
  apply bind_Ok_inv in H; destruct H as ([] & w2 & H2 & H).
  injection H as _ <-.
  apply init_inv in H1 as (_ & _ & _ & _ & _ & _ & _ & _ & _ & _ & _ & _ & _ &
                           _ & _ & _ & _ & _ & _ & _ & _ & ->).
  destruct chk.
  - apply check_world in H2 as [_ ->]. cbn [events]. by rewrite <- app_assoc.
  - injection H2 as <-. cbn [events]. by rewrite app_nil_r.
Qed.

Lemma omap_to_int64_inject_inv (l l' : list Z) :
  omap_list to_int64 (map inject_Z l) = Ok l' -> l' = l.
Proof.
  revert l'. induction l as [| z l IH]; intros l'; simpl.
  - by intros [= <-].
  - unfold to_int64 at 1. rewrite Np_int_inject.
    destruct (Np.fits64 z); simpl; [| discriminate].
    destruct (omap_list to_int64 (map inject_Z l)) as [zs |]; simpl; [| discriminate].
    intros [= <-]. by rewrite (IH zs eq_refl).
Qed.

Lemma Util2d_int_inject_inv n (l l' : list Z) :
  Util2d_int n (BArray (map inject_Z l)) = Ok l' -> l' = l.
Proof.
  unfold Util2d_int. destruct (_ =? _)%nat; [| discriminate].
  apply omap_to_int64_inject_inv.
Qed.

Lemma Util2d_float_array_inv n (l l' : list Q) :
  Util2d_float n (BArray l) = Ok l' -> l' = map float32 l.
Proof. unfold Util2d_float. destruct (_ =? _)%nat; [| discriminate]. by intros [= <-]. Qed.

(** The per-layer arrays of the record that a decoding built are the ones
    it parsed. *)
Lemma loaded_arrays model p l w r w' :
  __init__ model (load_args p l) w = (Ok r, w') ->
  laytyp r = p_laytyp p /\ layavg r = p_layavg p /\ chani r = map float32 (p_chani p) /\
  laywet r = p_laywet p /\
  wetfct r = p_wetfct p /\ iwetit r = p_iwetit p /\ ihdwet r = p_ihdwet p.
Proof.
  intros H. apply init_inv in H as
    (_ & _ & _ & _ & Hwf & Hwi & Hwh & _ & _ & K1 & K2 & K3 & _ & K5 & _).
  cbn [load_args a_laytyp a_layavg a_chani a_laywet a_wetfct a_iwetit a_ihdwet]
    in K1, K2, K3, K5, Hwf, Hwi, Hwh.
  apply Util2d_int_inject_inv in K1, K2, K5. apply Util2d_float_array_inv in K3.
  by repeat split.
Qed.

(** X14.  The calls of a [load] that returns, in their order, for the
    header and the values that this run has parsed: the lines of the
    comments and of the header; the first field [raw] of the header handed
    to [add_pop_key_list] when it is not 0; the five per-layer arrays by
    [read1d]; the wetting-control line when the sum of the [laywet] read
    is positive (the sum of an array of 64-bit integers); [mfpar.load]
    when the [NPLPF] of the header is positive; the blocks of the layers;
    the constructor, which adds the package to the model; and last the
    validator, at level 0, when [check] is on. *)
Theorem load_calls_in_order f model ed chk w r w' :
  load f model ed chk w = (Ok r, w') ->
  exists h w0 hdr p l n line w1 s raw,
    load_run f model ed chk w r w' h w0 hdr p l /\
    load_header_line h w0 = (Ok line, w1) /\
    Py.split (Py.strip line) !! 0%nat = Some s /\ Py.int s = Some raw /\
    events w' =
      (events w ++ replicate (S n) EvReadline ++
       (if raw =? 0 then [] else [EvAddPopKey raw]) ++
       replicate 5 EvRead1d ++
       (if 0 <? Np.sum (p_laywet p) then [EvReadline] else []) ++
       (if 0 <? p_nplpf p then [EvMfparLoad (p_nplpf p)] else []) ++
       all_events model p ++
       [EvAddPackage] ++
       (if chk then [EvCheck 0] else []))%list /\
    laytyp r = p_laytyp p /\ chani r = map float32 (p_chani p) /\ laywet r = p_laywet p.
Proof.
  intros H.
  apply load_inv in H as (h & w0 & [[[ip hd'] np] t] & w1 & p & w2 & l & w3 &
                          H0 & H1 & H2 & H3 & H4).
  assert (E0 : events w0 = events w).
  { destruct f as [name | h']; cbn [load_open] in H0.
    - unfold open_r in H0. destruct (fs w !! name); [| discriminate].
      by injection H0 as _ <-.
    - by injection H0 as _ <-. }
  pose proof (load_item1_events _ _ _ _ _ _ _ _ H1)
    as (n & line & wl & s0 & raw & Hl & Ht & Hs0 & Hraw & E1 & Hip).
  pose proof (load_items_inv _ _ _ _ _ _ _ _ _ H2) as (Hpi & _ & Hpn & _).
  pose proof (load_items_events _ _ _ _ _ _ _ _ _ H2) as [E2 _].
  destruct (load_layers_events _ _ _ _ _ _ _ H3) as (evs & E3 & _ & Hall).
  rewrite (Hall l eq_refl) in E3.
  pose proof (load_finish_events _ _ _ _ _ _ _ H4) as E4.
  pose proof (load_finish_inv _ _ _ _ _ _ _ H4) as [w4 H5].
  pose proof (loaded_arrays _ _ _ _ _ _ H5) as (Hty & _ & Hc & Hw & _).
  exists h, w0, (ip, hd', np, t), p, l, n, line, wl, s0, raw.
  split; [by exists w1, w2, w3 |].
  split; [exact Hl |]. split; [by rewrite <- Ht |]. split; [exact Hraw |].
  split; [| by repeat split].
  rewrite E4, E3, E2, E1, E0, Hpn. by rewrite <- !app_assoc.
Qed.

(** X15.  A record that [load] returns has its three wetting values
    exactly when [sum(laywet) > 0], the sum being that of its array of
    64-bit integers, and [None] for all three otherwise, whatever the file
    was. *)
Theorem loaded_wetting_values f model ed chk w r w' :
  load f model ed chk w = (Ok r, w') ->
  if 0 <? Np.sum (laywet r) then
    is_Some (wetfct r) /\ is_Some (iwetit r) /\ is_Some (ihdwet r)
  else wetfct r = None /\ iwetit r = None /\ ihdwet r = None.
Proof.
  intros H.
  apply load_inv in H as (h & w0 & [[[ip hd'] np] t] & w1 & p & w2 & l & w3 &
                          _ & _ & H2 & _ & H4).
  apply load_items_events in H2 as [_ Hv].
  apply load_finish_inv in H4 as [w4 H4].
  apply loaded_arrays in H4 as (_ & _ & _ & -> & -> & -> & ->). exact Hv.
Qed.

(** X16.  What [load] has returned can be written: for a model whose
    [laycbd] has an entry for each layer, and when the path of the package
    can be opened for writing, [write_file] returns on a record that
    [load] returned (with the validation off; with it on, unless the
    validator raises). *)
Theorem loaded_record_is_written f model ed chk w r w' chk2 w2 :
  load f model ed chk w = (Ok r, w') ->
  (nlay model <= length (laycbd model))%nat ->
  writable (fn_path r) = true ->
  (chk2 = true -> exists w3, write_check r w2 = (Ok tt, w3)) ->
  exists w3, write_file r chk2 w2 = (Ok tt, w3).
Proof.
  intros H Hcbd Hwr Hchk.
  apply load_inv in H as (h & w0 & hdr & w1 & p & wp & l & wl & _ & _ & H2 & _ & H4).
  destruct hdr as [[[ip hd'] np] t].
  apply load_items_events in H2 as [_ Hv].
  apply load_finish_inv in H4 as [w4 H4].
  pose proof (loaded_arrays _ _ _ _ _ _ H4) as (_ & _ & _ & Hlw & Hwf & Hiw & Hih).
  rewrite <- Hlw, <- Hwf, <- Hiw, <- Hih in Hv.
  pose proof (init_well_shaped _ _ _ _ _ H4) as Hs.
  apply init_inv in H4 as (Hp & _).
  apply write_file_returns; try done.
  - by rewrite Hp.
  - intros Hsum. apply Z.ltb_lt in Hsum. by rewrite Hsum in Hv.
Qed.

(** *** The lists that the decoder hands to the constructor *)


(** *** The blocks written and the blocks read *)

Lemma emitted_read_for self (p : parsed) k fld :
  p_chani p = chani self -> p_laytyp p = laytyp self -> p_laywet p = laywet self ->
  emitted self k fld = read_for (parent self) p k fld.
Proof. intros H1 H2 H3. unfold emitted, read_for. by rewrite H1, H2, H3. Qed.

Lemma block_calls_of_layer self (p : parsed) k (fs : list field) :
  p_par_types p = [] ->
  p_chani p = chani self -> p_laytyp p = laytyp self -> p_laywet p = laywet self ->
  omap (block_call p) (map (fun fld => ItField fld k) (List.filter (emitted self k) fs)) =
  flat_map (fun fld => if read_for (parent self) p k fld then field_events p k fld else [])
           fs.
Proof.
  intros Hpt H1 H2 H3. induction fs as [| fld fs IH]; [reflexivity |].
  cbn [List.filter flat_map]. rewrite (emitted_read_for self p k fld H1 H2 H3).
  destruct (read_for (parent self) p k fld); [| exact IH].
  cbn [map omap list_omap block_call]. unfold field_events at 1.
  rewrite Hpt, by_parameter_nil. cbn [app]. f_equal. exact IH.
Qed.

(** X18.  The decoder asks for the blocks that the encoder writes.  For
    a file without parameters, whose per-layer flags [chani], [laytyp] and
    [laywet] are those of the record that was written, and with the model
    of the record: the calls of the array reader in the loop of [load] are,
    one for one and in the same order, the blocks that [write_file] has
    written, under the names hk, hani, vka or vani, ss, sy, vkcb and
    wetdry. *)
Theorem blocks_read_as_written self chk w w1 h ed p w2 l w3 :
  write_file self chk w = (Ok tt, w1) ->
  load_layers h (parent self) ed p w2 = (Ok l, w3) ->
  p_par_types p = [] ->
  p_chani p = chani self -> p_laytyp p = laytyp self -> p_laywet p = laywet self ->
  events w3 = (events w2 ++ omap (block_call p) (labels_written w w1))%list.
Proof.
  intros Hw Hl Hpt H1 H2 H3.
  destruct (load_layers_events _ _ _ _ _ _ _ Hl) as (evs & -> & _ & Hall).
  rewrite (Hall l eq_refl). f_equal.
  rewrite (write_file_labels _ _ _ _ Hw). unfold file_labels, all_events.
  rewrite !omap_app.
  assert (Hwet : omap (block_call p)
                   (if 0 <? Np.sum (laywet self) then [ItWetting] else []) = []).
  { by destruct (0 <? Np.sum (laywet self)). }
  rewrite Hwet. cbn [omap list_omap block_call app].
  induction (seq 0 (nlay (parent self))) as [| k ks IH]; [reflexivity |].
  cbn [flat_map]. rewrite omap_app, <- IH. f_equal.
  rewrite layer_events_fields. symmetry. by apply block_calls_of_layer.
Qed.

End More_results.

(** * Concrete runs

    The theorems above at concrete inputs, and the inputs at which a claim
    fails as it is stated, with the instance [Demo] of the collaborators. *)

(** [run] closes a goal [m w = (r, w')] whose right-hand side is still to be
    found, by running [m] on [w]. *)
Ltac run :=
  match goal with
  | |- ?lhs = ?rhs =>
      let v := eval vm_compute in lhs in
      unify rhs v; vm_cast_no_check (eq_refl v)
  end.


(** The fifth option on the same run. *)
Lemma load_drops_nocvcorrection_run :
  exists self w1 w2 r w3,
    __init__ (C := Demo.collaborators) model1 args_nocv Demo.world0 = (Ok self, w1) /\
    write_file (C := Demo.collaborators) self false w1 = (Ok tt, w2) /\
    load (C := Demo.collaborators) (inl "model.lpf") model1 None false w2 = (Ok r, w3) /\
    options r <> options self.
Proof.
  eexists _, _, _, _, _.
  match goal with
  | |- ?A /\ ?W /\ ?L /\ _ =>
      assert (HA : A) by run; assert (HW : W) by run; assert (HL : L) by run
  end.
  split; [exact HA |]. split; [exact HW |]. split; [exact HL |].
  exact (load_drops_nocvcorrection _ _ _ _ _ _ _ _ _ _ _ _ HA eq_refl HL).
Qed.



(** A file with [NPLPF = 1] and a parameter of type [wetdry], for a
    convertible layer with wetting: the parameter types are [["wetdry"]] and
    the wetdry block of layer 0 is due, and yet [load] calls the array reader
    for it, and neither reads a control line nor calls the parameter fill. *)
Lemma C2_counterexample :
  exists h w0 hdr w1 p w2 l w3,
    load_open (inl "model.lpf") (world_of "model.lpf" file_par_wetdry) = (Ok h, w0) /\
    load_item1 (C := Demo.collaborators) h model1 w0 = (Ok hdr, w1) /\
    load_items (C := Demo.collaborators) h model1 hdr w1 = (Ok p, w2) /\
    p_nplpf p = 1 /\
    p_par_types p = ["wetdry"] /\
    read_for model1 p 0 Fwetdry = true /\
    load_layers (C := Demo.collaborators) h model1 None p w2 = (Ok l, w3) /\
    events w3 =
      (events w2 ++
       [EvUtil2dLoad "hk" 0; EvUtil2dLoad "vka" 0; EvUtil2dLoad "wetdry" 0])%list.
Proof.
  eexists _, _, _, _, _, _, _, _.
  split; [run |]. split; [run |]. split; [run |].
  split; [reflexivity |]. split; [reflexivity |]. split; [reflexivity |].
  split; [run |]. vm_compute. reflexivity.
Qed.

(** The three parts of C2 at concrete inputs: a header with [NPLPF = 0]; no
    parameter type; and the parameter type [hk], for which the hk block of
    layer 0 is a control line followed by a parameter fill. *)
Lemma C2_witness :
  (exists r w',
     load_items (C := Demo.collaborators) 0 model1 (0, (-1)%Q, 0, [])
       (reading ["0"; "0"; "1/1"; "0"; "0"]) = (r, w') /\
     (exists evs,
        events w' = (events (reading ["0"; "0"; "1/1"; "0"; "0"]) ++ evs)%list /\
        forall n, ~ In (EvMfparLoad n) evs) /\
     (forall p, r = Ok p -> p_par_types p = [])) /\
  (exists r w',
     load_layers (C := Demo.collaborators) 0 model1 None (parsed_with 1 0 0 [])
       (reading ["CONSTANT 1/1"; "CONSTANT 1/1"]) = (r, w') /\
     exists evs,
       events w' = (events (reading ["CONSTANT 1/1"; "CONSTANT 1/1"]) ++ evs)%list /\
       (forall nm k, ~ In (EvParameterFill nm k) evs) /\
       (forall l k fld, r = Ok l -> (k < nlay model1)%nat ->
          read_for model1 (parsed_with 1 0 0 []) k fld = true ->
          In (EvUtil2dLoad (raw_name (parsed_with 1 0 0 []) k fld) k) evs)) /\
  (exists l w',
     load_layers (C := Demo.collaborators) 0 model1 None (parsed_with 1 0 1 ["hk"])
       (reading ["-1"; "CONSTANT 1/1"]) = (Ok l, w') /\
     exists evs,
       events w' = (events (reading ["-1"; "CONSTANT 1/1"]) ++ evs)%list /\
       (forall nm, In nm ["hk"] -> ~ In (EvUtil2dLoad nm 0) evs) /\
       consecutive [EvReadline; EvParameterFill "hk" 0] evs).
Proof.
  destruct (C2_parameter_branches (C := Demo.collaborators) 0 model1 None)
    as (H1 & H2 & H3).
  split; [| split].
  - eexists _, _.
    match goal with |- ?A /\ _ => assert (HA : A) by run end.
    split; [exact HA |]. exact (H1 _ _ _ _ _ _ _ (Z.le_refl 0) HA).
  - eexists _, _.
    match goal with |- ?A /\ _ => assert (HA : A) by run end.
    split; [exact HA |]. exact (H2 (parsed_with 1 0 0 []) _ _ _ eq_refl HA).
  - eexists _, _.
    match goal with |- ?A /\ _ => assert (HA : A) by run end.
    split; [exact HA |].
    exact (H3 (parsed_with 1 0 1 ["hk"]) _ _ _ 0%nat Fhk HA (Nat.lt_0_succ 0) eq_refl).
Defined.

(** [ModflowLpf(m, chani=0.5)]: the hani block of layer 0 is written, and
    it is read from a file whose CHANI is 0.5. *)
Lemma C3_witness :
  (exists self w1 w',
     __init__ (C := Demo.collaborators) model1 args_half Demo.world0 = (Ok self, w1) /\
     write_file (C := Demo.collaborators) self false w1 = (Ok tt, w') /\
     chani self !! 0%nat = Some (1 # 2)%Q /\
     (In (ItField Fhani 0) (labels_written w1 w') <-> Np.lt (1 # 2) 1 = true) /\
     In (ItField Fhani 0) (labels_written w1 w')) /\
  (exists l w',
     load_layers (C := Demo.collaborators) 0 model1 None (parsed_with (1 # 2) 0 0 [])
       (reading ["CONSTANT 1/1"; "CONSTANT 1/1"; "CONSTANT 1/1"]) = (Ok l, w') /\
     exists evs,
       events w' =
         (events (reading ["CONSTANT 1/1"; "CONSTANT 1/1"; "CONSTANT 1/1"]) ++ evs)%list /\
       (In (EvUtil2dLoad "hani" 0) evs \/ In (EvParameterFill "hani" 0) evs
        <-> Np.lt (1 # 2) 1 = true)).
Proof.
  destruct (C3_hani_block_iff_chani_below_1 (C := Demo.collaborators) 0 (1 # 2)%Q)
    as [H1 H2].
  split.
  - eexists _, _, _.
    match goal with
    | |- ?A /\ ?W /\ _ => assert (HA : A) by run; assert (HW : W) by run
    end.
    split; [exact HA |]. split; [exact HW |]. split; [reflexivity |].
    pose proof (H1 _ _ _ _ HW (Nat.lt_0_succ 0) eq_refl) as Hiff.
    split; [exact Hiff | apply Hiff; reflexivity].
  - eexists _, _.
    match goal with |- ?A /\ _ => assert (HA : A) by run end.
    split; [exact HA |].
    exact (H2 _ _ _ _ _ _ _ HA (Nat.lt_0_succ 0) eq_refl).
Defined.



(** [ModflowLpf(m, laytyp=[0, 1], laywet=[0, 1])] on the model of the claim,
    written with the validation on. *)
Lemma C5_witness :
  exists self w1,
    __init__ (C := Demo.collaborators) model2 args_two Demo.world0 = (Ok self, w1) /\
    laywet self = [0; 1] /\ laytyp self = [0; 1] /\
    writable (Collaborators := Demo.collaborators) (fn_path self) = true /\
    exists w' x i j,
      write_file (C := Demo.collaborators) self true w1 = (Ok tt, w') /\
      wetfct self = Some x /\ iwetit self = Some i /\ ihdwet self = Some j /\
      written w1 w' =
        (leading_texts (C := Demo.collaborators) self ++
         [(ItWetting, wetting_line (C := Demo.collaborators) x i j)] ++
         [block_of (C := Demo.collaborators) self Fhk 0] ++
         (if Np.lt (chani self !!! 0%nat) 1
          then [block_of (C := Demo.collaborators) self Fhani 0] else []) ++
         [block_of (C := Demo.collaborators) self Fvka 0] ++
         [block_of (C := Demo.collaborators) self Fhk 1] ++
         (if Np.lt (chani self !!! 1%nat) 1
          then [block_of (C := Demo.collaborators) self Fhani 1] else []) ++
         [block_of (C := Demo.collaborators) self Fvka 1;
          block_of (C := Demo.collaborators) self Fvkcb 1;
          block_of (C := Demo.collaborators) self Fwetdry 1])%list /\
      fs w' !! fn_path self = Some (text_of (written w1 w')).
Proof.
  eexists _, _.
  match goal with |- ?A /\ _ => assert (HA : A) by run end.
  split; [exact HA |]. split; [reflexivity |]. split; [reflexivity |].
  split; [reflexivity |].
  refine (C5_conditional_presence (C := Demo.collaborators) _ _ _ _ _ true _ HA
            eq_refl eq_refl eq_refl eq_refl eq_refl _ _ _ eq_refl _).
  - eexists. reflexivity.
  - eexists. reflexivity.
  - eexists. reflexivity.
  - intros _. eexists. run.
Defined.

(** [ModflowLpf(m, laytyp=1, laywet=-1)]: wetting is active in the layer,
    the wetdry block is in the file, the sum of [laywet] is -1, not 0, and the
    wetting-control line is absent. *)
Lemma C6_counterexample :
  exists self w1 w',
    __init__ (C := Demo.collaborators) model1 args_neg_wet Demo.world0 = (Ok self, w1) /\
    write_file (C := Demo.collaborators) self false w1 = (Ok tt, w') /\
    laywet self = [-1] /\
    Np.sum (laywet self) = -1 /\
    labels_written w1 w' =
      [ItHeading; ItHeader; ItLaytyp; ItLayavg; ItChani; ItLayvka; ItLaywet;
       ItField Fhk 0; ItField Fvka 0; ItField Fwetdry 0].
Proof.
  eexists _, _, _. split; [run |]. split; [run |].
  repeat split; vm_compute; reflexivity.
Qed.

(** [ModflowLpf(m, laytyp=[0, 1], laywet=[0, 1])] on the model of two
    layers: the sum is 1 and the line of the wetting values 0.1, 1 and 0
    follows the seven leading items; and the record of the counterexample,
    whose sum is -1 and whose file has no such line. *)
Lemma C6_witness :
  (exists self w1,
     __init__ (C := Demo.collaborators) model2 args_two Demo.world0 = (Ok self, w1) /\
     Np.sum (laywet self) = 1 /\
     writable (Collaborators := Demo.collaborators) (fn_path self) = true /\
     exists w',
       write_file (C := Demo.collaborators) self false w1 = (Ok tt, w') /\
       fs w' !! fn_path self = Some (text_of (written w1 w')) /\
       exists x i j,
         wetfct self = Some x /\ iwetit self = Some i /\ ihdwet self = Some j /\
         written w1 w' =
           (leading_texts (C := Demo.collaborators) self ++
            [(ItWetting, wetting_line (C := Demo.collaborators) x i j)] ++
            flat_map (block_texts (C := Demo.collaborators) self) (seq 0 (nlay model2)))%list) /\
  (exists self w1,
     __init__ (C := Demo.collaborators) model1 args_neg_wet Demo.world0 = (Ok self, w1) /\
     Np.sum (laywet self) = -1 /\
     exists w',
       write_file (C := Demo.collaborators) self false w1 = (Ok tt, w') /\
       fs w' !! fn_path self = Some (text_of (written w1 w')) /\
       written w1 w' =
         (leading_texts (C := Demo.collaborators) self ++
          flat_map (block_texts (C := Demo.collaborators) self) (seq 0 (nlay model1)))%list /\
       ~ In ItWetting (labels_written w1 w')).
Proof.
  split.
  - eexists _, _.
    match goal with |- ?A /\ _ => assert (HA : A) by run end.
    split; [exact HA |]. split; [reflexivity |]. split; [reflexivity |].
    refine (C6_wetting_line_iff_positive_sum (C := Demo.collaborators) _ _ _ _ _ false _ HA
              (le_n 2) _ eq_refl _).
    + intros _. repeat split; by eexists.
    + intros H. discriminate.
  - eexists _, _.
    match goal with |- ?A /\ _ => assert (HA : A) by run end.
    split; [exact HA |]. split; [reflexivity |].
    refine (C6_wetting_line_iff_positive_sum (C := Demo.collaborators) _ _ _ _ _ false _ HA
              (le_n 1) _ eq_refl _).
    + intros H. vm_compute in H. discriminate.
    + intros H. discriminate.
Defined.

(** [load] of a well-formed file, given its name, returns the record and
    leaves the handle it opened open; and [write_file] of
    [ModflowLpf(m, laytyp=1, laywet=1, iwetit=None)] raises [TypeError] when
    it formats the wetting-control line, the handle it opened being left
    open with the seven items written so far. *)
Lemma C7_counterexample :
  (exists r w',
     load (C := Demo.collaborators) (inl "model.lpf") model1 None false
       (world_of "model.lpf" file_plain) = (Ok r, w') /\
     handles (world_of "model.lpf" file_plain) = [] /\
     handles w' = [Handle "model.lpf" false [] []]) /\
  (exists self w1 w' its,
     __init__ (C := Demo.collaborators) model1 args_no_iwetit Demo.world0 = (Ok self, w1) /\
     write_file (C := Demo.collaborators) self false w1 = (Raise TypeError, w') /\
     handles w1 = [] /\
     handles w' = [Handle "model.lpf" false its []] /\
     map fst its = [ItHeading; ItHeader; ItLaytyp; ItLayavg; ItChani; ItLayvka; ItLaywet]).
Proof.
  split.
  - eexists _, _. split; [run |]. split; reflexivity.
  - eexists _, _, _, _. split; [run |]. split; [run |].
    split; [reflexivity |]. split; reflexivity.
Qed.

(** A record that is written, and a record that the validation rejects. *)
Lemma C7_witness :
  (exists self w1 w' hd,
     __init__ (C := Demo.collaborators) model1 args_half Demo.world0 = (Ok self, w1) /\
     write_file (C := Demo.collaborators) self true w1 = (Ok tt, w') /\
     handles w' = (handles w1 ++ [hd])%list /\
     h_path hd = fn_path self /\ h_closed hd = true) /\
  (exists self w1 w',
     __init__ (C := Demo.rejecting) model1 args_half Demo.world0 = (Ok self, w1) /\
     write_check (C := Demo.rejecting) self w1 = (Raise ValueError, w') /\
     write_file (C := Demo.rejecting) self true w1 = (Raise ValueError, w') /\
     handles w' = handles w1).
Proof.
  split.
  - eexists _, _, _. 
    match goal with
    | |- exists hd, ?I /\ write_file ?s ?c ?w = (Ok tt, ?w') /\ _ =>
        assert (HI : I) by run;
        assert (Hrun : write_file (C := Demo.collaborators) s c w = (Ok tt, w')) by run;
        destruct (proj1 (C7_write_file_closes_on_return (C := Demo.collaborators) s c w)
                    w' Hrun) as (hd & H1 & H2 & H3);
        exists hd; split; [exact HI |]; split; [exact Hrun |]; split; [exact H1 |];
        split; [exact H2 | exact H3]
    end.
  - eexists _, _, _. split; [run |].
    match goal with
    | |- write_check ?s ?w = (Raise ?e, ?w') /\ _ =>
        assert (Hc : write_check (C := Demo.rejecting) s w = (Raise e, w')) by run;
        destruct (proj2 (C7_write_file_closes_on_return (C := Demo.rejecting) s true w)
                    e w' eq_refl Hc) as [H1 H2];
        split; [exact Hc |]; split; [exact H1 | exact H2]
    end.
Defined.

(** The default [ipakcb=53] of the constructor, and a header whose first
    token is 7: both records have the flag 53. *)
Lemma C8_witness :
  (exists r w',
     __init__ (C := Demo.collaborators) model1 default_args Demo.world0 = (Ok r, w') /\
     ipakcb r = 53) /\
  (exists r w',
     load (C := Demo.collaborators) (inl "model.lpf") model1 None false
       (world_of "model.lpf" file_par_hk) = (Ok r, w') /\
     ipakcb r = 53 /\ In (EvAddPopKey 7) (events w') /\
     exists h w0 hdr p l line w1 s raw,
       load_run (C := Demo.collaborators) (inl "model.lpf") model1 None false
         (world_of "model.lpf" file_par_hk) r w' h w0 hdr p l /\
       load_header_line h w0 = (Ok line, w1) /\
       Py.split (Py.strip line) !! 0%nat = Some s /\ Py.int s = Some raw /\
       a_ipakcb (load_args p l) = (if raw =? 0 then 0 else 53) /\
       ipakcb r = (if raw =? 0 then 0 else 53)).
Proof.
  destruct (C8_ipakcb_normalised (C := Demo.collaborators)) as [H1 H2].
  split.
  - eexists _, _. split; [run |].
    eapply (H1 model1 default_args Demo.world0). run.
  - eexists _, _.
    match goal with |- ?A /\ _ => assert (HA : A) by run end.
    split; [exact HA |]. split; [reflexivity |]. split; [vm_compute; tauto |].
    exact (H2 _ _ _ _ _ _ _ HA).
Defined.

(** A file whose header declares [NPLPF = 1] and whose hk block is filled
    from a parameter: the record read has [nplpf = 0], and written again its
    header line has 0 in the third field. *)
Lemma C10_witness :
  exists r w1 w2,
    load (C := Demo.collaborators) (inl "model.lpf") model1 None false
      (world_of "model.lpf" file_par_hk) = (Ok r, w1) /\
    write_file (C := Demo.collaborators) r false w1 = (Ok tt, w2) /\
    In (EvMfparLoad 1) (events w1) /\ In (EvParameterFill "hk" 0) (events w1) /\
    nplpf r = 0 /\
    written w1 w2 !! 1%nat =
      Some (ItHeader, "        53      -1/1         0  NOVFC " ++ nl).
Proof.
  destruct (C10_nplpf_always_zero (C := Demo.collaborators)) as (_ & H2 & H3).
  eexists _, _, _.
  match goal with
  | |- ?A /\ ?W /\ _ => assert (HA : A) by run; assert (HW : W) by run
  end.
  split; [exact HA |]. split; [exact HW |].
  split; [vm_compute; tauto |]. split; [vm_compute; tauto |].
  split; [exact (H2 _ _ _ _ _ _ _ HA) |].
  exact (H3 _ _ _ _ (H2 _ _ _ _ _ _ _ HA) HW).
Defined.

(** The validator at level 1 on a record whose hk is negative in an active
    cell: the report names the cell, the stored hk keeps its two values (the
    second one in an inactive cell), and a second run gives the same text. *)
Lemma C9_witness :
  exists txt s1,
    Validator.stored_in stored1 store1 /\
    Validator.check (C := Demo.collaborators) stored1 1 store1 = (Ok txt, s1) /\
    txt = nl ++ "LPF PACKAGE DATA VALIDATION:" ++ nl ++
          "  ERROR: Negative horizontal hydraulic conductivity specified." ++ nl ++
          "  Specified vertical hydraulic conductivity is OK." ++ nl ++ nl ++
          "  DETAILED SUMMARY OF LPF ERRORS:" ++ nl ++
          "    hk 0 0 0 -2/1" ++ nl /\
    s1 !! 0%nat = Some [[[-2; 3]]]%Q /\
    (forall fld, s1 !! Validator.s_loc stored1 fld = store1 !! Validator.s_loc stored1 fld) /\
    fst (Validator.check (C := Demo.collaborators) stored1 1 s1) = Ok txt.
Proof.
  eexists _, _.
  assert (Hin : Validator.stored_in stored1 store1).
  { intros fld. destruct fld; by eexists. }
  match goal with |- _ /\ ?R /\ _ => assert (HR : R) by run end.
  destruct (C9_check_leaves_fields_unchanged (C := Demo.collaborators) _ _ _ _ _ Hin HR)
    as (_ & H2 & H3).
  split; [exact Hin |]. split; [exact HR |]. split; [reflexivity |].
  split; [reflexivity |]. split; [exact H2 | exact H3].
Defined.

(** Were [self.hk.array] the stored array itself and not a new one, the same
    run would leave 0 in the inactive cell of the stored hk. *)
Lemma aliased_array_keeps_the_override :
  exists r s1,
    Validator.check_with (C := Demo.collaborators) (fun l => ret l) stored1 1 store1 = (r, s1) /\
    store1 !! 0%nat = Some [[[-2; 3]]]%Q /\
    s1 !! 0%nat = Some [[[-2; 0]]]%Q.
Proof.
  eexists _, _. split; [run |]. split; reflexivity.
Qed.

(** ** The further properties at concrete inputs *)

(** [ModflowLpf(m, laytyp=[0, 1], laywet=[0, 1])] on the model of two
    layers, written with the validation on. *)
Lemma write_file_writes_the_items_in_order_run :
  exists self w1 w',
    __init__ (C := Demo.collaborators) model2 args_two Demo.world0 = (Ok self, w1) /\
    write_file (C := Demo.collaborators) self true w1 = (Ok tt, w') /\
    written w1 w' = file_texts (C := Demo.collaborators) self.
Proof.
  eexists _, _, _.
  match goal with
  | |- ?A /\ ?W /\ _ => assert (HA : A) by run; assert (HW : W) by run
  end.
  split; [exact HA |]. split; [exact HW |].
  exact (write_file_writes_the_items_in_order _ _ _ _ HW).
Defined.

Lemma write_file_replaces_one_file_run :
  exists self w1 w',
    __init__ (C := Demo.collaborators) model2 args_two Demo.world0 = (Ok self, w1) /\
    write_file (C := Demo.collaborators) self false w1 = (Ok tt, w') /\
    exists w2,
      w2 = w1 /\
      fs w' = <[fn_path self := text_of (file_texts (C := Demo.collaborators) self)]> (fs w2).
Proof.
  eexists _, _, _.
  match goal with
  | |- ?A /\ ?W /\ _ => assert (HA : A) by run; assert (HW : W) by run
  end.
  split; [exact HA |]. split; [exact HW |].
  exact (write_file_replaces_one_file _ _ _ _ HW).
Defined.

Lemma write_file_twice_run :
  exists self w1 w',
    __init__ (C := Demo.collaborators) model2 args_two Demo.world0 = (Ok self, w1) /\
    write_file (C := Demo.collaborators) self false w1 = (Ok tt, w') /\
    exists w2, write_file (C := Demo.collaborators) self false w' = (Ok tt, w2) /\
               fs w2 = fs w'.
Proof.
  eexists _, _, _.
  match goal with
  | |- ?A /\ ?W /\ _ => assert (HA : A) by run; assert (HW : W) by run
  end.
  split; [exact HA |]. split; [exact HW |].
  exact (write_file_twice _ _ _ HW).
Defined.

(** [ModflowLpf(m, laytyp=1, laywet=1, iwetit=None)] *)
Lemma write_file_wetting_none_run :
  exists self w1,
    __init__ (C := Demo.collaborators) model1 args_no_iwetit Demo.world0 = (Ok self, w1) /\
    0 < Np.sum (laywet self) /\
    (wetfct self = None \/ iwetit self = None \/ ihdwet self = None) /\
    writable (Collaborators := Demo.collaborators) (fn_path self) = true /\
    exists w' hd,
      write_file (C := Demo.collaborators) self false w1 = (Raise TypeError, w') /\
      handles w' = (handles w1 ++ [hd])%list /\
      h_closed hd = false /\
      h_out hd = leading_texts (C := Demo.collaborators) self.
Proof.
  eexists _, _.
  match goal with |- ?A /\ _ => assert (HA : A) by run end.
  split; [exact HA |].
  match goal with
  | |- ?S /\ ?N /\ _ =>
      assert (HS : S) by reflexivity;
      assert (HN : N) by (right; left; reflexivity)
  end.
  split; [exact HS |]. split; [exact HN |]. split; [reflexivity |].
  exact (write_file_wetting_none (C := Demo.collaborators) _ _ HS HN eq_refl).
Defined.

Lemma write_file_validates_once_run :
  exists self w1 r w',
    __init__ (C := Demo.collaborators) model1 args_no_iwetit Demo.world0 = (Ok self, w1) /\
    write_file (C := Demo.collaborators) self true w1 = (r, w') /\
    events w' = (events w1 ++ [EvCheck 1])%list.
Proof.
  eexists _, _, _, _.
  match goal with
  | |- ?A /\ ?W /\ _ => assert (HA : A) by run; assert (HW : W) by run
  end.
  split; [exact HA |]. split; [exact HW |].
  exact (write_file_validates_once _ _ _ _ _ HW).
Defined.

(** [ModflowLpf(m, nocvcorrection=True)]: the header line is
    ["        53      -1/1         0  NOCVCORRECTION "]. *)
Lemma header_options_read_back_run :
  exists r w1,
    __init__ (C := Demo.collaborators) model1 args_nocv Demo.world0 = (Ok r, w1) /\
    padded 1 (format_G (Collaborators := Demo.collaborators) (hdry r)) "-1/1" /\
    (if (3 <? length (Py.split (Py.strip (format_header (C := Demo.collaborators) r))))%nat
     then parse_options (Py.split (Py.strip (format_header (C := Demo.collaborators) r)))
     else mkOpts false false false false false) =
    mkOpts false false false true false.
Proof.
  eexists _, _.
  match goal with |- ?A /\ _ => assert (HA : A) by run end.
  split; [exact HA |].
  match goal with
  | |- ?P /\ _ =>
      assert (HP : P) by (exists 6%nat; split; [lia | split; reflexivity])
  end.
  split; [exact HP |].
  exact (header_options_read_back _ _ _ _ _ _ HA HP).
Defined.

(** Two comments, the header line and one more line. *)
Lemma header_line_after_comments_run :
  at_lines (reading ["# a"; "# b"; "  0 -1/1 0"; "next"]) 0
    (["# a" ++ nl; "# b" ++ nl] ++ ("  0 -1/1 0" ++ nl) :: ["next" ++ nl]) /\
  exists w',
    load_header_line 0 (reading ["# a"; "# b"; "  0 -1/1 0"; "next"])
    = (Ok ("  0 -1/1 0" ++ nl), w') /\
    at_lines w' 0 ["next" ++ nl] /\
    events w' = (events (reading ["# a"; "# b"; "  0 -1/1 0"; "next"]) ++
                 replicate 3 EvReadline)%list.
Proof.
  assert (Hw : at_lines (reading ["# a"; "# b"; "  0 -1/1 0"; "next"]) 0
                 (["# a" ++ nl; "# b" ++ nl] ++ ("  0 -1/1 0" ++ nl) :: ["next" ++ nl])).
  { eexists. split; [reflexivity |]. split; reflexivity. }
  split; [exact Hw |].
  refine (header_line_after_comments 0 _ _ ["# a" ++ nl; "# b" ++ nl] _ _ _ _ Hw).
  - repeat constructor.
  - reflexivity.
  - discriminate.
Defined.

(** A file of two comments. *)
Lemma load_of_comments_only_run :
  fs (world_of "model.lpf" (text_lines ["# a"; "# b"])) !! "model.lpf"
    = Some (text_lines ["# a"; "# b"]) /\
  Forall (fun l => is_comment l = true) (Py.lines (text_lines ["# a"; "# b"])) /\
  exists w',
    load (C := Demo.collaborators) (inl "model.lpf") model1 None true
      (world_of "model.lpf" (text_lines ["# a"; "# b"])) = (Raise IndexError, w') /\
    events w' =
      (events (world_of "model.lpf" (text_lines ["# a"; "# b"])) ++
       replicate (S (length (Py.lines (text_lines ["# a"; "# b"])))) EvReadline)%list.
Proof.
  assert (H1 : fs (world_of "model.lpf" (text_lines ["# a"; "# b"])) !! "model.lpf"
               = Some (text_lines ["# a"; "# b"])).
  { apply lookup_singleton_eq. }
  assert (H2 : Forall (fun l => is_comment l = true)
                 (Py.lines (text_lines ["# a"; "# b"]))).
  { vm_compute. repeat constructor. }
  split; [exact H1 |]. split; [exact H2 |].
  exact (load_of_comments_only (C := Demo.collaborators) _ _ model1 None true _ H1 H2).
Defined.

(** A header line of two fields. *)
Lemma load_of_short_header_run :
  exists line w1,
    load_header_line 0 (reading ["  7 -1/1"]) = (Ok line, w1) /\
    (length (Py.split (Py.strip line)) < 3)%nat /\
    load (C := Demo.collaborators) (inr 0%nat) model1 None true (reading ["  7 -1/1"])
    = (Raise IndexError, w1).
Proof.
  eexists _, _.
  match goal with |- ?A /\ _ => assert (HA : A) by run end.
  split; [exact HA |].
  match goal with
  | |- ?L /\ _ => assert (HL : L) by (vm_compute; lia)
  end.
  split; [exact HL |].
  refine (load_of_short_header (C := Demo.collaborators) _ model1 None true _ _ _ HA HL _ _).
  - intros s Hs. vm_compute in Hs. injection Hs as <-. by eexists.
  - intros s Hs. vm_compute in Hs. injection Hs as <-. by eexists.
Defined.

(** [load] on a handle that stands at the start of [lines_plain]. *)
Lemma load_closes_no_handle_run :
  exists r w',
    load (C := Demo.collaborators) (inr 0%nat) model1 None false (reading lines_plain)
    = (r, w') /\
    undisturbed 0 (reading lines_plain) w'.
Proof.
  eexists _, _.
  match goal with |- ?A /\ _ => assert (HA : A) by run end.
  split; [exact HA |].
  exact (load_closes_no_handle (C := Demo.collaborators) _ _ _ _ _ _ _ HA).
Defined.

Lemma load_changes_no_file_run :
  exists r w',
    load (C := Demo.collaborators) (inl "model.lpf") model1 None false
      (world_of "model.lpf" file_plain) = (r, w') /\
    fs w' = fs (world_of "model.lpf" file_plain).
Proof.
  eexists _, _.
  match goal with |- ?A /\ _ => assert (HA : A) by run end.
  split; [exact HA |].
  exact (load_changes_no_file (C := Demo.collaborators) _ _ _ _ _ _ HA).
Defined.

(** [ModflowLpf(m, laytyp=[0, 1], laywet=[0, 1])] on a model of one layer:
    the arrays have two entries, and the constructor raises. *)
Lemma init_adds_the_package_last_run :
  exists e w',
    __init__ (C := Demo.collaborators) model1 args_two Demo.world0 = (Raise e, w') /\
    w' = Demo.world0.
Proof.
  eexists _, _.
  match goal with |- ?A /\ _ => assert (HA : A) by run end.
  split; [exact HA |].
  exact (init_adds_the_package_last (C := Demo.collaborators) _ _ _ _ _ HA).
Defined.

(** [file_plain] is loaded with the validation on: one comment and the
    header, the budget unit 7, the five arrays, no wetting-control line, no
    parameter, the blocks hk and vka of the layer, the constructor and the
    validator. *)
Lemma load_calls_in_order_run :
  exists r w',
    load (C := Demo.collaborators) (inl "model.lpf") model1 None true
      (world_of "model.lpf" file_plain) = (Ok r, w') /\
    events w' =
      [EvReadline; EvReadline; EvAddPopKey 7;
       EvRead1d; EvRead1d; EvRead1d; EvRead1d; EvRead1d;
       EvUtil2dLoad "hk" 0; EvUtil2dLoad "vka" 0; EvAddPackage; EvCheck 0] /\
    exists h w0 hdr p l n line w1 s raw,
      load_run (C := Demo.collaborators) (inl "model.lpf") model1 None true
        (world_of "model.lpf" file_plain) r w' h w0 hdr p l /\
      load_header_line h w0 = (Ok line, w1) /\
      Py.split (Py.strip line) !! 0%nat = Some s /\ Py.int s = Some raw /\
      events w' =
        (events (world_of "model.lpf" file_plain) ++ replicate (S n) EvReadline ++
         (if raw =? 0 then [] else [EvAddPopKey raw]) ++
         replicate 5 EvRead1d ++
         (if 0 <? Np.sum (p_laywet p) then [EvReadline] else []) ++
         (if 0 <? p_nplpf p then [EvMfparLoad (p_nplpf p)] else []) ++
         all_events (C := Demo.collaborators) model1 p ++
         [EvAddPackage] ++
         [EvCheck 0])%list /\
      laytyp r = p_laytyp p /\
      chani r = map (float32 (Collaborators := Demo.collaborators)) (p_chani p) /\
      laywet r = p_laywet p.
Proof.
  eexists _, _.
  match goal with |- ?A /\ _ => assert (HA : A) by run end.
  split; [exact HA |]. split; [reflexivity |].
  exact (load_calls_in_order (C := Demo.collaborators) _ _ _ _ _ _ _ HA).
Defined.

(** A file with the wetting-control line, on a handle. *)
Lemma loaded_wetting_values_run :
  exists r w',
    load (C := Demo.collaborators) (inr 0%nat) model1 None false (reading lines_wet)
    = (Ok r, w') /\
    0 < Np.sum (laywet r) /\
    is_Some (wetfct r) /\ is_Some (iwetit r) /\ is_Some (ihdwet r).
Proof.
  eexists _, _.
  match goal with |- ?A /\ _ => assert (HA : A) by run end.
  split; [exact HA |]. split; [reflexivity |].
  exact (loaded_wetting_values (C := Demo.collaborators) _ _ _ _ _ _ _ HA).
Defined.

Lemma loaded_record_is_written_run :
  exists r w',
    load (C := Demo.collaborators) (inr 0%nat) model1 None false (reading lines_wet)
    = (Ok r, w') /\
    (nlay model1 <= length (laycbd model1))%nat /\
    writable (Collaborators := Demo.collaborators) (fn_path r) = true /\
    (exists w3, write_check (C := Demo.collaborators) r w' = (Ok tt, w3)) /\
    exists w3, write_file (C := Demo.collaborators) r true w' = (Ok tt, w3).
Proof.
  eexists _, _.
  match goal with |- ?A /\ _ => assert (HA : A) by run end.
  split; [exact HA |].
  assert (Hle : (nlay model1 <= length (laycbd model1))%nat) by (simpl; lia).
  split; [exact Hle |]. split; [reflexivity |].
  match goal with
  | |- ?K /\ _ => assert (HK : K) by (eexists; run)
  end.
  split; [exact HK |].
  exact (loaded_record_is_written (C := Demo.collaborators) _ _ _ _ _ _ _ true _ HA Hle
           eq_refl (fun _ => HK)).
Defined.


(** [ModflowLpf(m, chani=0.5)] is written, and a file with the same flags
    is read: hk, hani and vka. *)
Lemma blocks_read_as_written_run :
  exists self w1 w' l w3,
    __init__ (C := Demo.collaborators) model1 args_half Demo.world0 = (Ok self, w1) /\
    write_file (C := Demo.collaborators) self false w1 = (Ok tt, w') /\
    load_layers (C := Demo.collaborators) 0 model1 None (parsed_with (1 # 2) 0 0 [])
      (reading ["CONSTANT 1/1"; "CONSTANT 1/1"; "CONSTANT 1/1"]) = (Ok l, w3) /\
    events w3 =
      (events (reading ["CONSTANT 1/1"; "CONSTANT 1/1"; "CONSTANT 1/1"]) ++
       omap (block_call (C := Demo.collaborators) (parsed_with (1 # 2) 0 0 [])) (labels_written w1 w'))%list.
Proof.
  eexists _, _, _, _, _.
  match goal with
  | |- ?A /\ ?W /\ ?L /\ _ =>
      assert (HA : A) by run; assert (HW : W) by run; assert (HL : L) by run
  end.
  split; [exact HA |]. split; [exact HW |]. split; [exact HL |].
  exact (blocks_read_as_written (C := Demo.collaborators) _ false _ _ 0%nat None
           (parsed_with (1 # 2) 0 0 []) _ _ _ HW HL eq_refl eq_refl eq_refl eq_refl).
Defined.
